(** * ShortsAI: the generation client, the audio container and the pipeline

    A shallow embedding of [src/services/gemini.ts] (the four generation
    operations and the WAV wrapping of the synthesized speech) and of the
    state handling of [src/App.tsx] (the [useState] cells, the effects and
    the event handlers), with the properties of the specification stated
    over them.

    Conventions.
    - A JavaScript number that holds an integer is a [Z]; the 32 and 16 bit
      stores of [DataView] reduce it modulo [2^32] and [2^16].
    - A binary string (the result of [atob]) is a [string]: one character
      per byte.  A [Uint8Array] and an [ArrayBuffer] are lists of bytes,
      each byte a [Z] in [0, 256).
    - [null] and [undefined] in a state cell are [None].
    - A JSON text is represented by the value it denotes ([JsValue]), a
      text that is not JSON by [NotJSON]: [JSON.parse] is the destructor of
      that representation. *)

From Stdlib Require Import ZArith Lia Ascii String.
From stdpp Require Import base option list strings gmap pretty.

Local Open Scope Z_scope.
Set Warnings "-register-all".

(** ** JavaScript values and results *)

Module Js.

(** What a [throw] carries: every throw site of the two files raises an
    [Error] object (or a subclass), of which the handlers read
    [message]. *)
Record JsError := mkError { name : string; message : string }.

(** A settled promise, or the result of a call that may throw. *)
Inductive Outcome (A : Type) :=
| Resolved (a : A)
| Threw (e : JsError).
Arguments Resolved {A} a.
Arguments Threw {A} e.

Definition bind {A B} (o : Outcome A) (k : A -> Outcome B) : Outcome B :=
  match o with
  | Resolved a => k a
  | Threw e => Threw e
  end.

Definition is_resolved {A} (o : Outcome A) : bool :=
  match o with Resolved _ => true | Threw _ => false end.

Definition is_threw {A} (o : Outcome A) : bool :=
  match o with Resolved _ => false | Threw _ => true end.

(** Truthiness of a string cell that may be [null]/[undefined]: the
    empty string is falsy as well. *)
Definition truthy_str (s : option string) : bool :=
  match s with
  | Some s => negb (String.eqb s "")
  | None => false
  end.

(** [a || b] on strings. *)
Definition or_str (a : option string) (b : string) : string :=
  match a with
  | Some s => if String.eqb s "" then b else s
  | None => b
  end.

(** The values [JSON.parse] can return.  A number is represented by its
    canonical rendering, the text [String(n)] yields: that text
    determines the number up to the sign of zero, and the program only
    tests numbers for truthiness and renders them. *)
Inductive JsValue :=
| JNull
| JBool (b : bool)
| JNumber (rendering : string)
| JString (s : string)
| JArray (items : list JsValue)
| JObject (fields : list (string * JsValue)).

(** [!!v]. *)
Definition truthy (v : JsValue) : bool :=
  match v with
  | JNull => false
  | JBool b => b
  | JNumber r => negb (String.eqb r "0" || String.eqb r "NaN")
  | JString s => negb (String.eqb s "")
  | JArray _ | JObject _ => true
  end.

Fixpoint lookup_field (k : string) (fields : list (string * JsValue))
  : option JsValue :=
  match fields with
  | [] => None
  | (k', v) :: fields => if String.eqb k k' then Some v else lookup_field k fields
  end.

(** [v.k] for the property names the program reads ([hook], [body],
    [cta]), which no primitive and no array has; [None] is
    [undefined]. *)
Definition get (v : JsValue) (k : string) : option JsValue :=
  match v with
  | JObject fields => lookup_field k fields
  | _ => None
  end.

(** [String(v)], which is also what a template literal inserts. *)
Fixpoint ToString (v : JsValue) : string :=
  match v with
  | JNull => "null"
  | JBool true => "true"
  | JBool false => "false"
  | JNumber r => r
  | JString s => s
  | JArray items =>
      (fix join (l : list JsValue) : string :=
         let item x := match x with JNull => "" | _ => ToString x end in
         match l with
         | [] => ""
         | [x] => item x
         | x :: l => item x +:+ "," +:+ join l
         end) items
  | JObject _ => "[object Object]"
  end.

Definition ToString_opt (v : option JsValue) : string :=
  match v with
  | Some v => ToString v
  | None => "undefined"
  end.

(** Structural comparison of two values. *)
Fixpoint value_eqb (a b : JsValue) : bool :=
  match a, b with
  | JNull, JNull => true
  | JBool x, JBool y => Bool.eqb x y
  | JNumber x, JNumber y => String.eqb x y
  | JString x, JString y => String.eqb x y
  | JArray l, JArray m =>
      (fix all2 (l m : list JsValue) : bool :=
         match l, m with
         | [], [] => true
         | x :: l, y :: m => value_eqb x y && all2 l m
         | _, _ => false
         end) l m
  | JObject l, JObject m =>
      (fix all2 (l m : list (string * JsValue)) : bool :=
         match l, m with
         | [], [] => true
         | (k, x) :: l, (k', y) :: m =>
             String.eqb k k' && value_eqb x y && all2 l m
         | _, _ => false
         end) l m
  | _, _ => false
  end.

(** A JSON text, up to what [JSON.parse] makes of it; [NotJSON] also
    stands for an absent text ([JSON.parse(undefined)] throws too). *)
Inductive JsonText :=
| NotJSON
| JSON (v : JsValue).

(** The [SyntaxError] of [JSON.parse].  Its message depends on the engine
    and on the text; one message stands for them all, and nothing is
    proved from what it says. *)
Definition syntax_error : JsError :=
  mkError "SyntaxError" "Unexpected token in JSON".

Definition JSON_parse (t : JsonText) : Outcome JsValue :=
  match t with
  | NotJSON => Threw syntax_error
  | JSON v => Resolved v
  end.

End Js.
Import Js.

(** [Outcome] is used through stdpp's monad notation [x ← c; k]. *)
#[global] Instance outcome_ret : MRet Outcome := @Resolved.
#[global] Instance outcome_bind : MBind Outcome := fun _ _ k o => Js.bind o k.

(** ** [DataView] over an [ArrayBuffer] *)

Module DataView.

Definition new_ArrayBuffer (n : nat) : list Z := replicate n 0.

(** Byte [k] (counted from the least significant one) of [v]. *)
Definition byte_of (v : Z) (k : nat) : Z := (v / 256 ^ Z.of_nat k) mod 256.

(** The [width] bytes of [v] modulo [256 ^ width], in storage order. *)
Definition uint_bytes (width : nat) (v : Z) (littleEndian : bool) : list Z :=
  let le := byte_of v <$> seq 0 width in
  if littleEndian then le else reverse le.

Definition range_error : JsError :=
  mkError "RangeError" "Offset is outside the bounds of the DataView".

Definition set_bytes (byteOffset : nat) (bs : list Z) (view : list Z)
  : Outcome (list Z) :=
  if (byteOffset + length bs <=? length view)%nat
  then Resolved (list_inserts byteOffset bs view)
  else Threw range_error.

Definition setUint32 (byteOffset : nat) (value : Z) (littleEndian : bool)
    (view : list Z) : Outcome (list Z) :=
  set_bytes byteOffset (uint_bytes 4 value littleEndian) view.

Definition setUint16 (byteOffset : nat) (value : Z) (littleEndian : bool)
    (view : list Z) : Outcome (list Z) :=
  set_bytes byteOffset (uint_bytes 2 value littleEndian) view.

(** Reading back: the unsigned integer held by [bs] in storage order. *)
Fixpoint le_value (bs : list Z) : Z :=
  match bs with
  | [] => 0
  | b :: bs => b + 256 * le_value bs
  end.

Definition get_uint (width : nat) (byteOffset : nat) (littleEndian : bool)
    (view : list Z) : Outcome Z :=
  if (byteOffset + width <=? length view)%nat
  then
    let bs := take width (drop byteOffset view) in
    Resolved (le_value (if littleEndian then bs else reverse bs))
  else Threw range_error.

Definition getUint32 := get_uint 4.
Definition getUint16 := get_uint 2.

End DataView.

(** ** The audio container of [generateAudio] *)

Module Wav.
Import DataView.

Record Blob := mkBlob { blob_bytes : list Z; blob_type : string }.

Definition charCodeAt (s : string) (i : nat) : Z :=
  match String.get i s with
  | Some c => Z.of_N (N_of_ascii c)
  | None => 0 (* NaN, which a Uint8Array stores as 0 *)
  end.

(** [for (let i = 0; i < len; i++) bytes[i] = binaryString.charCodeAt(i)]
    over [new Uint8Array(len)]. *)
Definition Uint8Array_of_binary (binaryString : string) : list Z :=
  let len := String.length binaryString in
  foldl (fun bytes i => <[i := charCodeAt binaryString i mod 256]> bytes)
        (replicate len 0) (seq 0 len).

Definition sampleRate : Z := 24000.
Definition numChannels : Z := 1.
Definition bitsPerSample : Z := 16.

(** The header of lines 79-107, for a payload [bytes]. *)
Definition wav_header (bytes : list Z) : Outcome (list Z) :=
  let len := Z.of_nat (length bytes) in
  let view := new_ArrayBuffer 44 in
  view ← setUint32 0 0x52494646 false view;
  view ← setUint32 4 (36 + len) true view;
  view ← setUint32 8 0x57415645 false view;
  view ← setUint32 12 0x666d7420 false view;
  view ← setUint32 16 16 true view;
  view ← setUint16 20 1 true view;
  view ← setUint16 22 numChannels true view;
  view ← setUint32 24 sampleRate true view;
  view ← setUint32 28 (sampleRate * numChannels * (bitsPerSample / 8)) true view;
  view ← setUint16 32 (numChannels * (bitsPerSample / 8)) true view;
  view ← setUint16 34 bitsPerSample true view;
  view ← setUint32 36 0x64617461 false view;
  view ← setUint32 40 len true view;
  Resolved view.

(** [new Blob([header, bytes], { type: 'audio/wav' })]. *)
Definition wav_blob (bytes : list Z) : Outcome Blob :=
  header ← wav_header bytes;
  Resolved (mkBlob (header ++ bytes) "audio/wav").

(** The four characters stored at [off], as a string. *)
Definition tag_at (off : nat) (view : list Z) : string :=
  string_of_list_ascii
    ((fun b => ascii_of_N (Z.to_N b)) <$> take 4 (drop off view)).

End Wav.

(** ** [window.atob] *)

Module Base64.

Definition sextet (c : ascii) : option Z :=
  let n := Z.of_N (N_of_ascii c) in
  if (65 <=? n) && (n <=? 90) then Some (n - 65)
  else if (97 <=? n) && (n <=? 122) then Some (n - 71)
  else if (48 <=? n) && (n <=? 57) then Some (n + 4)
  else if n =? 43 then Some 62
  else if n =? 47 then Some 63
  else None.

(** Four sextets give three bytes; a rest of three gives two bytes and
    a rest of two gives one, the surplus bits being dropped. *)
Fixpoint octets (l : list Z) : list Z :=
  match l with
  | a :: b :: c :: d :: l =>
      let n := ((a * 64 + b) * 64 + c) * 64 + d in
      n / 65536 :: (n / 256) mod 256 :: n mod 256 :: octets l
  | [a; b; c] =>
      let n := ((a * 64 + b) * 64 + c) / 4 in
      [n / 256; n mod 256]
  | [a; b] => [(a * 64 + b) / 16]
  | _ => []
  end.

Definition is_ascii_whitespace (c : ascii) : bool :=
  let n := N_of_ascii c in
  ((n =? 9) || (n =? 10) || (n =? 12) || (n =? 13) || (n =? 32))%N.

Definition is_pad (c : ascii) : bool := (N_of_ascii c =? 61)%N.

(** Removes one or two trailing [=] (the argument is reversed). *)
Definition strip_padding_rev (r : list ascii) : list ascii :=
  match r with
  | c1 :: c2 :: r' =>
      if is_pad c1 then (if is_pad c2 then r' else c2 :: r') else r
  | _ => r
  end.

Definition invalid_character : JsError :=
  mkError "InvalidCharacterError" "The string to be decoded is not correctly encoded.".

(** The forgiving base64 decoding of the HTML standard. *)
Definition atob (data : string) : Outcome string :=
  let cs := List.filter (fun c => negb (is_ascii_whitespace c))
                        (list_ascii_of_string data) in
  let cs := if (length cs mod 4 =? 0)%nat
            then reverse (strip_padding_rev (reverse cs)) else cs in
  if (length cs mod 4 =? 1)%nat then Threw invalid_character
  else match mapM sextet cs with
       | None => Threw invalid_character
       | Some l =>
           Resolved (string_of_list_ascii
                       ((fun b => ascii_of_N (Z.to_N b)) <$> octets l))
       end.

(** The characters [/\s/] matches among those below 256. *)
Definition is_whitespace (c : ascii) : bool :=
  let n := N_of_ascii c in
  ((9 <=? n) && (n <=? 13) || (n =? 32) || (n =? 160))%N.

(** [data.replace(/\s/g, '')]. *)
Definition remove_whitespace (data : string) : string :=
  string_of_list_ascii
    (List.filter (fun c => negb (is_whitespace c)) (list_ascii_of_string data)).

End Base64.

(** ** The browser and process state the two files act on *)

Inductive Language := English | Hindi.

(** The values of the [step] cell. *)
Module Step.
Inductive t := search | script | preview | upload.
End Step.

(** What [JSON.stringify] writes under [shorts_ai_state]: the four
    persisted cells, the script reduced to its three rendered fields. *)
Record ScriptText := mkScriptText { hook : string; body : string; cta : string }.

Record Snapshot := mkSnapshot {
  snap_query : string;
  snap_step : Step.t;
  snap_productInfo : string;
  snap_script : option ScriptText
}.

(** An item of [localStorage] read back through [JSON.parse]. *)
Inductive StoredState :=
| Unparsable
| Stored (snap : Snapshot).

(** A request sent to the generative backend. *)
Inductive Request :=
| LookupRequest (query : string)
| ScriptRequest (productInfo : string) (language : Language)
| SpeechRequest (text : string) (language : Language)
| ImageRequest (prompt : string).

Record Platform := mkPlatform {
  GEMINI_API_KEY : option string;        (* process.env.GEMINI_API_KEY *)
  requests : list Request;               (* network I/O issued, newest first *)
  objectURLs : gmap string Wav.Blob;     (* live URL.createObjectURL entries *)
  minted : nat;                          (* object URLs created so far *)
  shorts_ai_state : option StoredState;  (* localStorage *)
  isYoutubeConnected_item : option string;
  youtube_success : bool;                (* ?youtube_success=true in the address *)
  message_listeners : nat                (* handleMessage registrations on window *)
}.

Definition send (r : Request) (p : Platform) : Platform :=
  mkPlatform (GEMINI_API_KEY p) (r :: requests p) (objectURLs p) (minted p)
    (shorts_ai_state p) (isYoutubeConnected_item p) (youtube_success p)
    (message_listeners p).

(** [URL.createObjectURL(blob)]: a URL not handed out before. *)
Definition createObjectURL (blob : Wav.Blob) (p : Platform) : string * Platform :=
  let url := "blob:" +:+ pretty (minted p) in
  (url,
   mkPlatform (GEMINI_API_KEY p) (requests p) (<[url := blob]> (objectURLs p))
     (S (minted p)) (shorts_ai_state p) (isYoutubeConnected_item p)
     (youtube_success p) (message_listeners p)).

Definition revokeObjectURL (url : string) (p : Platform) : Platform :=
  mkPlatform (GEMINI_API_KEY p) (requests p) (delete url (objectURLs p))
    (minted p) (shorts_ai_state p) (isYoutubeConnected_item p)
    (youtube_success p) (message_listeners p).

(** [process.env] with the credential replaced. *)
Definition setenv (key : option string) (p : Platform) : Platform :=
  mkPlatform key (requests p) (objectURLs p) (minted p) (shorts_ai_state p)
    (isYoutubeConnected_item p) (youtube_success p) (message_listeners p).

(** ** [services/gemini.ts] *)

Module Gemini.

(** An [async] function of this file either throws before its only
    [await] or has sent one request and continues with the response. *)
Inductive Async (R A : Type) :=
| Rejected (e : JsError)
| Awaiting (req : Request) (k : R -> Platform -> Outcome A * Platform).
Arguments Rejected {R A} e.
Arguments Awaiting {R A} req k.

(** The backend's answer to one request: a transport or service
    failure, or a response. *)
Definition Reply (R : Type) := Outcome R.

(** The state after the synchronous part of a call. *)
Definition started {R A} (a : Async R A) (p : Platform) : Platform :=
  match a with
  | Rejected _ => p
  | Awaiting req _ => send req p
  end.

(** The promise of a call that is waiting settles with the answer of the
    backend: rejected on a failure, continued with [k] on a response. *)
Definition answer {R A} (k : R -> Platform -> Outcome A * Platform)
    (reply : Reply R) (p : Platform) : Outcome A * Platform :=
  match reply with
  | Threw e => (Threw e, p)
  | Resolved response => k response p
  end.

Definition settle {R A} (a : Async R A) (reply : Reply R) (p : Platform)
  : Outcome A * Platform :=
  match a with
  | Rejected e => (Threw e, p)
  | Awaiting _ k => answer k reply p
  end.

(** A call run to completion against a backend that answers [reply]. *)
Definition run {R A} (call : Platform -> Async R A) (reply : Reply R)
    (p : Platform) : Outcome A * Platform :=
  let a := call p in settle a reply (started a p).

Definition missing_key : JsError :=
  mkError "Error"
    "Gemini API Key is missing. Please set GEMINI_API_KEY in your Render.com environment variables.".

(** The client object [new GoogleGenAI({ apiKey })]. *)
Record GoogleGenAI := mkAI { apiKey : string }.

Definition getAI (p : Platform) : Outcome GoogleGenAI :=
  if truthy_str (GEMINI_API_KEY p)
  then Resolved (mkAI (default "" (GEMINI_API_KEY p)))
  else Threw missing_key.

(** Whether a credential is configured, as [!apiKey] sees it. *)
Definition has_key (p : Platform) : Prop := truthy_str (GEMINI_API_KEY p) = true.
Definition lacks_key (p : Platform) : Prop := truthy_str (GEMINI_API_KEY p) = false.

(** The parts of a response the file reads. *)
Record InlineData := mkInlineData { data : option string }.
Record Part := mkPart { inlineData : option InlineData }.
Record Content := mkContent { parts : option (list Part) }.
Record Candidate := mkCandidate { content : option Content }.
Record Response := mkResponse { candidates : option (list Candidate) }.

(** [response.candidates?.[0]?.content?.parts]. *)
Definition first_parts (response : Response) : option (list Part) :=
  cs ← candidates response; c ← head cs; ct ← content c; parts ct.

(** *** searchProduct *)

Definition searchProduct_then (text : option string) (p : Platform)
  : Outcome (option string) * Platform :=
  (Resolved text, p).

Definition searchProduct (query : string) (p : Platform)
  : Async (option string) (option string) :=
  match getAI p with
  | Threw e => Rejected e
  | Resolved ai => Awaiting (LookupRequest query) searchProduct_then
  end.

(** *** generateScript *)

Definition generateScript_then (text : JsonText) (p : Platform)
  : Outcome JsValue * Platform :=
  (JSON_parse text, p).

Definition generateScript (productInfo : string) (language : Language)
    (p : Platform) : Async JsonText JsValue :=
  match getAI p with
  | Threw e => Rejected e
  | Resolved ai => Awaiting (ScriptRequest productInfo language) generateScript_then
  end.

(** *** generateAudio *)

Definition type_error : JsError :=
  mkError "TypeError" "Cannot read properties of undefined (reading 'replace')".

(** [response.candidates?.[0]?.content?.parts?.[0]?.inlineData]. *)
Definition first_part_inlineData (response : Response) : option InlineData :=
  ps ← first_parts response; part ← head ps; inlineData part.

(** [part.data], on which [replace] is called. *)
Definition data_of (part : InlineData) : Outcome string :=
  match data part with
  | Some d => Resolved d
  | None => Threw type_error
  end.

(** Lines 67-109: from the inline payload to the blob. *)
Definition wrap_pcm (part : InlineData) : Outcome Wav.Blob :=
  d ← data_of part;
  let base64Data := Base64.remove_whitespace d in
  binaryString ← Base64.atob base64Data;
  let bytes := Wav.Uint8Array_of_binary binaryString in
  Wav.wav_blob bytes.

Definition generateAudio_then (response : Response) (p : Platform)
  : Outcome (option string) * Platform :=
  match first_part_inlineData response with
  | None => (Resolved None, p)
  | Some part =>
      match wrap_pcm part with
      | Threw e => (Threw e, p)
      | Resolved blob =>
          let (url, p) := createObjectURL blob p in (Resolved (Some url), p)
      end
  end.

Definition generateAudio (text : string) (language : Language) (p : Platform)
  : Async Response (option string) :=
  match getAI p with
  | Threw e => Rejected e
  | Resolved ai => Awaiting (SpeechRequest text language) generateAudio_then
  end.

(** *** generateVisual *)

Fixpoint first_inline (ps : list Part) : option InlineData :=
  match ps with
  | [] => None
  | part :: ps =>
      match inlineData part with
      | Some d => Some d
      | None => first_inline ps
      end
  end.

Definition generateVisual_then (response : Response) (p : Platform)
  : Outcome (option string) * Platform :=
  match first_inline (default [] (first_parts response)) with
  | Some d => (Resolved (Some ("data:image/png;base64," +:+ default "undefined" (data d))), p)
  | None => (Resolved None, p)
  end.

Definition generateVisual (prompt : string) (p : Platform)
  : Async Response (option string) :=
  match getAI p with
  | Threw e => Rejected e
  | Resolved ai => Awaiting (ImageRequest prompt) generateVisual_then
  end.

End Gemini.

(** ** [App.tsx]: the state cells and the effects *)

Module App.
Import Gemini.

(** The [useState] cells ([isPlaying] and [uploading], which only drive
    the audio element and the upload button, are left out). *)
Record State := mkState {
  query : string;
  loading : bool;
  step : Step.t;
  language : Language;
  productInfo : string;
  script : option JsValue;
  audioUrl : option string;
  imageUrl : option string;
  error : option string;
  isYoutubeConnected : bool
}.

Definition setQuery v s :=
  mkState v (loading s) (step s) (language s) (productInfo s) (script s)
    (audioUrl s) (imageUrl s) (error s) (isYoutubeConnected s).
Definition setLoading v s :=
  mkState (query s) v (step s) (language s) (productInfo s) (script s)
    (audioUrl s) (imageUrl s) (error s) (isYoutubeConnected s).
Definition setStep v s :=
  mkState (query s) (loading s) v (language s) (productInfo s) (script s)
    (audioUrl s) (imageUrl s) (error s) (isYoutubeConnected s).
Definition setLanguage v s :=
  mkState (query s) (loading s) (step s) v (productInfo s) (script s)
    (audioUrl s) (imageUrl s) (error s) (isYoutubeConnected s).
Definition setProductInfo v s :=
  mkState (query s) (loading s) (step s) (language s) v (script s)
    (audioUrl s) (imageUrl s) (error s) (isYoutubeConnected s).
Definition setScript v s :=
  mkState (query s) (loading s) (step s) (language s) (productInfo s) v
    (audioUrl s) (imageUrl s) (error s) (isYoutubeConnected s).
Definition setAudioUrl v s :=
  mkState (query s) (loading s) (step s) (language s) (productInfo s) (script s)
    v (imageUrl s) (error s) (isYoutubeConnected s).
Definition setImageUrl v s :=
  mkState (query s) (loading s) (step s) (language s) (productInfo s) (script s)
    (audioUrl s) v (error s) (isYoutubeConnected s).
Definition setError v s :=
  mkState (query s) (loading s) (step s) (language s) (productInfo s) (script s)
    (audioUrl s) (imageUrl s) v (isYoutubeConnected s).
Definition setIsYoutubeConnected v s :=
  mkState (query s) (loading s) (step s) (language s) (productInfo s) (script s)
    (audioUrl s) (imageUrl s) (error s) v.

(** The values the cells are created with. *)
Definition initial (p : Platform) : State :=
  mkState "" false Step.search English "" None None None None
    (bool_decide (isYoutubeConnected_item p = Some "true")).

(** *** [localStorage] *)

Definition setItem_state (v : StoredState) (p : Platform) : Platform :=
  mkPlatform (GEMINI_API_KEY p) (requests p) (objectURLs p) (minted p)
    (Some v) (isYoutubeConnected_item p) (youtube_success p)
    (message_listeners p).

Definition removeItem_state (p : Platform) : Platform :=
  mkPlatform (GEMINI_API_KEY p) (requests p) (objectURLs p) (minted p)
    None (isYoutubeConnected_item p) (youtube_success p)
    (message_listeners p).

Definition setItem_connected (v : string) (p : Platform) : Platform :=
  mkPlatform (GEMINI_API_KEY p) (requests p) (objectURLs p) (minted p)
    (shorts_ai_state p) (Some v) (youtube_success p) (message_listeners p).

(** [window.history.replaceState] drops the query string. *)
Definition scrub_address (p : Platform) : Platform :=
  mkPlatform (GEMINI_API_KEY p) (requests p) (objectURLs p) (minted p)
    (shorts_ai_state p) (isYoutubeConnected_item p) false
    (message_listeners p).

Definition addEventListener_message (p : Platform) : Platform :=
  mkPlatform (GEMINI_API_KEY p) (requests p) (objectURLs p) (minted p)
    (shorts_ai_state p) (isYoutubeConnected_item p) (youtube_success p)
    (S (message_listeners p)).

Definition removeEventListener_message (p : Platform) : Platform :=
  mkPlatform (GEMINI_API_KEY p) (requests p) (objectURLs p) (minted p)
    (shorts_ai_state p) (isYoutubeConnected_item p) (youtube_success p)
    (pred (message_listeners p)).

(** *** The effects *)

Definition script_text (v : JsValue) : ScriptText :=
  mkScriptText (ToString_opt (get v "hook")) (ToString_opt (get v "body"))
    (ToString_opt (get v "cta")).

Definition script_value (t : ScriptText) : JsValue :=
  JObject [("hook", JString (hook t)); ("body", JString (body t));
           ("cta", JString (cta t))].

(** The object of lines 81-90. *)
Definition snapshot (s : State) : Snapshot :=
  mkSnapshot (query s) (step s) (productInfo s)
    (match script s with
     | Some v => if truthy v then Some (script_text v) else None
     | None => None
     end).

(** Lines 54-66: restoring the cells from the stored item. *)
Definition restore (s : State) (p : Platform) : State :=
  match shorts_ai_state p with
  | Some (Stored state) =>
      setScript (script_value <$> snap_script state)
        (setProductInfo (or_str (Some (snap_productInfo state)) "")
           (setStep (snap_step state)
              (setQuery (or_str (Some (snap_query state)) "") s)))
  | Some Unparsable => s   (* JSON.parse throws, the catch logs *)
  | None => s
  end.

(** Lines 69-75: the fallback flag in the address. *)
Definition check_success_flag (s : State) (p : Platform) : State * Platform :=
  if youtube_success p
  then (setIsYoutubeConnected true s,
        scrub_address (setItem_connected "true" p))
  else (s, p).

(** Lines 78-95. *)
Definition persist (s : State) (p : Platform) : Platform :=
  setItem_state (Stored (snapshot s)) p.

(** Lines 97-99. *)
Definition persist_connected (s : State) (p : Platform) : Platform :=
  setItem_connected (if isYoutubeConnected s then "true" else "false") p.

(** Lines 103-106: the cleanup of the object URL effect. *)
Definition revoke_if_blob (url : option string) (p : Platform) : Platform :=
  match url with
  | Some u => if String.prefix "blob:" u then revokeObjectURL u p else p
  | None => p
  end.

Definition cleanup_urls (s : State) (p : Platform) : Platform :=
  revoke_if_blob (imageUrl s) (revoke_if_blob (audioUrl s) p).

(** *** Rendering after a change of the cells

    An effect runs again when one of its dependencies changed; the
    script is compared by its contents here, which agrees with the
    comparison by identity whenever it decides what is stored (a fresh
    script with the same contents is persisted as the same item). *)

Definition step_eqb (a b : Step.t) : bool :=
  match a, b with
  | Step.search, Step.search | Step.script, Step.script
  | Step.preview, Step.preview | Step.upload, Step.upload => true
  | _, _ => false
  end.

Definition option_eqb {A} (eqb : A -> A -> bool) (a b : option A) : bool :=
  match a, b with
  | Some x, Some y => eqb x y
  | None, None => true
  | _, _ => false
  end.

Definition persisted_changed (old new : State) : bool :=
  negb (String.eqb (query old) (query new)
        && step_eqb (step old) (step new)
        && String.eqb (productInfo old) (productInfo new)
        && option_eqb value_eqb (script old) (script new)).

Definition urls_changed (old new : State) : bool :=
  negb (option_eqb String.eqb (audioUrl old) (audioUrl new)
        && option_eqb String.eqb (imageUrl old) (imageUrl new)).

Definition connected_changed (old new : State) : bool :=
  negb (Bool.eqb (isYoutubeConnected old) (isYoutubeConnected new)).

(** The effects of the render that replaces the cells [old] by [new]. *)
Definition commit (old new : State) (p : Platform) : Platform :=
  let p := if urls_changed old new then cleanup_urls old p else p in
  let p := if persisted_changed old new then persist new p else p in
  if connected_changed old new then persist_connected new p else p.

(** The first render and its effects, in the order of the file, followed
    by the render of what the first effect restored. *)
Definition mount (p : Platform) : State * Platform :=
  let s0 := initial p in
  let (s1, p) := check_success_flag (restore s0 p) p in
  let p := persist s0 p in
  let p := persist_connected s0 p in
  let p := addEventListener_message p in
  (s1, commit s0 s1 p).

(** Leaving the page: the cleanups run and the document's object URLs
    die with it. *)
Definition unmount (s : State) (p : Platform) : Platform :=
  let p := removeEventListener_message (cleanup_urls s p) in
  mkPlatform (GEMINI_API_KEY p) (requests p) ∅ (minted p)
    (shorts_ai_state p) (isYoutubeConnected_item p) (youtube_success p)
    (message_listeners p).

(** *** The event handlers

    A handler runs up to its next [await]; what it still has to do is a
    [Task], resumed when the backend answers.  The cell updates of one
    such piece are rendered together. *)

(** A promise handed to [Promise.all]. *)
Inductive Slot :=
| Pending
| Settled (o : Outcome (option string)).

(** [LookupTask] waits at [await searchProduct(query)] (with the language
    of its closure), [ScriptTask] at [await generateScript(info, language)],
    [AssetsTask] at [await Promise.all([...])]. *)
Inductive Task :=
| LookupTask (language : Language)
| ScriptTask
| AssetsTask (audio visual : Slot).

Definition Error (msg : string) : JsError := mkError "Error" msg.

(** The [catch] and [finally] of [handleSearch]. *)
Definition handleSearch_catch (err : JsError) (s : State) : State :=
  setLoading false
    (setError
       (Some (or_str (Some (message err))
                "An unexpected error occurred during search. Please check your API key and connection."))
       s).

(** Lines 131-135, up to [await searchProduct(query)]. *)
Definition handleSearch (s : State) (p : Platform)
  : State * Platform * option Task :=
  if negb (truthy_str (Some (query s))) then (s, p, None)
  else
    let lang := language s in
    let s := setError None (setLoading true s) in
    let a := searchProduct (query s) p in
    match a with
    | Rejected e => (handleSearch_catch e s, p, None)
    | Awaiting _ _ => (s, started a p, Some (LookupTask lang))
    end.

(** Lines 135-139, from the answer to the lookup up to
    [await generateScript(info, language)]. *)
Definition handleSearch_lookup (lang : Language) (reply : Reply (option string))
    (s : State) (p : Platform) : State * Platform * option Task :=
  let (info, p) := answer searchProduct_then reply p in
  match info with
  | Threw e => (handleSearch_catch e s, p, None)
  | Resolved info =>
      if negb (truthy_str info)
      then (handleSearch_catch
              (Error "Could not find product information. Please try a different search term.") s,
            p, None)
      else
        let info := default "" info in
        let s := setProductInfo info s in
        let a := generateScript info lang p in
        match a with
        | Rejected e => (handleSearch_catch e s, p, None)
        | Awaiting _ _ => (s, started a p, Some ScriptTask)
        end
  end.

(** Lines 139-149, from the answer to the script request. *)
Definition handleSearch_script (reply : Reply JsonText) (s : State)
    (p : Platform) : State * Platform * option Task :=
  let (generatedScript, p) := answer generateScript_then reply p in
  match generatedScript with
  | Threw e => (handleSearch_catch e s, p, None)
  | Resolved generatedScript =>
      if negb (truthy generatedScript)
      then (handleSearch_catch (Error "Failed to generate script.") s, p, None)
      else (setLoading false
              (setStep Step.script (setScript (Some generatedScript) s)),
            p, None)
  end.

(** [Promise.all] over the two slots: rejected as soon as one of them is,
    fulfilled once both are, undecided before. *)
Definition Promise_all (audio visual : Slot)
  : option (Outcome (option string * option string)) :=
  match audio, visual with
  | Settled (Threw e), _ => Some (Threw e)
  | _, Settled (Threw e) => Some (Threw e)
  | Settled (Resolved a), Settled (Resolved v) => Some (Resolved (a, v))
  | _, _ => None
  end.

(** Lines 161-168, once [Promise.all] has settled. *)
Definition handleGenerateAssets_settled
    (r : Outcome (option string * option string)) (s : State) : State :=
  match r with
  | Resolved (audio, image) =>
      setLoading false
        (setStep Step.preview (setImageUrl image (setAudioUrl audio s)))
  | Threw _ => setLoading false s   (* console.error(error) *)
  end.

Definition slot_of (a : Async Response (option string)) : Slot :=
  match a with
  | Rejected e => Settled (Threw e)
  | Awaiting _ _ => Pending
  end.

Definition is_pending (sl : Slot) : bool :=
  match sl with Pending => true | Settled _ => false end.

(** The task that remains while a request of the pair is outstanding. *)
Definition assets_task (audio visual : Slot) : option Task :=
  if is_pending audio || is_pending visual
  then Some (AssetsTask audio visual) else None.

(** Line 156: the utterance. *)
Definition fullText (sc : JsValue) : string :=
  ToString_opt (get sc "hook") +:+ ". " +:+
  ToString_opt (get sc "body") +:+ ". " +:+
  ToString_opt (get sc "cta").

(** Lines 153-160, up to [await Promise.all([...])]. *)
Definition handleGenerateAssets (s : State) (p : Platform)
  : State * Platform * option Task :=
  match script s with
  | None => (s, p, None)
  | Some sc =>
      if negb (truthy sc) then (s, p, None)
      else
        let lang := language s in
        let q := query s in
        let s := setLoading true s in
        let a := generateAudio (fullText sc) lang p in
        let p := started a p in
        let v := generateVisual q p in
        let p := started v p in
        let s := match Promise_all (slot_of a) (slot_of v) with
                 | Some r => handleGenerateAssets_settled r s
                 | None => s
                 end in
        (s, p, assets_task (slot_of a) (slot_of v))
  end.

(** The answer to one request of the pair: its promise settles, and the
    handler continues if that decides [Promise.all]. *)
Definition assets_progress (before : option (Outcome (option string * option string)))
    (audio visual : Slot) (s : State) : State :=
  match before, Promise_all audio visual with
  | None, Some r => handleGenerateAssets_settled r s
  | _, _ => s
  end.

Definition handleGenerateAssets_audio (audio visual : Slot)
    (reply : Reply Response) (s : State) (p : Platform)
  : State * Platform * option Task :=
  match audio with
  | Pending =>
      let (o, p) := answer generateAudio_then reply p in
      (assets_progress (Promise_all audio visual) (Settled o) visual s,
       p, assets_task (Settled o) visual)
  | Settled _ => (s, p, assets_task audio visual)
  end.

Definition handleGenerateAssets_visual (audio visual : Slot)
    (reply : Reply Response) (s : State) (p : Platform)
  : State * Platform * option Task :=
  match visual with
  | Pending =>
      let (o, p) := answer generateVisual_then reply p in
      (assets_progress (Promise_all audio visual) audio (Settled o) s,
       p, assets_task audio (Settled o))
  | Settled _ => (s, p, assets_task audio visual)
  end.

(** Lines 120-128. *)
Definition clearState (s : State) (p : Platform) : State * Platform :=
  let p := removeItem_state p in
  (setImageUrl None
     (setAudioUrl None
        (setScript None
           (setProductInfo "" (setStep Step.search (setQuery "" s))))),
   p).

(** Lines 110-115; [type] is [event.data?.type] when it is a string. *)
Definition handleMessage (type : option string) (s : State) : State :=
  if bool_decide (type = Some "YOUTUBE_AUTH_SUCCESS")
  then setStep Step.preview (setIsYoutubeConnected true s)
  else s.

(** *** The bundle export (lines 211-236) *)

Inductive ZipData :=
| BlobData (b : Wav.Blob)
| TextData (t : string).

(** [zip.file(name, data)]: adds the entry, or replaces the one of that
    name. *)
Fixpoint zip_file (name : string) (d : ZipData) (zip : list (string * ZipData))
  : list (string * ZipData) :=
  match zip with
  | [] => [(name, d)]
  | (n, d') :: zip =>
      if String.eqb n name then (name, d) :: zip
      else (n, d') :: zip_file name d zip
  end.

Definition newline : string := String "010"%char EmptyString.

Definition scriptText (sc : JsValue) : string :=
  "HOOK: " +:+ ToString_opt (get sc "hook") +:+ newline +:+ newline +:+
  "BODY: " +:+ ToString_opt (get sc "body") +:+ newline +:+ newline +:+
  "CTA: " +:+ ToString_opt (get sc "cta").

Record Download := mkDownload {
  download : string;
  archive : list (string * ZipData)
}.

(** [fetch] answers for a URL with its blob or fails; [now] is
    [Date.now()].  The archive is represented by its entries; the object
    URL that line 231 creates for it is the action [Exported] of
    [Page]. *)
Definition handleDownloadAll (fetch : string -> Outcome Wav.Blob) (now : Z)
    (s : State) : Outcome Download :=
  let zip : list (string * ZipData) := [] in
  zip ← (if truthy_str (imageUrl s)
         then imgData ← fetch (default "" (imageUrl s));
              Resolved (zip_file "visual.png" (BlobData imgData) zip)
         else Resolved zip);
  zip ← (if truthy_str (audioUrl s)
         then audioData ← fetch (default "" (audioUrl s));
              Resolved (zip_file "audio.wav" (BlobData audioData) zip)
         else Resolved zip);
  let zip :=
    match script s with
    | Some sc =>
        if truthy sc then zip_file "script.txt" (TextData (scriptText sc)) zip
        else zip
    | None => zip
    end in
  Resolved (mkDownload ("shorts-ai-bundle-" +:+ pretty now +:+ ".zip") zip).

(** *** Transitions run to completion

    A handler together with the answers of the backend, each piece
    followed by the render of its updates. *)

Definition rendered (old : State) (r : State * Platform * option Task)
  : State * Platform * option Task :=
  let '(s, p, t) := r in (s, commit old s p, t).

(** What [handleSearch] accepts of the lookup and of the script
    generation: a result that was returned and is truthy. *)
Definition usable_info (o : Outcome (option string)) : option string :=
  match o with
  | Resolved (Some info) => if String.eqb info "" then None else Some info
  | _ => None
  end.

Definition usable_script (o : Outcome JsValue) : option JsValue :=
  match o with
  | Resolved v => if truthy v then Some v else None
  | Threw _ => None
  end.

(** The search-to-script transition. *)
Definition search_transition (lookup : Reply (option string))
    (scripted : Reply JsonText) (s : State) (p : Platform) : State * Platform :=
  match rendered s (handleSearch s p) with
  | (s1, p1, Some (LookupTask lang)) =>
      match rendered s1 (handleSearch_lookup lang lookup s1 p1) with
      | (s2, p2, Some ScriptTask) =>
          let '(s3, p3, _) :=
            rendered s2 (handleSearch_script scripted s2 p2) in
          (s3, p3)
      | (s2, p2, _) => (s2, p2)
      end
  | (s1, p1, _) => (s1, p1)
  end.

(** The script-to-preview transition; the speech request is answered
    first. *)
Definition assets_transition (speech image : Reply Response)
    (s : State) (p : Platform) : State * Platform :=
  match rendered s (handleGenerateAssets s p) with
  | (s1, p1, Some (AssetsTask a v)) =>
      match rendered s1 (handleGenerateAssets_audio a v speech s1 p1) with
      | (s2, p2, Some (AssetsTask a v)) =>
          let '(s3, p3, _) :=
            rendered s2 (handleGenerateAssets_visual a v image s2 p2) in
          (s3, p3)
      | (s2, p2, _) => (s2, p2)
      end
  | (s1, p1, _) => (s1, p1)
  end.

(** The same with the image request answered first. *)
Definition assets_transition' (speech image : Reply Response)
    (s : State) (p : Platform) : State * Platform :=
  match rendered s (handleGenerateAssets s p) with
  | (s1, p1, Some (AssetsTask a v)) =>
      match rendered s1 (handleGenerateAssets_visual a v image s1 p1) with
      | (s2, p2, Some (AssetsTask a v)) =>
          let '(s3, p3, _) :=
            rendered s2 (handleGenerateAssets_audio a v speech s2 p2) in
          (s3, p3)
      | (s2, p2, _) => (s2, p2)
      end
  | (s1, p1, _) => (s1, p1)
  end.

(** The reset, rendered. *)
Definition reset (s : State) (p : Platform) : State * Platform :=
  let (s', p) := clearState s p in (s', commit s s' p).

End App.

(** ** A run of the page

    The cells, the platform and the handlers waiting for the backend; an
    event is a user action on a control the current render shows and
    enables, an answer of the backend, a message from another window, or a
    reload of the page.  These are the runs of a user who acts on the view
    of the current stage, in a browser whose storage takes every write;
    [Page], further down, adds what the browser allows beyond that. *)

Module Run.
Import Gemini App.

Record System := mkSystem {
  cells : State;
  platform : Platform;
  tasks : list Task
}.

Inductive Event :=
| Reload
| TypeQuery (q : string)            (* the search box *)
| ChooseLanguage (l : Language)     (* the two language buttons *)
| PressEnter                        (* Enter in the search box *)
| ClickGenerate                     (* the search button *)
| ClickGenerateAssets               (* the button of the script stage *)
| ClickStartOver                    (* "Start Over", "Discard & Start New" *)
| LookupAnswer (i : nat) (reply : Reply (option string))
| ScriptAnswer (i : nat) (reply : Reply JsonText)
| SpeechAnswer (i : nat) (reply : Reply Response)
| ImageAnswer (i : nat) (reply : Reply Response)
| Message (type : option string).

Definition boot (p : Platform) : System :=
  let (s, p) := mount p in mkSystem s p [].

(** Which stage the render shows (lines 283, 358, 412). *)
Definition shows_search (s : State) : bool := step_eqb (step s) Step.search.
Definition shows_script (s : State) : bool :=
  step_eqb (step s) Step.script
  && match script s with Some sc => truthy sc | None => false end.
Definition shows_preview (s : State) : bool := step_eqb (step s) Step.preview.

(** The outcome of a piece of a handler: the updates are rendered, the
    task at [i] is replaced by what remains of it. *)
Definition resume (i : nat) (sys : System)
    (r : State * Platform * option Task) : System :=
  let '(s, p, t) := rendered (cells sys) r in
  mkSystem s p
    (match t with
     | Some t => <[i := t]> (tasks sys)
     | None => delete i (tasks sys)
     end).

(** A handler started by the user. *)
Definition start (sys : System) (r : State * Platform * option Task) : System :=
  let '(s, p, t) := rendered (cells sys) r in
  mkSystem s p (tasks sys ++ option_list t).

Definition update (sys : System) (s : State) : System :=
  mkSystem s (commit (cells sys) s (platform sys)) (tasks sys).

Definition react (ev : Event) (sys : System) : option System :=
  let s := cells sys in
  let p := platform sys in
  match ev with
  | Reload => Some (boot (unmount s p))
  | TypeQuery q =>
      if shows_search s then Some (update sys (setQuery q s)) else None
  | ChooseLanguage l =>
      if shows_search s then Some (update sys (setLanguage l s)) else None
  | PressEnter =>
      if shows_search s then Some (start sys (handleSearch s p)) else None
  | ClickGenerate =>
      if shows_search s && negb (loading s || negb (truthy_str (Some (query s))))
      then Some (start sys (handleSearch s p)) else None
  | ClickGenerateAssets =>
      if shows_script s && negb (loading s)
      then Some (start sys (handleGenerateAssets s p)) else None
  | ClickStartOver =>
      if shows_script s || shows_preview s
      then let (s', p') := clearState s p in
           Some (mkSystem s' (commit s s' p') (tasks sys))
      else None
  | LookupAnswer i reply =>
      match tasks sys !! i with
      | Some (LookupTask lang) =>
          Some (resume i sys (handleSearch_lookup lang reply s p))
      | _ => None
      end
  | ScriptAnswer i reply =>
      match tasks sys !! i with
      | Some ScriptTask =>
          Some (resume i sys (handleSearch_script reply s p))
      | _ => None
      end
  | SpeechAnswer i reply =>
      match tasks sys !! i with
      | Some (AssetsTask Pending v) =>
          Some (resume i sys (handleGenerateAssets_audio Pending v reply s p))
      | _ => None
      end
  | ImageAnswer i reply =>
      match tasks sys !! i with
      | Some (AssetsTask a Pending) =>
          Some (resume i sys (handleGenerateAssets_visual a Pending reply s p))
      | _ => None
      end
  | Message type =>
      if (0 <? message_listeners p)%nat
      then Some (update sys (handleMessage type s))
      else Some sys
  end.

(** The events of [evs] in order; [None] if one of them cannot occur. *)
Fixpoint run (evs : list Event) (sys : System) : option System :=
  match evs with
  | [] => Some sys
  | ev :: evs =>
      match react ev sys with
      | Some sys => run evs sys
      | None => None
      end
  end.

(** *** Runs in which the Enter key obeys the loading flag

    The search button is disabled while [loading] is set; the Enter key of
    the search box is not.  An event is orderly if it is not an Enter
    pressed while [loading] is set.  (The events of [Run] are those on the
    view of the current stage; a view that is leaving the page also takes
    Enter, which [Page.calm] accounts for.) *)

Definition orderly (ev : Event) (sys : System) : bool :=
  match ev with
  | PressEnter => negb (loading (cells sys))
  | _ => true
  end.

Inductive orderly_run (sys0 : System) : System -> Prop :=
| orderly_start : orderly_run sys0 sys0
| orderly_step ev sys sys' :
    orderly_run sys0 sys -> orderly ev sys = true -> react ev sys = Some sys' ->
    orderly_run sys0 sys'.

(** The events of [evs] in order, if each can occur and is orderly. *)
Fixpoint run_orderly (evs : list Event) (sys : System) : option System :=
  match evs with
  | [] => Some sys
  | ev :: evs =>
      if orderly ev sys
      then match react ev sys with
           | Some sys => run_orderly evs sys
           | None => None
           end
      else None
  end.

(** A task whose handler has yet to continue. *)
Definition live (t : Task) : bool :=
  match t with
  | LookupTask _ | ScriptTask => true
  | AssetsTask a v =>
      match Promise_all a v with None => true | Some _ => false end
  end.

Definition is_search_task (t : Task) : bool :=
  match t with
  | LookupTask _ | ScriptTask => true
  | AssetsTask _ _ => false
  end.

Fixpoint count_tasks (f : Task -> bool) (ts : list Task) : nat :=
  match ts with
  | [] => 0
  | t :: ts => (if f t then 1 else 0) + count_tasks f ts
  end.

(** The invariant of the specification on the cells. *)
Definition stage_invariant (s : State) : Prop :=
  (step s = Step.search -> script s = None) /\
  (audioUrl s <> None -> imageUrl s <> None ->
   step s = Step.preview \/ step s = Step.upload).

(** A stored snapshot that respects it. *)
Definition stored_ok (p : Platform) : Prop :=
  forall snap, shorts_ai_state p = Some (Stored snap) ->
               snap_step snap = Step.search -> snap_script snap = None.

(** What holds of every state of an orderly run: the two parts of the
    stage invariant (the second in a stronger form), at most one live task,
    none when [loading] is unset, no artifact while a search waits, and a
    stored snapshot that respects the invariant. *)
Definition run_invariant (sys : System) : Prop :=
  let s := cells sys in
  (step s = Step.search -> script s = None) /\
  (step s = Step.search \/ step s = Step.script ->
   audioUrl s = None /\ imageUrl s = None) /\
  (loading s = false -> count_tasks live (tasks sys) = 0%nat) /\
  (count_tasks live (tasks sys) <= 1)%nat /\
  (count_tasks is_search_task (tasks sys) <> 0%nat ->
   audioUrl s = None /\ imageUrl s = None) /\
  stored_ok (platform sys).

(** What resuming the task [old] with an answer does: either the handler
    still waits, or was no longer waiting for this answer, and no cell the
    invariant reads has changed; or the handler has ended, [loading] is
    unset, and the cells are as before, or the stage is preview, or a
    search has set the stage to script. *)
Definition resume_cases (old : Task) (s : State) (p : Platform)
    (r : State * Platform * option Task) : Prop :=
  let '(s', p', t) := r in
  shorts_ai_state p' = shorts_ai_state p /\
  (step s' = step s /\ script s' = script s /\
   audioUrl s' = audioUrl s /\ imageUrl s' = imageUrl s /\
   loading s' = loading s /\
   from_option live false t = live old /\
   from_option is_search_task false t = is_search_task old
   \/
   live old = true /\ from_option live false t = false /\
   from_option is_search_task false t = false /\ loading s' = false /\
   (step s' = step s /\ script s' = script s /\
    audioUrl s' = audioUrl s /\ imageUrl s' = imageUrl s
    \/ step s' = Step.preview
    \/ is_search_task old = true /\ step s' = Step.script /\
       audioUrl s' = audioUrl s /\ imageUrl s' = imageUrl s)).

(** A browser profile that never ran the page: nothing stored, no
    object URL, no request yet. *)
Definition fresh (key : option string) : Platform :=
  mkPlatform key [] ∅ 0 None None false 0.

End Run.

(** ** Sample data: the end-to-end scenario of the specification *)

Module Sample.
Import Gemini App Run.

Definition widget_script : JsValue :=
  JObject [("hook", JString "Amazing!"); ("body", JString "It works.");
           ("cta", JString "Buy now!")].

(** A response whose first part carries the inline payload [d]. *)
Definition inline_response (d : string) : Response :=
  mkResponse
    (Some [mkCandidate (Some (mkContent (Some [mkPart (Some (mkInlineData (Some d)))])))]).

(** A response without candidates. *)
Definition empty_response : Response := mkResponse None.

Definition network_error : JsError := mkError "TypeError" "Failed to fetch".

Definition browser : Platform := fresh (Some "key").

(** The cells at stage script, after the search for "Test Widget". *)
Definition at_script : State :=
  fst (search_transition (Resolved (Some "Widget is great"))
         (Resolved (JSON widget_script))
         (setQuery "Test Widget" (initial browser)) browser).

(** 48 bytes of PCM (64 base64 characters). *)
Definition pcm48 : string :=
  "AAAAAAAAAAAAAAAAAAAAAAAAAAAAAAAAAAAAAAAAAAAAAAAAAAAAAAAAAAAAAAAA".

End Sample.

(** ** [server.ts]: the authorization URL (lines 150-163)

    A string of the server's environment is given by its UTF-8 bytes,
    which is what the serializer of [URLSearchParams] works on. *)

Module Server.

Record Env := mkEnv {
  APP_URL : option string;            (* process.env.APP_URL *)
  YOUTUBE_CLIENT_ID : option string   (* process.env.YOUTUBE_CLIENT_ID *)
}.

(** What a template literal and the constructor of [URLSearchParams] make
    of a variable that may be unset. *)
Definition text_of (v : option string) : string := default "undefined" v.

Definition hex_digit (n : N) : ascii :=
  ascii_of_N (if (n <? 10)%N then 48 + n else 55 + n).

(** The bytes the application/x-www-form-urlencoded serializer leaves as
    they are: the ASCII letters and digits and [* - . _]. *)
Definition unreserved (c : ascii) : bool :=
  let n := N_of_ascii c in
  ((48 <=? n) && (n <=? 57) || (65 <=? n) && (n <=? 90)
   || (97 <=? n) && (n <=? 122)
   || (n =? 42) || (n =? 45) || (n =? 46) || (n =? 95))%N.

(** The serializer on one name or value: a space becomes [+], every other
    byte outside the set above a [%] and two upper-case hex digits. *)
Fixpoint urlencode (s : string) : string :=
  match s with
  | EmptyString => EmptyString
  | String c s =>
      if unreserved c then String c (urlencode s)
      else if (N_of_ascii c =? 32)%N then String "+" (urlencode s)
      else String "%"
             (String (hex_digit (N_of_ascii c / 16))
                (String (hex_digit (N_of_ascii c mod 16)) (urlencode s)))
  end.

(** [URLSearchParams.prototype.toString]. *)
Fixpoint serialize (params : list (string * string)) : string :=
  match params with
  | [] => EmptyString
  | [(k, v)] => urlencode k +:+ "=" +:+ urlencode v
  | (k, v) :: params =>
      urlencode k +:+ "=" +:+ urlencode v +:+ "&" +:+ serialize params
  end.

(** The record of lines 152-159, in insertion order. *)
Definition auth_params (env : Env) : list (string * string) :=
  let redirectUri := text_of (APP_URL env) +:+ "/auth/youtube/callback" in
  [("client_id", text_of (YOUTUBE_CLIENT_ID env));
   ("redirect_uri", redirectUri);
   ("response_type", "code");
   ("scope",
    "https://www.googleapis.com/auth/youtube.upload https://www.googleapis.com/auth/youtube.readonly");
   ("access_type", "offline");
   ("prompt", "consent")].

Definition authUrl (env : Env) : string :=
  "https://accounts.google.com/o/oauth2/v2/auth?" +:+ serialize (auth_params env).

(** The characters that delimit the parts of a query string. *)
Definition is_delimiter (c : ascii) : bool :=
  let n := N_of_ascii c in
  ((n =? 38) || (n =? 61) || (n =? 35) || (n =? 63) || (n =? 59))%N.

End Server.

(** ** Notions the properties are stated with *)

(** A string of characters [/\s/] matches. *)
Definition all_whitespace (w : string) : bool :=
  forallb Base64.is_whitespace (list_ascii_of_string w).

(** A character of the base64 alphabet, and how many a payload has. *)
Definition is_base64 (c : ascii) : bool :=
  match Base64.sextet c with Some _ => true | None => false end.

Definition base64_length (d : string) : nat :=
  length (List.filter is_base64 (list_ascii_of_string d)).

(** The bytes [n] base64 characters stand for. *)
Definition decoded_length (n : nat) : nat := (n / 4 * 3 + (n mod 4 - 1))%nat.

(** *** What a run keeps *)

Module Kept.
Import Gemini App Run.

(** [String(isYoutubeConnected)], the text of line 98. *)
Definition connected_text (b : bool) : string := if b then "true" else "false".

(** The three items of the platform the persistence effects and the first
    effect act on. *)
Definition same_items (p p' : Platform) : Prop :=
  shorts_ai_state p' = shorts_ai_state p /\
  isYoutubeConnected_item p' = isYoutubeConnected_item p /\
  youtube_success p' = youtube_success p.

(** The stored items mirror the cells: the snapshot and the flag the
    effects of lines 78-99 wrote last are those of the current cells, and
    the fallback flag of the address has been consumed. *)
Definition in_sync (sys : System) : Prop :=
  shorts_ai_state (platform sys) = Some (Stored (snapshot (cells sys))) /\
  isYoutubeConnected_item (platform sys)
  = Some (connected_text (isYoutubeConnected (cells sys))) /\
  youtube_success (platform sys) = false.

(** The condition of one of the three views of the render holds (lines
    283, 358, 412): the cells select a view.  Whether React can then
    render it is not said: the script view puts the three fields of the
    script in the page as children (line 387), and a field that is an
    object is no valid child. *)
Definition selects_view (s : State) : bool :=
  shows_search s || shows_script s || shows_preview s.

(** A stored snapshot that selects a view once it is restored. *)
Definition stored_selects (p : Platform) : Prop :=
  forall snap, shorts_ai_state p = Some (Stored snap) ->
    snap_step snap <> Step.upload /\
    (snap_step snap = Step.script -> snap_script snap <> None).

(** The cells select a view and so does what is stored. *)
Definition viewed (sys : System) : Prop :=
  selects_view (cells sys) = true /\ stored_selects (platform sys).

(** No credential, and nothing that needs one has happened: the requests
    sent to the backend are those of [rq], no handler waits, nothing is
    loading and no artifact is held. *)
Definition idle_without_key (rq : list Request) (sys : System) : Prop :=
  lacks_key (platform sys) /\
  requests (platform sys) = rq /\
  tasks sys = [] /\ loading (cells sys) = false /\
  audioUrl (cells sys) = None /\ imageUrl (cells sys) = None.

(** [loading] is set exactly while one handler waits to continue, and no
    second one does. *)
Definition paced (sys : System) : Prop :=
  count_tasks live (tasks sys) = (if loading (cells sys) then 1 else 0)%nat.

(** While [loading] is set, a handler still waits for the backend. *)
Definition loading_waits (sys : System) : Prop :=
  loading (cells sys) = true -> count_tasks live (tasks sys) <> 0%nat.

(** The object URL a waiting asset generation holds: the audio it has
    received while the image is outstanding. *)
Definition slot_url (t : Task) : option string :=
  match t with
  | AssetsTask (Settled (Resolved (Some u))) Pending => Some u
  | _ => None
  end.

(** The image a waiting asset generation has received. *)
Definition image_slot (t : Task) : option string :=
  match t with
  | AssetsTask _ (Settled (Resolved x)) => x
  | _ => None
  end.

Definition slot_urls (t : option Task) : list string :=
  from_option (fun t => option_list (slot_url t)) [] t.

(** An object URL the page created and has not revoked. *)
Definition allocated (p : Platform) (u : string) : Prop :=
  (exists n, u = "blob:" +:+ pretty n /\ (n < minted p)%nat) /\
  is_Some (objectURLs p !! u).

(** An image cell holds nothing or a data URL as [generateVisual] builds
    it. *)
Definition data_url (x : option string) : Prop :=
  forall u, x = Some u -> String.prefix "data:image/png;base64," u = true.

(** The object URLs the cells and the waiting handlers refer to. *)
Definition held (sys : System) : list string :=
  option_list (audioUrl (cells sys)) ++ omap slot_url (tasks sys).

(** Every object URL referred to is referred to once and is allocated;
    the images are data URLs. *)
Definition urls_sound (sys : System) : Prop :=
  NoDup (held sys) /\ Forall (allocated (platform sys)) (held sys) /\
  data_url (imageUrl (cells sys)) /\
  Forall (fun t => data_url (image_slot t)) (tasks sys).

(** What a piece of a handler does to the object URLs: it creates at most
    one ([fr]). *)
Definition grown (p p' : Platform) (fr : list string) : Prop :=
  (objectURLs p' = objectURLs p /\ minted p' = minted p /\ fr = []) \/
  (exists blob,
      objectURLs p' = <["blob:" +:+ pretty (minted p) := blob]> (objectURLs p) /\
      minted p' = S (minted p) /\ fr = ["blob:" +:+ pretty (minted p)]).

(** What a piece of a handler, resumed from [old] (or started), does to
    the artifact cells: it leaves them alone, or binds what its own task
    held or what it just created. *)
Definition url_step (old : option Task) (s : State) (p : Platform)
    (r : State * Platform * option Task) : Prop :=
  let '(s', p', t) := r in
  exists fr, grown p p' fr /\
    (audioUrl s' = audioUrl s /\ imageUrl s' = imageUrl s /\
     slot_urls t ⊆+ fr ++ slot_urls old
     \/
     option_list (audioUrl s') ++ slot_urls t ⊆+ fr ++ slot_urls old /\
     (data_url (from_option image_slot None old) -> data_url (imageUrl s'))) /\
    (data_url (from_option image_slot None old) ->
     data_url (from_option image_slot None t)).

End Kept.

(** ** The page as the browser runs it

    [Run] takes a user action only on a control of the view the current
    cells select, with the handler of the current render, and each of its
    renders stores the snapshot.  The browser gives the page more room:

    - [AnimatePresence mode="wait"] (line 282) keeps the view of a stage
      that has been left on the page while it animates out, as the element
      of its last render.  Its controls stay live, with the [disabled]
      values and the handlers of that render; a handler reads [query],
      [language] and [script] of the render that created it and sets the
      cells of the moment.
    - [localStorage.setItem] can throw, for a quota that is used up; the
      persistence effect catches that (lines 79-94) and the stored item
      stays what it was.
    - the bundle export creates an object URL for the archive (line 231).

    [Page] therefore takes every action at every state, with the handler
    of any render, and lets every write of the snapshot go through or
    fail.  A render or an effect that throws outside a [try] (a script
    field that is an object where the script view expects text, a
    [setItem] of line 72 or 98 that throws) makes React unmount the whole
    tree: the page has no cells from then on.  That ends the run; a
    reload afterwards begins another one, over the items that the writes
    before the throw have left in the store. *)

Module Page.
Import Gemini App Run.

(** Lines 130-135 for the handler of the render with cells [c]: the
    closure gives [query] and [language], the setters act on [s]. *)
Definition handleSearch_of (c s : State) (p : Platform)
  : State * Platform * option Task :=
  if negb (truthy_str (Some (query c))) then (s, p, None)
  else
    let lang := language c in
    let s := setError None (setLoading true s) in
    let a := searchProduct (query c) p in
    match a with
    | Rejected e => (handleSearch_catch e s, p, None)
    | Awaiting _ _ => (s, started a p, Some (LookupTask lang))
    end.

(** Lines 153-160 for the handler of the render with cells [c]: the
    closure gives [script], [language] and [query]. *)
Definition handleGenerateAssets_of (c s : State) (p : Platform)
  : State * Platform * option Task :=
  match script c with
  | None => (s, p, None)
  | Some sc =>
      if negb (truthy sc) then (s, p, None)
      else
        let lang := language c in
        let q := query c in
        let s := setLoading true s in
        let a := generateAudio (fullText sc) lang p in
        let p := started a p in
        let v := generateVisual q p in
        let p := started v p in
        let s := match Promise_all (slot_of a) (slot_of v) with
                 | Some r => handleGenerateAssets_settled r s
                 | None => s
                 end in
        (s, p, assets_task (slot_of a) (slot_of v))
  end.

(** Lines 78-95 with a write that may throw: [stored] tells whether
    [setItem] went through; the [catch] only warns. *)
Definition persist_try (stored : bool) (s : State) (p : Platform) : Platform :=
  if stored then persist s p else p.

(** The effects of the render that replaces the cells [old] by [new].
    [renewed] tells that the script cell was set to an object made anew:
    React compares dependencies by identity, so the persistence effect
    runs then, whatever the contents of the script.  (While every write
    goes through this makes no difference: the item written is the one
    already stored.) *)
Definition commit_try (stored renewed : bool) (old new : State) (p : Platform)
  : Platform :=
  let p := if urls_changed old new then cleanup_urls old p else p in
  let p := if renewed || persisted_changed old new
           then persist_try stored new p else p in
  if connected_changed old new then persist_connected new p else p.

(** Line 142 sets the script cell to what [JSON.parse] returned: for an
    array or an object of the text, a new object at each call. *)
Definition renews (reply : Reply JsonText) : bool :=
  match reply with
  | Resolved (JSON (JArray _)) | Resolved (JSON (JObject _)) => true
  | _ => false
  end.

(** The first render and its effects, then the render of what the first
    effect restored; [first] and [stored] tell whether the two writes of
    the snapshot went through. *)
Definition mount_try (first stored : bool) (p : Platform) : State * Platform :=
  let s0 := initial p in
  let (s1, p) := check_success_flag (restore s0 p) p in
  let p := persist_try first s0 p in
  let p := persist_connected s0 p in
  let p := addEventListener_message p in
  (s1, commit_try stored false s0 s1 p).

Definition load (first stored : bool) (p : Platform) : System :=
  let (s, p) := mount_try first stored p in mkSystem s p [].

Definition rendered_try (stored renewed : bool) (old : State)
    (r : State * Platform * option Task) : State * Platform * option Task :=
  let '(s, p, t) := r in (s, commit_try stored renewed old s p, t).

Definition resume_try (stored renewed : bool) (i : nat) (sys : System)
    (r : State * Platform * option Task) : System :=
  let '(s, p, t) := rendered_try stored renewed (cells sys) r in
  mkSystem s p
    (match t with
     | Some t => <[i := t]> (tasks sys)
     | None => delete i (tasks sys)
     end).

Definition start_try (stored : bool) (sys : System)
    (r : State * Platform * option Task) : System :=
  let '(s, p, t) := rendered_try stored false (cells sys) r in
  mkSystem s p (tasks sys ++ option_list t).

Definition update_try (stored : bool) (sys : System) (s : State) : System :=
  mkSystem s (commit_try stored false (cells sys) s (platform sys)) (tasks sys).

(** What happens to the page.  [Search c] and [Assets c] are calls of
    [handleSearch] and [handleGenerateAssets] as the render with cells [c]
    created them, by a key or a button of a view that is on the page;
    [Exported content] is an export that has reached line 231 with the
    archive [content]. *)
Inductive Action :=
| Reloaded (first : bool)
| Typed (q : string)
| Chose (l : Language)
| Search (c : State)
| Assets (c : State)
| StartOver
| Lookup (i : nat) (reply : Reply (option string))
| Scripted (i : nat) (reply : Reply JsonText)
| Speech (i : nat) (reply : Reply Response)
| Image (i : nat) (reply : Reply Response)
| Posted (type : option string)
| Exported (content : Wav.Blob).

(** One action and the render that follows it; [stored] tells whether the
    write of the snapshot, if that render makes one, goes through.  An
    answer can only come for a handler that waits for it. *)
Definition act (stored : bool) (a : Action) (sys : System) : option System :=
  let s := cells sys in
  let p := platform sys in
  match a with
  | Reloaded first => Some (load first stored (unmount s p))
  | Typed q => Some (update_try stored sys (setQuery q s))
  | Chose l => Some (update_try stored sys (setLanguage l s))
  | Search c => Some (start_try stored sys (handleSearch_of c s p))
  | Assets c => Some (start_try stored sys (handleGenerateAssets_of c s p))
  | StartOver =>
      let (s', p') := clearState s p in
      Some (mkSystem s' (commit_try stored false s s' p') (tasks sys))
  | Lookup i reply =>
      match tasks sys !! i with
      | Some (LookupTask lang) =>
          Some (resume_try stored false i sys (handleSearch_lookup lang reply s p))
      | _ => None
      end
  | Scripted i reply =>
      match tasks sys !! i with
      | Some ScriptTask =>
          Some (resume_try stored (renews reply) i sys
                  (handleSearch_script reply s p))
      | _ => None
      end
  | Speech i reply =>
      match tasks sys !! i with
      | Some (AssetsTask Pending v) =>
          Some (resume_try stored false i sys
                  (handleGenerateAssets_audio Pending v reply s p))
      | _ => None
      end
  | Image i reply =>
      match tasks sys !! i with
      | Some (AssetsTask a Pending) =>
          Some (resume_try stored false i sys
                  (handleGenerateAssets_visual a Pending reply s p))
      | _ => None
      end
  | Posted type =>
      if (0 <? message_listeners p)%nat
      then Some (update_try stored sys (handleMessage type s))
      else Some sys
  | Exported content =>
      Some (mkSystem s (snd (createObjectURL content p)) (tasks sys))
  end.

(** The actions of [evs] in order, each with the fate of its write, as
    long as [allowed] admits them; [None] if one of them is not admitted
    or cannot occur. *)
Fixpoint run_while (allowed : Action -> System -> bool)
    (evs : list (bool * Action)) (sys : System) : option System :=
  match evs with
  | [] => Some sys
  | (stored, a) :: evs =>
      if allowed a sys
      then match act stored a sys with
           | Some sys => run_while allowed evs sys
           | None => None
           end
      else None
  end.

Definition unrestricted (a : Action) (sys : System) : bool := true.

(** Every run of the page. *)
Definition run : list (bool * Action) -> System -> option System :=
  run_while unrestricted.

(** No handler is started while [loading] is set. *)
Definition unhurried (a : Action) (sys : System) : bool :=
  match a with
  | Search _ | Assets _ => negb (loading (cells sys))
  | _ => true
  end.

(** No handler is started while [loading] is set, and no search while an
    artifact is held. *)
Definition calm (a : Action) (sys : System) : bool :=
  match a with
  | Search _ =>
      negb (loading (cells sys))
      && bool_decide (audioUrl (cells sys) = None)
      && bool_decide (imageUrl (cells sys) = None)
  | Assets _ => negb (loading (cells sys))
  | _ => true
  end.

(** The action an event of [Run] is: the user acts on the view the
    current cells select, so the handler is the one of the current
    render. *)
Definition action_of (ev : Event) (s : State) : Action :=
  match ev with
  | Reload => Reloaded true
  | TypeQuery q => Typed q
  | ChooseLanguage l => Chose l
  | PressEnter | ClickGenerate => Search s
  | ClickGenerateAssets => Assets s
  | ClickStartOver => StartOver
  | LookupAnswer i reply => Lookup i reply
  | ScriptAnswer i reply => Scripted i reply
  | SpeechAnswer i reply => Speech i reply
  | ImageAnswer i reply => Image i reply
  | Message type => Posted type
  end.

End Page.

(** * Properties *)

(** ** The audio container *)

Section Container.
Import DataView Wav.

Lemma le_value_bytes (v : Z) (w k : nat) :
  le_value (byte_of v <$> seq k w) = (v / 256 ^ Z.of_nat k) mod 256 ^ Z.of_nat w.
Proof.
  revert k. induction w as [|w IH]; intros k.
  - simpl. now rewrite Z.mod_1_r.
  - cbn [seq fmap list_fmap le_value]. rewrite IH. unfold byte_of.
    rewrite (Nat2Z.inj_succ w), (Nat2Z.inj_succ k), !Z.pow_succ_r by lia.
    rewrite Z.rem_mul_r by lia.
    rewrite Z.div_div by lia.
    now rewrite (Z.mul_comm 256 (256 ^ Z.of_nat k)).
Qed.

(** A stored field reads back as the value reduced modulo its width. *)
Lemma le_value_uint_bytes (w : nat) (v : Z) :
  le_value (uint_bytes w v true) = v mod 256 ^ Z.of_nat w.
Proof.
  unfold uint_bytes. rewrite le_value_bytes. simpl. now rewrite Z.div_1_r.
Qed.

(** The header, byte by byte. *)
Lemma wav_header_bytes (bytes : list Z) :
  let len := Z.of_nat (length bytes) in
  wav_header bytes =
  Resolved
    ([82; 73; 70; 70] ++ uint_bytes 4 (36 + len) true ++
     [87; 65; 86; 69; 102; 109; 116; 32; 16; 0; 0; 0; 1; 0; 1; 0;
      192; 93; 0; 0; 128; 187; 0; 0; 2; 0; 16; 0; 100; 97; 116; 97] ++
     uint_bytes 4 len true).
Proof.
  intros len. unfold wav_header. fold len. generalize len. intros n.
  reflexivity.
Qed.

Lemma length_uint_bytes (w : nat) (v : Z) (le : bool) :
  length (uint_bytes w v le) = w.
Proof.
  unfold uint_bytes. destruct le.
  - now rewrite length_fmap, length_seq.
  - now rewrite length_reverse, length_fmap, length_seq.
Qed.

(** Reading a little-endian field where it was stored. *)
Lemma get_uint_stored (w : nat) (pre rest : list Z) (v : Z) :
  get_uint w (length pre) true (pre ++ uint_bytes w v true ++ rest)
  = Resolved (v mod 256 ^ Z.of_nat w).
Proof.
  unfold get_uint.
  rewrite !length_app, length_uint_bytes.
  replace (length pre + w <=? length pre + (w + length rest))%nat with true
    by (symmetry; apply Nat.leb_le; lia).
  rewrite drop_app_length.
  rewrite <- (length_uint_bytes w v true) at 1.
  rewrite take_app_length.
  now rewrite le_value_uint_bytes.
Qed.

(** C1. For every PCM byte sequence [bytes] of length [N] whose container
    fits the 32-bit size fields ([36 + N < 2^32], which holds of every
    payload the code receives: its bytes are the characters of a string;
    evenness of [N] is not needed), the wrapping of [generateAudio] yields
    a blob of type
    audio/wav of [N + 44] bytes: the tags RIFF, WAVE, "fmt " and data in
    storage order at offsets 0, 8, 12 and 36, the little-endian fields
    chunk size [36 + N], format chunk length 16, format tag 1, channel
    count 1, sample rate 24000, byte rate 48000, block align 2, bits per
    sample 16 and data length [N], followed by [bytes] unchanged. *)
Theorem wav_container (bytes : list Z) :
  let N := Z.of_nat (length bytes) in
  36 + N < 2 ^ 32 ->
  exists blob,
    wav_blob bytes = Resolved blob /\
    blob_type blob = "audio/wav" /\
    Z.of_nat (length (blob_bytes blob)) = N + 44 /\
    tag_at 0 (blob_bytes blob) = "RIFF" /\
    getUint32 4 true (blob_bytes blob) = Resolved (36 + N) /\
    tag_at 8 (blob_bytes blob) = "WAVE" /\
    tag_at 12 (blob_bytes blob) = "fmt " /\
    getUint32 16 true (blob_bytes blob) = Resolved 16 /\
    getUint16 20 true (blob_bytes blob) = Resolved 1 /\
    getUint16 22 true (blob_bytes blob) = Resolved 1 /\
    getUint32 24 true (blob_bytes blob) = Resolved 24000 /\
    getUint32 28 true (blob_bytes blob) = Resolved 48000 /\
    48000 = 24000 * 1 * 16 / 8 /\
    getUint16 32 true (blob_bytes blob) = Resolved 2 /\
    getUint16 34 true (blob_bytes blob) = Resolved 16 /\
    tag_at 36 (blob_bytes blob) = "data" /\
    getUint32 40 true (blob_bytes blob) = Resolved N /\
    drop 44 (blob_bytes blob) = bytes.
Proof.
  intros N HN. unfold wav_blob. rewrite wav_header_bytes. fold N.
  eexists. split; [reflexivity|]. cbn [blob_bytes blob_type].
  assert (H36 : (36 + N) mod 256 ^ Z.of_nat 4 = 36 + N)
    by (apply Z.mod_small; change (256 ^ Z.of_nat 4) with (2 ^ 32); lia).
  assert (H0 : N mod 256 ^ Z.of_nat 4 = N)
    by (apply Z.mod_small; change (256 ^ Z.of_nat 4) with (2 ^ 32); lia).
  repeat split; try reflexivity.
  - cbn [length app uint_bytes fmap list_fmap seq]. fold N. lia.
  - rewrite <- app_assoc.
    transitivity (Resolved (A := Z) ((36 + N) mod 256 ^ Z.of_nat 4));
      [apply (get_uint_stored 4 [82; 73; 70; 70]) | now rewrite H36].
  - rewrite !app_assoc. rewrite <- (app_assoc _ _ bytes).
    transitivity (Resolved (A := Z) (N mod 256 ^ Z.of_nat 4));
      [|now rewrite H0].
    match goal with
    | |- getUint32 40 true (?pre ++ _ ++ _) = _ =>
        apply (get_uint_stored 4 pre)
    end.
Qed.

(** The bound holds at two samples: a 46 byte container. *)
Lemma wav_container_witness :
  exists blob,
    wav_blob [1; 2] = Resolved blob /\
    length (blob_bytes blob) = 46%nat /\
    getUint32 40 true (blob_bytes blob) = Resolved 2.
Proof.
  destruct (wav_container [1; 2]) as (blob & H & _ & Hlen & Hrest);
    [vm_compute; reflexivity|].
  exists blob. split; [exact H|]. split; [simpl in Hlen; lia|].
  apply Hrest.
Defined.

(** Without the bound, the two size fields hold the sizes modulo
    [2^32]. *)
Lemma wav_size_fields (bytes : list Z) :
  let N := Z.of_nat (length bytes) in
  exists blob,
    wav_blob bytes = Resolved blob /\
    getUint32 4 true (blob_bytes blob) = Resolved ((36 + N) mod 2 ^ 32) /\
    getUint32 40 true (blob_bytes blob) = Resolved (N mod 2 ^ 32).
Proof.
  intros N. unfold wav_blob. rewrite wav_header_bytes. fold N.
  eexists. split; [reflexivity|]. cbn [blob_bytes]. split.
  - rewrite <- app_assoc. apply (get_uint_stored 4 [82; 73; 70; 70]).
  - rewrite !app_assoc. rewrite <- (app_assoc _ _ bytes).
    match goal with
    | |- getUint32 40 true (?pre ++ _ ++ _) = _ =>
        apply (get_uint_stored 4 pre)
    end.
Qed.

Lemma fill_prefix {A} (f : nat -> A) (init : list A) (k : nat) :
  (k <= length init)%nat ->
  foldl (fun b i => <[i := f i]> b) init (seq 0 k)
  = (f <$> seq 0 k) ++ drop k init.
Proof.
  induction k as [|k IH]; intros Hk; [reflexivity|].
  rewrite seq_S, foldl_app, fmap_app. cbn [foldl fmap list_fmap Nat.add].
  rewrite IH by lia.
  destruct (lookup_lt_is_Some_2 init k ltac:(lia)) as [x Hx].
  rewrite (drop_S _ _ _ Hx).
  rewrite insert_app_r_alt by (rewrite length_fmap, length_seq; lia).
  rewrite length_fmap, length_seq, Nat.sub_diag. cbn [list_insert insert].
  now rewrite <- app_assoc.
Qed.

Lemma get_list_ascii (s : string) (i : nat) :
  String.get i s = list_ascii_of_string s !! i.
Proof.
  revert i. induction s as [|c s IH]; intros [|i]; cbn; auto.
Qed.

Lemma length_list_ascii (s : string) :
  length (list_ascii_of_string s) = String.length s.
Proof. induction s; cbn; auto. Qed.

(** What the bound of the container keeps out: with a payload of
    [2^32 - 36] bytes the chunk size field would read 0, not
    [36 + N = 2^32].  No payload of [generateAudio] is that long: its
    bytes are the characters of the string [atob] returned (lines 68-72),
    and no engine holds a string of that length. *)
Lemma wav_chunk_size_wraps :
  let bytes := replicate (Z.to_nat (2 ^ 32 - 36)) 0 in
  let N := Z.of_nat (length bytes) in
  exists blob,
    wav_blob bytes = Resolved blob /\
    N = 2 ^ 32 - 36 /\
    getUint32 4 true (blob_bytes blob) = Resolved 0 /\
    getUint32 4 true (blob_bytes blob) <> Resolved (36 + N).
Proof.
  intros bytes N.
  assert (HN : N = 2 ^ 32 - 36).
  { unfold N, bytes. rewrite length_replicate. apply Z2Nat.id. discriminate. }
  destruct (wav_size_fields bytes) as (blob & Hblob & H4 & _).
  fold N in H4. exists blob. split; [exact Hblob|]. split; [exact HN|].
  rewrite H4, HN. split; [reflexivity|]. discriminate.
Qed.

(** The loop of lines 70-73 copies the character codes. *)
Lemma Uint8Array_of_binary_codes (binaryString : string) :
  Uint8Array_of_binary binaryString
  = (fun c => Z.of_N (N_of_ascii c)) <$> list_ascii_of_string binaryString.
Proof.
  unfold Uint8Array_of_binary.
  rewrite fill_prefix by (rewrite length_replicate; lia).
  rewrite drop_ge, app_nil_r by (rewrite length_replicate; lia).
  apply list_eq. intros i.
  rewrite !list_lookup_fmap.
  destruct (decide (i < String.length binaryString)%nat) as [Hi|Hi].
  - rewrite lookup_seq_lt by lia. cbn. unfold charCodeAt.
    rewrite get_list_ascii.
    destruct (list_ascii_of_string binaryString !! i) as [c|] eqn:Hc.
    + cbn. f_equal. apply Z.mod_small.
      pose proof (N_ascii_bounded c). lia.
    + apply lookup_ge_None in Hc. rewrite length_list_ascii in Hc. lia.
  - rewrite lookup_seq_ge by lia.
    rewrite (proj2 (lookup_ge_None _ _)); [reflexivity|].
    rewrite length_list_ascii. lia.
Qed.

End Container.

(** ** The generation client *)

Section Client.
Import Gemini.

Lemma getAI_lacks (p : Platform) : lacks_key p -> getAI p = Threw missing_key.
Proof. unfold lacks_key, getAI. now intros ->. Qed.

Lemma getAI_has (p : Platform) : has_key p -> exists ai, getAI p = Resolved ai.
Proof. unfold has_key, getAI. intros ->. eauto. Qed.

Lemma has_key_send (r : Request) (p : Platform) : has_key (send r p) <-> has_key p.
Proof. reflexivity. Qed.

(** C7. With no credential configured, each of the four operations fails
    with the configuration error and leaves the platform as it was: no
    request has been sent.  The platform [p] is any state of the process,
    whatever was called before: the check is made by the call itself. *)
Theorem credential_checked_per_call (p : Platform) :
  lacks_key p ->
  (forall query reply,
      run (searchProduct query) reply p = (Threw missing_key, p)) /\
  (forall productInfo language reply,
      run (generateScript productInfo language) reply p = (Threw missing_key, p)) /\
  (forall text language reply,
      run (generateAudio text language) reply p = (Threw missing_key, p)) /\
  (forall prompt reply,
      run (generateVisual prompt) reply p = (Threw missing_key, p)).
Proof.
  intros H. pose proof (getAI_lacks p H) as E.
  unfold run, searchProduct, generateScript, generateAudio, generateVisual.
  rewrite E. cbn. auto.
Qed.

Lemma credential_checked_per_call_witness :
  run (searchProduct "Test Widget") (Resolved (Some "Widget is great")) (Run.fresh None)
  = (Threw missing_key, Run.fresh None)
  /\ requests (Run.fresh None) = [].
Proof.
  split; [|reflexivity].
  apply (credential_checked_per_call (Run.fresh None)). reflexivity.
Defined.

(** With a credential, each operation sends exactly its request. *)
Lemma request_sent (p : Platform) :
  has_key p ->
  (forall query reply,
      requests (snd (run (searchProduct query) reply p))
      = LookupRequest query :: requests p) /\
  (forall productInfo language reply,
      requests (snd (run (generateScript productInfo language) reply p))
      = ScriptRequest productInfo language :: requests p) /\
  (forall text language reply,
      requests (snd (run (generateAudio text language) reply p))
      = SpeechRequest text language :: requests p) /\
  (forall prompt reply,
      requests (snd (run (generateVisual prompt) reply p))
      = ImageRequest prompt :: requests p).
Proof.
  intros H. destruct (getAI_has p H) as [ai E].
  unfold run, searchProduct, generateScript, generateAudio, generateVisual.
  rewrite E. cbn. repeat split; intros.
  - now destruct reply.
  - now destruct reply.
  - destruct reply as [r|e]; [|reflexivity]. cbn.
    unfold generateAudio_then.
    destruct (first_part_inlineData r); [|reflexivity].
    now destruct (wrap_pcm _).
  - destruct reply as [r|e]; [|reflexivity]. cbn.
    unfold generateVisual_then. now destruct (first_inline _).
Qed.

(** The credential is read again by every call: a call that succeeded does
    not carry over to the next one once the credential is gone. *)
Lemma credential_read_at_each_call :
  let p0 := Run.fresh (Some "key") in
  let '(r1, p1) := run (searchProduct "a") (Resolved (Some "info")) p0 in
  let '(r2, p2) := run (searchProduct "a") (Resolved (Some "info")) (setenv None p1) in
  let '(r3, p3) := run (searchProduct "a") (Resolved (Some "info")) (setenv (Some "key") p2) in
  r1 = Resolved (Some "info") /\ r2 = Threw missing_key /\ r3 = Resolved (Some "info")
  /\ requests p1 = [LookupRequest "a"] /\ requests p2 = [LookupRequest "a"]
  /\ requests p3 = [LookupRequest "a"; LookupRequest "a"].
Proof. cbn. repeat split. Qed.

(** [generateAudio] hands out an object URL for the container of the
    decoded payload of the first part. *)
Lemma generateAudio_wraps (text : string) (language : Language)
    (response : Response) (part : InlineData) (d binaryString : string)
    (p : Platform) :
  has_key p ->
  first_part_inlineData response = Some part -> data part = Some d ->
  Base64.atob (Base64.remove_whitespace d) = Resolved binaryString ->
  let bytes := (fun c => Z.of_N (N_of_ascii c)) <$> list_ascii_of_string binaryString in
  exists blob url p',
    Wav.wav_blob bytes = Resolved blob /\
    run (generateAudio text language) (Resolved response) p = (Resolved (Some url), p') /\
    objectURLs p' !! url = Some blob.
Proof.
  intros Hkey Hpart Hd Hatob bytes.
  destruct (wav_size_fields bytes) as (blob & Hblob & _).
  exists blob. eexists _, _. split; [exact Hblob|].
  unfold run, generateAudio, getAI. rewrite Hkey.
  unfold started, settle, answer, generateAudio_then. rewrite Hpart.
  unfold wrap_pcm, data_of, mbind, outcome_bind, Js.bind.
  rewrite Hd, Hatob, Uint8Array_of_binary_codes. fold bytes. rewrite Hblob.
  unfold createObjectURL. split; [reflexivity|]. apply lookup_insert_eq.
Qed.

(** C6 (as the code has it). [generateScript] fails when no credential is
    configured, when the backend call fails and when the returned text is
    not JSON; every text that is JSON is returned as parsed, whatever
    fields it has. *)
Theorem generateScript_returns_parsed (productInfo : string)
    (language : Language) (reply : Reply JsonText) (p : Platform) :
  fst (run (generateScript productInfo language) reply p)
  = if truthy_str (GEMINI_API_KEY p)
    then match reply with
         | Threw e => Threw e
         | Resolved NotJSON => Threw syntax_error
         | Resolved (JSON v) => Resolved v
         end
    else Threw missing_key.
Proof.
  unfold run, generateScript, getAI.
  destruct (truthy_str (GEMINI_API_KEY p)); [|reflexivity].
  destruct reply as [[|v]|e]; reflexivity.
Qed.

(** A JSON object without [cta] is returned as the script. *)
Lemma generateScript_accepts_missing_field :
  let payload := JObject [("hook", JString "Amazing!"); ("body", JString "It works.")] in
  get payload "cta" = None /\
  fst (run (generateScript "Widget is great" English) (Resolved (JSON payload))
           (Run.fresh (Some "key")))
  = Resolved payload.
Proof. split; reflexivity. Qed.

End Client.

(** ** The transitions of the pipeline *)

Section Transitions.
Import Gemini App.

Lemma or_str_nonempty (a : option string) (b : string) :
  b <> "" -> or_str a b <> "".
Proof.
  intros Hb. destruct a as [a|]; cbn; [|exact Hb].
  destruct (String.eqb a "") eqn:E; [exact Hb|].
  now apply String.eqb_neq.
Qed.

(** Rendering does not touch the credential. *)
Lemma key_revoke_if_blob (u : option string) (p : Platform) :
  GEMINI_API_KEY (revoke_if_blob u p) = GEMINI_API_KEY p.
Proof.
  destruct u as [u|]; cbn; [|reflexivity].
  now destruct (String.prefix "blob:" u).
Qed.

Lemma key_commit (old new : State) (p : Platform) :
  GEMINI_API_KEY (commit old new p) = GEMINI_API_KEY p.
Proof.
  unfold commit, cleanup_urls.
  destruct (urls_changed old new), (persisted_changed old new),
    (connected_changed old new); cbn; now rewrite ?key_revoke_if_blob.
Qed.

(** The message recorded by the [catch] is never empty. *)
Ltac recorded_message :=
  eexists; split; [reflexivity|];
  first [ discriminate
        | apply or_str_nonempty; discriminate
        | match goal with
          | |- (if String.eqb ?m "" then _ else _) <> _ =>
              let E := fresh in
              destruct (String.eqb m "") eqn:E;
              [discriminate | now apply String.eqb_neq]
          end ].

Lemma handleSearch_catch_cells (e : JsError) (s : State) :
  let s' := handleSearch_catch e s in
  step s' = step s /\ script s' = script s /\ productInfo s' = productInfo s /\
  loading s' = false /\ (exists msg, error s' = Some msg /\ msg <> "").
Proof.
  cbn. repeat split. recorded_message.
Qed.

(** C4. A search-to-script transition, started with a non-empty query, in
    which the lookup fails (it throws or yields no usable text) or the
    script generation fails (it throws or yields nothing usable) aborts:
    stage and script are as before, a non-empty error message is recorded
    and the transition is no longer loading; the product information is
    the looked-up text when the lookup succeeded, and as before otherwise.
    Started at stage search, where no script is held, it ends at stage
    search with the script still null. *)
Theorem search_aborts (lookup : Reply (option string)) (scripted : Reply JsonText)
    (s : State) (p : Platform) :
  query s <> "" ->
  let info := usable_info (fst (run (searchProduct (query s)) lookup p)) in
  let generated :=
    info ≫= fun i =>
      usable_script (fst (run (generateScript i (language s)) scripted p)) in
  generated = None ->
  let s' := fst (search_transition lookup scripted s p) in
  step s' = step s /\
  script s' = script s /\
  (exists msg, error s' = Some msg /\ msg <> "") /\
  loading s' = false /\
  productInfo s' = default (productInfo s) info /\
  (step s = Step.search -> script s = None ->
   step s' = Step.search /\ script s' = None).
Proof.
  intros Hq info generated Hfail s'.
  assert (H : step s' = step s /\ script s' = script s /\
              (exists msg, error s' = Some msg /\ msg <> "") /\
              loading s' = false /\
              productInfo s' = default (productInfo s) info).
  { subst info generated s'. revert Hfail.
    unfold search_transition, rendered, handleSearch, run.
    apply String.eqb_neq in Hq. cbn [truthy_str]. rewrite Hq. cbn [negb].
    unfold searchProduct, getAI.
    destruct (truthy_str (GEMINI_API_KEY p)) eqn:Hkey; cbn.
    2:{ intros _. repeat split. recorded_message. }
    unfold handleSearch_lookup. cbn.
    destruct lookup as [[info|]|e]; cbn.
    - destruct (String.eqb info "") eqn:Hinfo; cbn.
      + intros _. repeat split. recorded_message.
      + unfold generateScript, getAI. rewrite key_commit. cbn. rewrite Hkey. cbn.
        unfold handleSearch_script. cbn.
        destruct scripted as [[|v]|e]; cbn.
        * intros _. repeat split. recorded_message.
        * destruct (truthy v); cbn; [discriminate|].
          intros _. repeat split. recorded_message.
        * intros _. repeat split. recorded_message.
    - intros _. repeat split. recorded_message.
    - intros _. repeat split. recorded_message. }
  destruct H as (H1 & H2 & H3 & H4 & H5).
  split; [exact H1|]. split; [exact H2|]. split; [exact H3|].
  split; [exact H4|]. split; [exact H5|].
  intros Hs Hn. now rewrite H1, H2.
Qed.

Lemma search_aborts_witness :
  let s := setQuery "Test Widget" (initial (Run.fresh (Some "key"))) in
  let s' := fst (search_transition (Resolved (Some "Widget is great"))
                   (Resolved NotJSON) s (Run.fresh (Some "key"))) in
  step s' = Step.search /\ script s' = None /\
  productInfo s' = "Widget is great" /\
  error s' = Some (message syntax_error).
Proof.
  intros s s'.
  assert (Hq : query s <> "") by discriminate.
  destruct (search_aborts (Resolved (Some "Widget is great")) (Resolved NotJSON)
              s (Run.fresh (Some "key")) Hq eq_refl)
    as (_ & _ & _ & _ & H5 & H6).
  destruct (H6 eq_refl eq_refl) as [H1 H3].
  split; [exact H1|]. split; [exact H3|]. split; [exact H5|reflexivity].
Defined.

(** The end-to-end scenario of the specification, first half. *)
Lemma search_succeeds :
  let sc := JObject [("hook", JString "Amazing!"); ("body", JString "It works.");
                     ("cta", JString "Buy now!")] in
  let s := setQuery "Test Widget" (initial (Run.fresh (Some "key"))) in
  let s' := fst (search_transition (Resolved (Some "Widget is great"))
                   (Resolved (JSON sc)) s (Run.fresh (Some "key"))) in
  step s' = Step.script /\ script s' = Some sc /\
  productInfo s' = "Widget is great" /\ error s' = None /\ loading s' = false.
Proof. cbn. repeat split. Qed.

(** What [generateAudio] resolves to does not depend on the platform but
    for the name of the object URL. *)
Lemma generateAudio_then_outcome (response : Response) (p : Platform) :
  fst (generateAudio_then response p)
  = match first_part_inlineData response with
    | None => Resolved None
    | Some part =>
        match wrap_pcm part with
        | Resolved _ => Resolved (Some ("blob:" +:+ pretty (minted p)))
        | Threw e => Threw e
        end
    end.
Proof.
  unfold generateAudio_then.
  destruct (first_part_inlineData response); [|reflexivity].
  now destruct (wrap_pcm _).
Qed.

Lemma getAI_key (p q : Platform) :
  GEMINI_API_KEY p = GEMINI_API_KEY q -> getAI p = getAI q.
Proof. unfold getAI. now intros ->. Qed.

Lemma minted_revoke_if_blob (u : option string) (p : Platform) :
  minted (revoke_if_blob u p) = minted p.
Proof.
  destruct u as [u|]; cbn; [|reflexivity].
  now destruct (String.prefix "blob:" u).
Qed.

Lemma minted_commit (old new : State) (p : Platform) :
  minted (commit old new p) = minted p.
Proof.
  unfold commit, cleanup_urls.
  destruct (urls_changed old new), (persisted_changed old new),
    (connected_changed old new); cbn; now rewrite ?minted_revoke_if_blob.
Qed.

(** What [Promise.all] settles to once both promises have. *)
Lemma Promise_all_settled (oa ov : Outcome (option string)) :
  Promise_all (Settled oa) (Settled ov)
  = Some match oa, ov with
         | Threw e, _ => Threw e
         | Resolved _, Threw e => Threw e
         | Resolved a, Resolved v => Resolved (a, v)
         end.
Proof. now destruct oa, ov. Qed.

(** The cells after an asset generation, in terms of what the two
    generators settle to; the order of the answers does not matter. *)
Lemma assets_transition_cells (speech image : Reply Response) (s : State)
    (p : Platform) (sc : JsValue) :
  has_key p -> script s = Some sc -> truthy sc = true ->
  let oa := fst (run (generateAudio (fullText sc) (language s)) speech p) in
  let ov := fst (run (generateVisual (query s)) image p) in
  let s' := match oa, ov with
            | Resolved a, Resolved v =>
                handleGenerateAssets_settled (Resolved (a, v)) (setLoading true s)
            | _, _ => setLoading false (setLoading true s)
            end in
  fst (assets_transition speech image s p) = s' /\
  fst (assets_transition' speech image s p) = s'.
Proof.
  intros Hkey Hsc Htruthy. unfold has_key in Hkey.
  unfold run, assets_transition, assets_transition', rendered,
    handleGenerateAssets, generateAudio, generateVisual, getAI.
  rewrite Hsc, Htruthy, Hkey. cbn. rewrite Hkey. cbn.
  unfold handleGenerateAssets_audio, handleGenerateAssets_visual, settle,
    answer, generateAudio_then, generateVisual_then, createObjectURL.
  destruct speech as [r|e], image as [r'|e'];
    repeat (cbn; rewrite ?minted_commit;
            match goal with
            | H : ?x = _ |- context [?x] => rewrite H
            | |- context [first_part_inlineData ?r] =>
                destruct (first_part_inlineData r) eqn:?
            | |- context [wrap_pcm ?x] => destruct (wrap_pcm x) eqn:?
            | |- context [first_inline ?x] => destruct (first_inline x) eqn:?
            end);
    cbn; rewrite ?minted_commit; split; reflexivity.
Qed.

(** An asset generation in which a generator throws leaves the stage and
    both artifact cells as they were. *)
Lemma assets_abort_frame (speech image : Reply Response) (s : State)
    (p : Platform) (sc : JsValue) :
  has_key p -> script s = Some sc -> truthy sc = true ->
  let oa := fst (run (generateAudio (fullText sc) (language s)) speech p) in
  let ov := fst (run (generateVisual (query s)) image p) in
  is_threw oa || is_threw ov = true ->
  forall s',
    s' = fst (assets_transition speech image s p) \/
    s' = fst (assets_transition' speech image s p) ->
    step s' = step s /\ audioUrl s' = audioUrl s /\ imageUrl s' = imageUrl s /\
    script s' = script s /\ error s' = error s /\ loading s' = false.
Proof.
  intros Hkey Hsc Htruthy oa ov Hthrew s' Hs'.
  destruct (assets_transition_cells speech image s p sc Hkey Hsc Htruthy)
    as [E1 E2].
  fold oa ov in E1, E2.
  assert (E : s' = setLoading false (setLoading true s)).
  { destruct Hs' as [-> | ->]; [rewrite E1 | rewrite E2];
      destruct oa, ov; cbn in Hthrew; try discriminate; reflexivity. }
  subst s'. cbn. repeat split.
Qed.

(** C2. A script-to-preview transition in which exactly one of the two
    generators throws while the other resolves changes neither the stage
    nor an artifact cell, whichever request is answered first: what the
    generator that resolved produced is not kept.  Started at stage script,
    where no artifact is held, it ends at stage script with neither
    artifact set. *)
Theorem assets_abort (speech image : Reply Response) (s : State)
    (p : Platform) (sc : JsValue) :
  has_key p -> script s = Some sc -> truthy sc = true ->
  let oa := fst (run (generateAudio (fullText sc) (language s)) speech p) in
  let ov := fst (run (generateVisual (query s)) image p) in
  xorb (is_threw oa) (is_threw ov) = true ->
  forall s',
    s' = fst (assets_transition speech image s p) \/
    s' = fst (assets_transition' speech image s p) ->
    (step s' = step s /\ audioUrl s' = audioUrl s /\ imageUrl s' = imageUrl s /\
     loading s' = false) /\
    (step s = Step.script -> audioUrl s = None -> imageUrl s = None ->
     step s' = Step.script /\ audioUrl s' = None /\ imageUrl s' = None).
Proof.
  intros Hkey Hsc Htruthy oa ov Hone s' Hs'.
  destruct (assets_abort_frame speech image s p sc Hkey Hsc Htruthy) with (s' := s')
    as (E1 & E2 & E3 & _ & _ & E4); [|exact Hs'|].
  - fold oa ov. destruct (is_threw oa), (is_threw ov); cbn in *; congruence.
  - split; [repeat split; assumption|].
    intros Hstep Ha Hi. rewrite E1, E2, E3, Hstep, Ha, Hi. repeat split.
Qed.

(** C10. When the backend answers the speech request without an inline
    audio payload, [generateAudio] resolves to nothing, and if the image
    generation resolves as well the transition is not aborted: the stage
    becomes preview, the audio artifact is left unset and the image cell
    holds what [generateVisual] resolved to (possibly nothing too). *)
Theorem assets_advance_without_audio (speech : Response) (image : Reply Response)
    (s : State) (p : Platform) (sc : JsValue) :
  has_key p -> script s = Some sc -> truthy sc = true ->
  first_part_inlineData speech = None ->
  let oa := fst (run (generateAudio (fullText sc) (language s)) (Resolved speech) p) in
  let ov := fst (run (generateVisual (query s)) image p) in
  is_resolved ov = true ->
  oa = Resolved None /\
  forall s',
    s' = fst (assets_transition (Resolved speech) image s p) \/
    s' = fst (assets_transition' (Resolved speech) image s p) ->
    step s' = Step.preview /\ audioUrl s' = None /\
    ov = Resolved (imageUrl s') /\ loading s' = false.
Proof.
  intros Hkey Hsc Htruthy Hnone oa ov Hv.
  assert (Ea : oa = Resolved None).
  { subst oa. unfold run, generateAudio, getAI. rewrite Hkey. cbn.
    unfold generateAudio_then. now rewrite Hnone. }
  split; [exact Ea|]. intros s' Hs'.
  destruct (assets_transition_cells (Resolved speech) image s p sc Hkey Hsc Htruthy)
    as [E1 E2].
  fold oa ov in E1, E2. rewrite Ea in E1, E2.
  destruct ov as [v|e]; [|discriminate].
  destruct Hs' as [-> | ->]; [rewrite E1 | rewrite E2]; cbn; repeat split.
Qed.

Lemma assets_abort_witness :
  let s' := fst (assets_transition (Resolved (Sample.inline_response Sample.pcm48))
                   (Threw Sample.network_error) Sample.at_script Sample.browser) in
  step s' = Step.script /\ audioUrl s' = None /\ imageUrl s' = None /\
  loading s' = false.
Proof.
  intros s'.
  destruct (assets_abort (Resolved (Sample.inline_response Sample.pcm48))
              (Threw Sample.network_error) Sample.at_script Sample.browser
              Sample.widget_script eq_refl eq_refl eq_refl eq_refl s')
    as [(_ & _ & _ & H4) H]; [left; reflexivity|].
  destruct (H eq_refl eq_refl eq_refl) as (H1 & H2 & H3).
  split; [exact H1|]. split; [exact H2|]. split; [exact H3|exact H4].
Defined.

Lemma assets_advance_without_audio_witness :
  let s' := fst (assets_transition (Resolved Sample.empty_response)
                   (Resolved (Sample.inline_response "iVBORw0KGgo="))
                   Sample.at_script Sample.browser) in
  step s' = Step.preview /\ audioUrl s' = None /\
  imageUrl s' = Some "data:image/png;base64,iVBORw0KGgo=".
Proof.
  intros s'.
  destruct (assets_advance_without_audio Sample.empty_response
              (Resolved (Sample.inline_response "iVBORw0KGgo="))
              Sample.at_script Sample.browser Sample.widget_script)
    as [_ H]; try reflexivity.
  destruct (H s') as (H1 & H2 & _); [left; reflexivity|].
  split; [exact H1|]. split; [exact H2|reflexivity].
Defined.

(** The end-to-end scenario, second half: 48 bytes of PCM give a container
    of 92 bytes behind the audio cell, and the stage is preview with both
    artifacts. *)
Lemma assets_succeed :
  let '(s', p') :=
    assets_transition (Resolved (Sample.inline_response Sample.pcm48))
      (Resolved (Sample.inline_response "iVBORw0KGgo="))
      Sample.at_script Sample.browser in
  step s' = Step.preview /\
  imageUrl s' = Some "data:image/png;base64,iVBORw0KGgo=" /\
  exists url blob,
    audioUrl s' = Some url /\ objectURLs p' !! url = Some blob /\
    length (Wav.blob_bytes blob) = 92%nat.
Proof.
  vm_compute. repeat split. eexists _, _. repeat split.
Qed.

End Transitions.

(** ** The reset, the authorization message and the bundle *)

Section Reset.
Import Gemini App Run.

Lemma objectURLs_revoke_gone (x : option string) (u : string) (p : Platform) :
  x = Some u -> String.prefix "blob:" u = true ->
  objectURLs (revoke_if_blob x p) !! u = None.
Proof.
  intros -> Hu. cbn. rewrite Hu. cbn. apply lookup_delete_eq.
Qed.

Lemma objectURLs_revoke_keeps_gone (x : option string) (u : string) (p : Platform) :
  objectURLs p !! u = None -> objectURLs (revoke_if_blob x p) !! u = None.
Proof.
  intros H. destruct x as [v|]; cbn; [|exact H].
  destruct (String.prefix "blob:" v); cbn; [|exact H].
  rewrite lookup_delete. now case_decide.
Qed.

Lemma stored_revoke_if_blob (u : option string) (p : Platform) :
  shorts_ai_state (revoke_if_blob u p) = shorts_ai_state p.
Proof.
  destruct u as [u|]; cbn; [|reflexivity].
  now destruct (String.prefix "blob:" u).
Qed.

(** A render only revokes object URLs. *)
Lemma objectURLs_commit (old new : State) (p : Platform) :
  objectURLs (commit old new p)
  = objectURLs (if urls_changed old new then cleanup_urls old p else p).
Proof.
  unfold commit.
  destruct (urls_changed old new), (persisted_changed old new),
    (connected_changed old new); reflexivity.
Qed.

(** C5 (as the code has it). From any cells, [clearState] removes the
    stored snapshot and returns query, stage, productInfo, script and both
    artifact cells to their initial values; the render that follows revokes
    the object URLs the artifact cells held and, when a persisted cell
    changed, stores the snapshot of the initial values.  The language, the
    last error, the loading flag and the connection flag keep their
    values. *)
Theorem clearState_resets (s : State) (p : Platform) :
  let '(s', p') := clearState s p in
  shorts_ai_state p' = None /\
  query s' = "" /\ step s' = Step.search /\ productInfo s' = "" /\
  script s' = None /\ audioUrl s' = None /\ imageUrl s' = None /\
  language s' = language s /\ error s' = error s /\
  loading s' = loading s /\ isYoutubeConnected s' = isYoutubeConnected s /\
  fst (reset s p) = s' /\
  (forall u, audioUrl s = Some u \/ imageUrl s = Some u ->
             String.prefix "blob:" u = true ->
             objectURLs (snd (reset s p)) !! u = None) /\
  shorts_ai_state (snd (reset s p))
  = if persisted_changed s s' then Some (Stored (snapshot s')) else None.
Proof.
  cbn. repeat split.
  - intros u Hu Hblob. unfold reset, clearState. cbn.
    assert (Hch : urls_changed s
                    (setImageUrl None (setAudioUrl None (setScript None
                       (setProductInfo "" (setStep Step.search (setQuery "" s))))))
                  = true).
    { unfold urls_changed. cbn.
      destruct Hu as [-> | ->]; cbn; [reflexivity|].
      now destruct (audioUrl s). }
    rewrite objectURLs_commit, Hch. unfold cleanup_urls.
    destruct Hu as [Hu | Hu];
      [apply objectURLs_revoke_keeps_gone; now apply objectURLs_revoke_gone
      |now apply objectURLs_revoke_gone].
  - unfold reset, clearState, commit. cbn.
    match goal with
    | |- context [urls_changed ?a ?b] => destruct (urls_changed a b)
    end;
      match goal with
      | |- context [persisted_changed ?a ?b] => destruct (persisted_changed a b)
      end;
      match goal with
      | |- context [connected_changed ?a ?b] => destruct (connected_changed a b)
      end; cbn; try reflexivity;
      unfold cleanup_urls; now rewrite !stored_revoke_if_blob.
Qed.

(** A run that ends with a reset and keeps the language and the error: the
    language is chosen, a search finds nothing, the authorization message
    moves the page to preview, and "Discard & Start New" is clicked. *)
Lemma reset_keeps_language_and_error :
  exists sys,
    run [ChooseLanguage Hindi; TypeQuery "Test Widget"; PressEnter;
         LookupAnswer 0 (Resolved None);
         Message (Some "YOUTUBE_AUTH_SUCCESS"); ClickStartOver]
        (boot Sample.browser) = Some sys /\
    step (cells sys) = Step.search /\
    language (cells sys) = Hindi /\
    language (initial Sample.browser) = English /\
    error (cells sys)
    = Some "Could not find product information. Please try a different search term." /\
    error (initial Sample.browser) = None.
Proof.
  eexists. split; [vm_compute; reflexivity|]. repeat split.
Qed.

Lemma listeners_revoke_if_blob (u : option string) (p : Platform) :
  message_listeners (revoke_if_blob u p) = message_listeners p.
Proof.
  destruct u as [u|]; cbn; [|reflexivity].
  now destruct (String.prefix "blob:" u).
Qed.

Lemma listeners_commit (old new : State) (p : Platform) :
  message_listeners (commit old new p) = message_listeners p.
Proof.
  unfold commit, cleanup_urls.
  destruct (urls_changed old new), (persisted_changed old new),
    (connected_changed old new); cbn; now rewrite ?listeners_revoke_if_blob.
Qed.

(** C8 (as the code has it, the stage left aside). While the page listens,
    every message of type YOUTUBE_AUTH_SUCCESS sets the connection flag;
    the listener stays registered after the delivery, the waiting handlers
    and the other cells but the stage are untouched, and a message of
    another type changes no cell. *)
Theorem auth_message_connects (sys : System) :
  (0 < message_listeners (platform sys))%nat ->
  (exists sys',
      react (Message (Some "YOUTUBE_AUTH_SUCCESS")) sys = Some sys' /\
      isYoutubeConnected (cells sys') = true /\
      message_listeners (platform sys') = message_listeners (platform sys) /\
      tasks sys' = tasks sys /\
      query (cells sys') = query (cells sys) /\
      productInfo (cells sys') = productInfo (cells sys) /\
      script (cells sys') = script (cells sys) /\
      audioUrl (cells sys') = audioUrl (cells sys) /\
      imageUrl (cells sys') = imageUrl (cells sys) /\
      error (cells sys') = error (cells sys)) /\
  (forall type, type <> Some "YOUTUBE_AUTH_SUCCESS" ->
      exists sys',
        react (Message type) sys = Some sys' /\ cells sys' = cells sys /\
        message_listeners (platform sys') = message_listeners (platform sys)).
Proof.
  intros H. apply Nat.ltb_lt in H. split.
  - eexists. unfold react. rewrite H. split; [reflexivity|].
    cbn. rewrite listeners_commit. repeat split.
  - intros type Htype. eexists. unfold react. rewrite H.
    split; [reflexivity|]. unfold handleMessage.
    rewrite bool_decide_eq_false_2 by exact Htype.
    cbn. rewrite listeners_commit. split; reflexivity.
Qed.

Lemma auth_message_connects_witness :
  exists sys',
    react (Message (Some "YOUTUBE_AUTH_SUCCESS")) (boot Sample.browser) = Some sys' /\
    isYoutubeConnected (cells sys') = true /\
    message_listeners (platform sys') = 1%nat.
Proof.
  destruct (auth_message_connects (boot Sample.browser)) as [(sys' & H1 & H2 & H3 & _) _].
  - vm_compute. reflexivity.
  - exists sys'. split; [exact H1|]. split; [exact H2|]. rewrite H3. reflexivity.
Defined.

(** The message moves a run at stage search to preview, and the listener
    answers a second delivery as it did the first. *)
Lemma auth_message_moves_search_to_preview :
  step (cells (boot Sample.browser)) = Step.search /\
  (exists sys1,
      run [Message (Some "YOUTUBE_AUTH_SUCCESS")] (boot Sample.browser) = Some sys1 /\
      step (cells sys1) = Step.preview /\
      message_listeners (platform sys1) = 1%nat) /\
  (exists sys2,
      run [Message (Some "YOUTUBE_AUTH_SUCCESS"); ClickStartOver;
           Message (Some "YOUTUBE_AUTH_SUCCESS")] (boot Sample.browser) = Some sys2 /\
      step (cells sys2) = Step.preview /\
      message_listeners (platform sys2) = 1%nat).
Proof.
  split; [reflexivity|]. split.
  - eexists. split; [vm_compute; reflexivity|]. split; reflexivity.
  - eexists. split; [vm_compute; reflexivity|]. split; reflexivity.
Qed.

End Reset.

Section Bundle.
Import Gemini App.



End Bundle.

(** ** The stage invariant *)

Section Invariant.
Import Gemini App Run.

(** C3 (a run that breaks it). Enter is pressed twice in the search box, so
    that two searches wait for the backend; the first one completes and the
    assets are generated from it, which leads to preview with both
    artifacts; then the second search completes and sets the stage to
    script, with both artifacts still held. *)
Theorem stage_invariant_broken_by_overlap :
  exists sys,
    run [TypeQuery "Test Widget"; PressEnter; PressEnter;
         LookupAnswer 0 (Resolved (Some "Widget is great"));
         ScriptAnswer 0 (Resolved (JSON Sample.widget_script));
         ClickGenerateAssets;
         SpeechAnswer 1 (Resolved (Sample.inline_response Sample.pcm48));
         ImageAnswer 1 (Resolved (Sample.inline_response "iVBORw0KGgo="));
         LookupAnswer 0 (Resolved (Some "Widget is great"));
         ScriptAnswer 0 (Resolved (JSON Sample.widget_script))]
        (boot Sample.browser) = Some sys /\
    step (cells sys) = Step.script /\
    audioUrl (cells sys) = Some "blob:0" /\
    imageUrl (cells sys) = Some "data:image/png;base64,iVBORw0KGgo=" /\
    ~ stage_invariant (cells sys).
Proof.
  eexists. split; [vm_compute; reflexivity|]. cbn.
  repeat split. intros [_ H].
  destruct H as [H|H]; discriminate.
Qed.

(** *** Counting tasks *)

Lemma count_tasks_app (f : Task -> bool) (l1 l2 : list Task) :
  count_tasks f (l1 ++ l2) = (count_tasks f l1 + count_tasks f l2)%nat.
Proof. induction l1 as [|t l1 IH]; cbn; [reflexivity|]. rewrite IH. lia. Qed.

Lemma count_tasks_insert (f : Task -> bool) (l : list Task) (i : nat) (t t' : Task) :
  l !! i = Some t ->
  (count_tasks f (<[i := t']> l) + (if f t then 1 else 0)
   = count_tasks f l + (if f t' then 1 else 0))%nat.
Proof.
  revert i. induction l as [|x l IH]; intros [|i] H; try discriminate.
  - injection H as ->. cbn. destruct (f t), (f t'); lia.
  - simpl in *. specialize (IH i H). revert IH.
    destruct (f t), (f t'), (f x); lia.
Qed.

Lemma count_tasks_delete (f : Task -> bool) (l : list Task) (i : nat) (t : Task) :
  l !! i = Some t ->
  (count_tasks f (delete i l) + (if f t then 1 else 0) = count_tasks f l)%nat.
Proof.
  revert i. induction l as [|x l IH]; intros [|i] H; try discriminate.
  - injection H as ->. cbn. destruct (f t); lia.
  - simpl in *. specialize (IH i H). revert IH. destruct (f t), (f x); lia.
Qed.

Lemma search_tasks_live (l : list Task) :
  (count_tasks is_search_task l <= count_tasks live l)%nat.
Proof.
  induction l as [|t l IH]; cbn; [lia|].
  destruct t as [lang| |a v]; cbn; try destruct (Promise_all a v); lia.
Qed.

(** *** What a render stores *)

Lemma stored_commit (old new : State) (p : Platform) :
  shorts_ai_state (commit old new p)
  = if persisted_changed old new then Some (Stored (snapshot new))
    else shorts_ai_state p.
Proof.
  unfold commit, cleanup_urls.
  destruct (urls_changed old new), (persisted_changed old new),
    (connected_changed old new); cbn; now rewrite ?stored_revoke_if_blob.
Qed.

Lemma snapshot_ok (s : State) :
  (step s = Step.search -> script s = None) ->
  snap_step (snapshot s) = Step.search -> snap_script (snapshot s) = None.
Proof. intros H Hs. cbn in *. now rewrite (H Hs). Qed.

Lemma stored_ok_commit (old new : State) (p : Platform) :
  (step new = Step.search -> script new = None) ->
  stored_ok p -> stored_ok (commit old new p).
Proof.
  intros Hnew Hp snap. rewrite stored_commit.
  destruct (persisted_changed old new); [|apply Hp].
  intros [= <-]. now apply snapshot_ok.
Qed.

Lemma stored_ok_same (p q : Platform) :
  shorts_ai_state q = shorts_ai_state p -> stored_ok p -> stored_ok q.
Proof. unfold stored_ok. now intros ->. Qed.

(** *** The cases of the handlers *)

Lemma handleSearch_cases (s : State) (p : Platform) :
  let '(s', p', t) := handleSearch s p in
  step s' = step s /\ script s' = script s /\
  audioUrl s' = audioUrl s /\ imageUrl s' = imageUrl s /\
  shorts_ai_state p' = shorts_ai_state p /\
  match t with
  | Some t => is_search_task t = true /\ loading s' = true
  | None => s' = s \/ loading s' = false
  end.
Proof.
  unfold handleSearch.
  destruct (negb (truthy_str (Some (query s)))); [cbn; auto 10|].
  unfold searchProduct. destruct (getAI p); cbn; auto 10.
Qed.

Lemma handleSearch_lookup_cases (lang : Language) (reply : Reply (option string))
    (s : State) (p : Platform) :
  let '(s', p', t) := handleSearch_lookup lang reply s p in
  step s' = step s /\ script s' = script s /\
  audioUrl s' = audioUrl s /\ imageUrl s' = imageUrl s /\
  shorts_ai_state p' = shorts_ai_state p /\
  match t with
  | Some t => is_search_task t = true /\ loading s' = loading s
  | None => loading s' = false
  end.
Proof.
  unfold handleSearch_lookup, answer, searchProduct_then.
  destruct reply as [[info|]|e]; cbn; auto 10.
  destruct (String.eqb info ""); cbn; auto 10.
  unfold generateScript. destruct (getAI p); cbn; auto 10.
Qed.

Lemma handleSearch_script_cases (reply : Reply JsonText) (s : State) (p : Platform) :
  let '(s', p', t) := handleSearch_script reply s p in
  t = None /\ loading s' = false /\
  audioUrl s' = audioUrl s /\ imageUrl s' = imageUrl s /\
  shorts_ai_state p' = shorts_ai_state p /\
  (step s' = step s /\ script s' = script s \/ step s' = Step.script).
Proof.
  unfold handleSearch_script, answer, generateScript_then.
  destruct reply as [[|v]|e]; cbn; auto 10.
  destruct (truthy v); cbn; auto 10.
Qed.

Lemma handleGenerateAssets_cases (s : State) (p : Platform) :
  let '(s', p', t) := handleGenerateAssets s p in
  step s' = step s /\ script s' = script s /\
  audioUrl s' = audioUrl s /\ imageUrl s' = imageUrl s /\
  shorts_ai_state p' = shorts_ai_state p /\
  match t with
  | Some t => is_search_task t = false /\ loading s' = live t
  | None => s' = s \/ loading s' = false
  end.
Proof.
  unfold handleGenerateAssets.
  destruct (script s) as [sc|] eqn:Hsc; [|cbn; auto 10].
  destruct (truthy sc); [|cbn; auto 10]. cbn.
  unfold generateAudio, generateVisual, getAI. cbn.
  destruct (truthy_str (GEMINI_API_KEY p)) eqn:E; cbn; rewrite ?E; cbn; auto 10.
Qed.

Lemma stored_generateAudio_then (r : Response) (p : Platform) :
  shorts_ai_state (snd (generateAudio_then r p)) = shorts_ai_state p.
Proof.
  unfold generateAudio_then.
  destruct (first_part_inlineData r); [|reflexivity].
  now destruct (wrap_pcm _).
Qed.

Lemma stored_generateVisual_then (r : Response) (p : Platform) :
  shorts_ai_state (snd (generateVisual_then r p)) = shorts_ai_state p.
Proof. unfold generateVisual_then. now destruct (first_inline _). Qed.

Lemma handleSearch_lookup_resumes (lang : Language) (reply : Reply (option string))
    (s : State) (p : Platform) :
  resume_cases (LookupTask lang) s p (handleSearch_lookup lang reply s p).
Proof.
  pose proof (handleSearch_lookup_cases lang reply s p) as H.
  unfold resume_cases.
  destruct (handleSearch_lookup lang reply s p) as [[s' p'] t].
  destruct H as (H1 & H2 & H3 & H4 & H5 & H6). split; [exact H5|].
  destruct t as [t|].
  - left. destruct H6 as [H6 H7]. cbn. rewrite H6.
    destruct t; try discriminate; auto 10.
  - right. cbn. auto 10.
Qed.

Lemma handleSearch_script_resumes (reply : Reply JsonText) (s : State) (p : Platform) :
  resume_cases ScriptTask s p (handleSearch_script reply s p).
Proof.
  pose proof (handleSearch_script_cases reply s p) as H.
  unfold resume_cases.
  destruct (handleSearch_script reply s p) as [[s' p'] t].
  destruct H as (-> & H2 & H3 & H4 & H5 & H6). split; [exact H5|].
  right. cbn. destruct H6 as [[H6 H7]|H6]; auto 12.
Qed.

Lemma handleGenerateAssets_audio_resumes (v : Slot) (reply : Reply Response)
    (s : State) (p : Platform) :
  resume_cases (AssetsTask Pending v) s p
    (handleGenerateAssets_audio Pending v reply s p).
Proof.
  unfold resume_cases, handleGenerateAssets_audio, answer.
  destruct reply as [r|e].
  - pose proof (stored_generateAudio_then r p) as Hst.
    destruct (generateAudio_then r p) as [o p']. cbn in Hst.
    split; [exact Hst|].
    destruct o as [x|e], v as [|[y|e']]; cbn; auto 12.
  - split; [reflexivity|]. destruct v as [|[y|e']]; cbn; auto 12.
Qed.

Lemma handleGenerateAssets_visual_resumes (a : Slot) (reply : Reply Response)
    (s : State) (p : Platform) :
  resume_cases (AssetsTask a Pending) s p
    (handleGenerateAssets_visual a Pending reply s p).
Proof.
  unfold resume_cases, handleGenerateAssets_visual, answer.
  destruct reply as [r|e].
  - pose proof (stored_generateVisual_then r p) as Hst.
    destruct (generateVisual_then r p) as [o p']. cbn in Hst.
    split; [exact Hst|].
    destruct o as [x|e], a as [|[y|e']]; cbn; auto 12.
  - split; [reflexivity|]. destruct a as [|[y|e']]; cbn; auto 12.
Qed.

(** *** Preservation *)

Lemma count_tasks_at (f : Task -> bool) (l : list Task) (i : nat) (t : Task) :
  l !! i = Some t -> f t = true -> count_tasks f l <> 0%nat.
Proof.
  intros H Hf. pose proof (count_tasks_delete f l i t H) as E.
  rewrite Hf in E. lia.
Qed.

(** Cells changed by the user or by a message, the tasks as they were. *)
Lemma invariant_update (sys : System) (s' : State) (p' : Platform) :
  run_invariant sys ->
  loading s' = loading (cells sys) ->
  (step s' = Step.search -> script s' = None) ->
  (step s' = Step.search \/ step s' = Step.script ->
   audioUrl s' = None /\ imageUrl s' = None) ->
  (audioUrl (cells sys) = None -> audioUrl s' = None) ->
  (imageUrl (cells sys) = None -> imageUrl s' = None) ->
  stored_ok p' ->
  run_invariant (mkSystem s' (commit (cells sys) s' p') (tasks sys)).
Proof.
  intros (J1 & J2 & J3 & J4 & J5 & J6) Hl H1 H2 Ha Hi Hp.
  unfold run_invariant. cbn [cells tasks platform]. rewrite Hl.
  split; [exact H1|]. split; [exact H2|]. split; [exact J3|].
  split; [exact J4|]. split.
  - intros H. destruct (J5 H) as [Ea Ei]. auto.
  - now apply stored_ok_commit.
Qed.

(** A handler started by the user while [loading] is unset. *)
Lemma invariant_start (sys : System) (r : State * Platform * option Task) :
  run_invariant sys ->
  loading (cells sys) = false ->
  (let '(s', p', t) := r in
   step s' = step (cells sys) /\ script s' = script (cells sys) /\
   audioUrl s' = audioUrl (cells sys) /\ imageUrl s' = imageUrl (cells sys) /\
   shorts_ai_state p' = shorts_ai_state (platform sys) /\
   match t with
   | Some t => loading s' = live t /\
               (is_search_task t = true -> step (cells sys) = Step.search)
   | None => s' = cells sys \/ loading s' = false
   end) ->
  run_invariant (start sys r).
Proof.
  intros (J1 & J2 & J3 & J4 & J5 & J6) Hl.
  destruct r as [[s' p'] t]. intros (H1 & H2 & H3 & H4 & H5 & H6).
  pose proof (J3 Hl) as J3'.
  assert (Hst : stored_ok (commit (cells sys) s' p')).
  { apply stored_ok_commit; [rewrite H1, H2; exact J1|].
    now apply (stored_ok_same (platform sys)). }
  unfold run_invariant, start, rendered. cbn [cells tasks platform].
  rewrite !count_tasks_app, J3', H1, H2, H3, H4.
  split; [exact J1|]. split; [exact J2|].
  destruct t as [t|]; simpl.
  - destruct H6 as [H6 H7]. rewrite H6.
    split; [intros ->; reflexivity|].
    split; [destruct (live t); lia|].
    split; [|exact Hst].
    intros E. destruct (is_search_task t) eqn:Es.
    + apply J2. left. now apply H7.
    + apply J5. lia.
  - split; [intros _; reflexivity|].
    split; [lia|]. split; [|exact Hst].
    intros E. apply J5. lia.
Qed.

(** A task resumed by an answer of the backend. *)
Lemma invariant_resume (sys : System) (i : nat) (old : Task)
    (r : State * Platform * option Task) :
  run_invariant sys ->
  tasks sys !! i = Some old ->
  resume_cases old (cells sys) (platform sys) r ->
  run_invariant (resume i sys r).
Proof.
  intros (J1 & J2 & J3 & J4 & J5 & J6) Hi.
  destruct r as [[s' p'] t]. intros [Hp Hcases].
  assert (Clive : (count_tasks live
                     (match t with
                      | Some t => <[i := t]> (tasks sys)
                      | None => delete i (tasks sys)
                      end)
                   + (if live old then 1 else 0)
                   = count_tasks live (tasks sys)
                     + (if from_option live false t then 1 else 0))%nat).
  { destruct t as [t|]; cbn.
    - now apply count_tasks_insert.
    - rewrite (count_tasks_delete live _ _ _ Hi). lia. }
  assert (Csearch : (count_tasks is_search_task
                     (match t with
                      | Some t => <[i := t]> (tasks sys)
                      | None => delete i (tasks sys)
                      end)
                   + (if is_search_task old then 1 else 0)
                   = count_tasks is_search_task (tasks sys)
                     + (if from_option is_search_task false t then 1 else 0))%nat).
  { destruct t as [t|]; cbn.
    - now apply count_tasks_insert.
    - rewrite (count_tasks_delete is_search_task _ _ _ Hi). lia. }
  pose proof (search_tasks_live
                (match t with
                 | Some t => <[i := t]> (tasks sys)
                 | None => delete i (tasks sys)
                 end)) as Hle.
  unfold run_invariant, resume, rendered. cbn.
  set (ts := match t with
             | Some t => <[i := t]> (tasks sys)
             | None => delete i (tasks sys)
             end) in *.
  destruct Hcases as [(H1 & H2 & H3 & H4 & H5 & H6 & H7)
                     |(H1 & H2 & H3 & H4 & Hend)].
  - rewrite H6 in Clive. rewrite H7 in Csearch.
    rewrite H1, H2, H3, H4, H5.
    assert (El : count_tasks live ts = count_tasks live (tasks sys)) by lia.
    assert (Es : count_tasks is_search_task ts
                 = count_tasks is_search_task (tasks sys)) by lia.
    rewrite El, Es.
    split; [exact J1|]. split; [exact J2|]. split; [exact J3|].
    split; [exact J4|]. split; [exact J5|].
    apply stored_ok_commit; [rewrite H1, H2; exact J1|].
    now apply (stored_ok_same (platform sys)).
  - rewrite H1, H2 in Clive.
    assert (El : count_tasks live ts = 0%nat) by lia.
    assert (Es : count_tasks is_search_task ts = 0%nat) by lia.
    rewrite El, Es.
    assert (Hvac : (0%nat <> 0%nat ->
                    audioUrl s' = None /\ imageUrl s' = None))
      by (intros E; now contradiction E).
    destruct Hend as [(E1 & E2 & E3 & E4)|[E1|(E0 & E1 & E3 & E4)]].
    + split; [rewrite E1, E2; exact J1|].
      split; [rewrite E1, E3, E4; exact J2|].
      split; [reflexivity|]. split; [lia|]. split; [exact Hvac|].
      apply stored_ok_commit; [rewrite E1, E2; exact J1|].
      now apply (stored_ok_same (platform sys)).
    + split; [rewrite E1; discriminate|].
      split; [rewrite E1; intros [?|?]; discriminate|].
      split; [reflexivity|]. split; [lia|]. split; [exact Hvac|].
      apply stored_ok_commit; [rewrite E1; discriminate|].
      now apply (stored_ok_same (platform sys)).
    + pose proof (J5 (count_tasks_at is_search_task _ _ _ Hi E0)) as [Ha Hb].
      split; [rewrite E1; discriminate|].
      split; [rewrite E3, E4; auto|].
      split; [reflexivity|]. split; [lia|]. split; [exact Hvac|].
      apply stored_ok_commit; [rewrite E1; discriminate|].
      now apply (stored_ok_same (platform sys)).
Qed.

Lemma stored_ok_unmount (s : State) (p : Platform) :
  stored_ok p -> stored_ok (unmount s p).
Proof.
  apply stored_ok_same. unfold unmount, cleanup_urls. cbn.
  now rewrite !stored_revoke_if_blob.
Qed.

(** A freshly loaded page satisfies the invariant if the stored snapshot
    does. *)
Lemma boot_invariant (p : Platform) : stored_ok p -> run_invariant (boot p).
Proof.
  intros Hp. unfold boot, mount.
  assert (Hrestore : step (restore (initial p) p) = Step.search ->
                     script (restore (initial p) p) = None).
  { unfold restore. destruct (shorts_ai_state p) as [[|snap]|] eqn:E; cbn; auto.
    intros Hs. now rewrite (Hp snap E Hs). }
  assert (Hurls : audioUrl (restore (initial p) p) = None /\
                  imageUrl (restore (initial p) p) = None).
  { unfold restore. destruct (shorts_ai_state p) as [[|snap]|]; cbn; auto. }
  assert (Hload : loading (restore (initial p) p) = false).
  { unfold restore. destruct (shorts_ai_state p) as [[|snap]|]; cbn; auto. }
  unfold check_success_flag.
  destruct (youtube_success p); cbn;
    (unfold run_invariant; cbn; repeat split;
     [exact Hrestore | apply Hurls | apply Hurls | lia | lia | lia
     | apply stored_ok_commit; [exact Hrestore|];
       intros snap [= <-]; reflexivity ]).
Qed.

Lemma shows_search_step (s : State) : shows_search s = true -> step s = Step.search.
Proof. unfold shows_search. destruct (step s); cbn; congruence. Qed.

(** An event that occurred: its control was shown and enabled. *)
Ltac occurred H :=
  match type of H with
  | (if ?c then _ else _) = Some _ =>
      let E := fresh "Hshown" in
      destruct c eqn:E; [|discriminate H]; injection H as <-
  end.

Lemma handleSearch_starts (sys : System) :
  step (cells sys) = Step.search ->
  let '(s', p', t) := handleSearch (cells sys) (platform sys) in
  step s' = step (cells sys) /\ script s' = script (cells sys) /\
  audioUrl s' = audioUrl (cells sys) /\ imageUrl s' = imageUrl (cells sys) /\
  shorts_ai_state p' = shorts_ai_state (platform sys) /\
  match t with
  | Some t => loading s' = live t /\
              (is_search_task t = true -> step (cells sys) = Step.search)
  | None => s' = cells sys \/ loading s' = false
  end.
Proof.
  intros Hs.
  pose proof (handleSearch_cases (cells sys) (platform sys)) as H.
  destruct (handleSearch (cells sys) (platform sys)) as [[s' p'] t].
  destruct H as (H1 & H2 & H3 & H4 & H5 & H6).
  split; [exact H1|]. split; [exact H2|]. split; [exact H3|].
  split; [exact H4|]. split; [exact H5|].
  destruct t as [t|]; [|exact H6].
  destruct H6 as [H6 H7]. split; [|intros _; exact Hs].
  rewrite H7. now destruct t.
Qed.

Lemma handleGenerateAssets_starts (sys : System) :
  let '(s', p', t) := handleGenerateAssets (cells sys) (platform sys) in
  step s' = step (cells sys) /\ script s' = script (cells sys) /\
  audioUrl s' = audioUrl (cells sys) /\ imageUrl s' = imageUrl (cells sys) /\
  shorts_ai_state p' = shorts_ai_state (platform sys) /\
  match t with
  | Some t => loading s' = live t /\
              (is_search_task t = true -> step (cells sys) = Step.search)
  | None => s' = cells sys \/ loading s' = false
  end.
Proof.
  pose proof (handleGenerateAssets_cases (cells sys) (platform sys)) as H.
  destruct (handleGenerateAssets (cells sys) (platform sys)) as [[s' p'] t].
  destruct H as (H1 & H2 & H3 & H4 & H5 & H6).
  split; [exact H1|]. split; [exact H2|]. split; [exact H3|].
  split; [exact H4|]. split; [exact H5|].
  destruct t as [t|]; [|exact H6].
  destruct H6 as [H6 H7]. split; [exact H7|]. intros E. congruence.
Qed.

(** Every orderly event preserves the invariant. *)
Lemma react_invariant (ev : Event) (sys sys' : System) :
  run_invariant sys -> orderly ev sys = true -> react ev sys = Some sys' ->
  run_invariant sys'.
Proof.
  intros Inv Hord Hre. pose proof Inv as (J1 & J2 & J3 & J4 & J5 & J6).
  destruct ev; unfold react in Hre; unfold orderly in Hord.
  - (* Reload *)
    injection Hre as <-. apply boot_invariant. now apply stored_ok_unmount.
  - (* TypeQuery *)
    occurred Hre. apply invariant_update; auto.
  - (* ChooseLanguage *)
    occurred Hre. apply invariant_update; auto.
  - (* PressEnter *)
    occurred Hre. apply shows_search_step in Hshown.
    apply invariant_start; [exact Inv| |now apply handleSearch_starts].
    now destruct (loading (cells sys)).
  - (* ClickGenerate *)
    occurred Hre. apply andb_prop in Hshown as [Hs Hl].
    apply shows_search_step in Hs.
    apply invariant_start; [exact Inv| |now apply handleSearch_starts].
    now destruct (loading (cells sys)).
  - (* ClickGenerateAssets *)
    occurred Hre. apply andb_prop in Hshown as [Hs Hl].
    apply invariant_start; [exact Inv| |apply handleGenerateAssets_starts].
    now destruct (loading (cells sys)).
  - (* ClickStartOver *)
    occurred Hre. unfold clearState.
    apply invariant_update; cbn; auto.
    intros snap H. discriminate.
  - (* LookupAnswer *)
    destruct (tasks sys !! i) as [[lang| |a v]|] eqn:Hi; try discriminate.
    injection Hre as <-.
    apply (invariant_resume sys i (LookupTask lang)); auto.
    apply handleSearch_lookup_resumes.
  - (* ScriptAnswer *)
    destruct (tasks sys !! i) as [[lang| |a v]|] eqn:Hi; try discriminate.
    injection Hre as <-.
    apply (invariant_resume sys i ScriptTask); auto.
    apply handleSearch_script_resumes.
  - (* SpeechAnswer *)
    destruct (tasks sys !! i) as [[lang| |[|o] v]|] eqn:Hi; try discriminate.
    injection Hre as <-.
    apply (invariant_resume sys i (AssetsTask Pending v)); auto.
    apply handleGenerateAssets_audio_resumes.
  - (* ImageAnswer *)
    destruct (tasks sys !! i) as [[lang| |a [|o]]|] eqn:Hi; try discriminate.
    injection Hre as <-.
    apply (invariant_resume sys i (AssetsTask a Pending)); auto.
    apply handleGenerateAssets_visual_resumes.
  - (* Message *)
    destruct (0 <? message_listeners (platform sys))%nat;
      injection Hre as <-; [|exact Inv].
    unfold update, handleMessage.
    destruct (bool_decide (type = Some "YOUTUBE_AUTH_SUCCESS")).
    + apply invariant_update; cbn; auto; try discriminate.
      intros [?|?]; discriminate.
    + apply invariant_update; auto.
Qed.

Lemma orderly_run_invariant (sys0 sys : System) :
  run_invariant sys0 -> orderly_run sys0 sys -> run_invariant sys.
Proof.
  intros H0 Hrun. induction Hrun as [|ev sys sys' _ IH Hord Hre]; [exact H0|].
  now apply (react_invariant ev sys sys').
Qed.

(** Among the runs of [Run], in which the user acts on the view of the
    current stage, the stage invariant holds at every state of those in
    which Enter is not pressed while [loading] is set, from a page loaded
    over a stored snapshot that respects it (or over none).  Of the page
    in the browser this is not enough: see the calm runs of [Page]. *)
Theorem stage_invariant_orderly (p0 : Platform) (sys : System) :
  stored_ok p0 -> orderly_run (boot p0) sys -> stage_invariant (cells sys).
Proof.
  intros Hp Hrun.
  destruct (orderly_run_invariant (boot p0) sys (boot_invariant p0 Hp) Hrun)
    as (J1 & J2 & _).
  split; [exact J1|]. intros Ha Hi.
  destruct (step (cells sys)) eqn:E; auto;
    destruct J2 as [Ha' _]; auto; contradiction.
Qed.

Lemma fresh_stored_ok (key : option string) : stored_ok (fresh key).
Proof. intros snap H. discriminate. Qed.

Lemma orderly_run_first (ev : Event) (sys0 sys1 sys : System) :
  orderly ev sys0 = true -> react ev sys0 = Some sys1 ->
  orderly_run sys1 sys -> orderly_run sys0 sys.
Proof.
  intros Hord Hre Hrun.
  induction Hrun as [|ev' sys sys' _ IH Hord' Hre'].
  - apply (orderly_step sys0 ev sys0 sys1); [apply orderly_start|exact Hord|exact Hre].
  - apply (orderly_step sys0 ev' sys sys'); [exact IH|exact Hord'|exact Hre'].
Qed.

Lemma run_orderly_sound (evs : list Event) (sys0 sys : System) :
  run_orderly evs sys0 = Some sys -> orderly_run sys0 sys.
Proof.
  revert sys0. induction evs as [|ev evs IH]; intros sys0 H; cbn in H.
  - injection H as <-. apply orderly_start.
  - destruct (orderly ev sys0) eqn:Hord; [|discriminate].
    destruct (react ev sys0) as [sys1|] eqn:Hre; [|discriminate].
    apply (orderly_run_first ev sys0 sys1); auto.
Qed.

(** The end-to-end scenario of the specification is an orderly run: search,
    assets, preview with both artifacts, reset; the invariant holds where it
    ends and at the preview before the reset. *)
Lemma end_to_end_orderly :
  let scenario :=
    [TypeQuery "Test Widget"; ClickGenerate;
     LookupAnswer 0 (Resolved (Some "Widget is great"));
     ScriptAnswer 0 (Resolved (JSON Sample.widget_script));
     ClickGenerateAssets;
     ImageAnswer 0 (Resolved (Sample.inline_response "iVBORw0KGgo="));
     SpeechAnswer 0 (Resolved (Sample.inline_response Sample.pcm48))] in
  exists sys sys',
    run_orderly scenario (boot Sample.browser) = Some sys /\
    step (cells sys) = Step.preview /\
    audioUrl (cells sys) = Some "blob:0" /\
    imageUrl (cells sys) = Some "data:image/png;base64,iVBORw0KGgo=" /\
    stage_invariant (cells sys) /\
    run_orderly (scenario ++ [ClickStartOver]) (boot Sample.browser) = Some sys' /\
    step (cells sys') = Step.search /\ query (cells sys') = "" /\
    script (cells sys') = None /\
    audioUrl (cells sys') = None /\ imageUrl (cells sys') = None /\
    objectURLs (platform sys') !! "blob:0" = None.
Proof.
  intros scenario.
  destruct (run_orderly scenario (boot Sample.browser)) as [sys|] eqn:E;
    [|vm_compute in E; discriminate].
  destruct (run_orderly (scenario ++ [ClickStartOver]) (boot Sample.browser))
    as [sys'|] eqn:E'; [|vm_compute in E'; discriminate].
  exists sys, sys'.
  pose proof (stage_invariant_orderly Sample.browser sys
                (fresh_stored_ok _) (run_orderly_sound _ _ _ E)) as Hinv.
  vm_compute in E. injection E as <-.
  vm_compute in E'. injection E' as <-.
  do 4 (split; [reflexivity|]). split; [exact Hinv|]. repeat split.
Qed.

End Invariant.

(** ** The generators, response by response *)

Section Generators.
Import Gemini App.

Lemma first_inline_none (ps : list Part) :
  first_inline ps = None <-> Forall (fun q => inlineData q = None) ps.
Proof.
  induction ps as [|q ps IH]; cbn.
  - split; auto.
  - destruct (inlineData q) as [d|] eqn:E.
    + split; [discriminate|]. intros H. inversion H; congruence.
    + rewrite IH. split; [now constructor|]. intros H. now inversion H.
Qed.

Lemma first_inline_skips (pre rest : list Part) (part : Part) (d : InlineData) :
  Forall (fun q => inlineData q = None) pre -> inlineData part = Some d ->
  first_inline (pre ++ part :: rest) = Some d.
Proof.
  intros Hpre Hd. induction Hpre as [|q pre Hq _ IH]; cbn.
  - now rewrite Hd.
  - now rewrite Hq.
Qed.

(** X1. [generateVisual] sends its one request and hands out no object URL;
    it returns the data URL of the first part that carries inline data,
    whatever parts precede it, and null exactly when no part carries
    any. *)
Theorem generateVisual_first_inline (prompt : string) (response : Response)
    (p : Platform) :
  has_key p ->
  let ps := default [] (first_parts response) in
  let o := fst (run (generateVisual prompt) (Resolved response) p) in
  snd (run (generateVisual prompt) (Resolved response) p)
  = send (ImageRequest prompt) p /\
  (forall pre part rest d,
      ps = pre ++ part :: rest ->
      Forall (fun q => inlineData q = None) pre -> inlineData part = Some d ->
      o = Resolved (Some ("data:image/png;base64," +:+ default "undefined" (data d)))) /\
  (o = Resolved None <-> Forall (fun q => inlineData q = None) ps).
Proof.
  intros Hkey ps o. subst o.
  unfold run, generateVisual, getAI. rewrite Hkey. cbn.
  unfold generateVisual_then. fold ps.
  split; [now destruct (first_inline ps)|]. split.
  - intros pre part rest d -> Hpre Hd.
    now rewrite (first_inline_skips pre rest part d Hpre Hd).
  - rewrite <- first_inline_none.
    destruct (first_inline ps); cbn; split; congruence.
Qed.

Lemma generateVisual_first_inline_witness :
  fst (run (generateVisual "Test Widget")
         (Resolved (mkResponse (Some [mkCandidate (Some (mkContent (Some
            [mkPart None; mkPart (Some (mkInlineData (Some "iVBORw0KGgo=")));
             mkPart (Some (mkInlineData (Some "AAAA")))])))])))
         Sample.browser)
  = Resolved (Some "data:image/png;base64,iVBORw0KGgo=").
Proof.
  apply (proj1 (proj2 (generateVisual_first_inline "Test Widget" _ Sample.browser
                         eq_refl))
           [mkPart None] (mkPart (Some (mkInlineData (Some "iVBORw0KGgo="))))
           [mkPart (Some (mkInlineData (Some "AAAA")))]
           (mkInlineData (Some "iVBORw0KGgo=")));
    [reflexivity | repeat constructor | reflexivity].
Defined.

Lemma Uint8Array_of_binary_at (binaryString : string) :
  length (Wav.Uint8Array_of_binary binaryString) = String.length binaryString /\
  (forall i, (i < String.length binaryString)%nat ->
             Wav.Uint8Array_of_binary binaryString !! i
             = Some (Wav.charCodeAt binaryString i)).
Proof.
  rewrite Uint8Array_of_binary_codes.
  split; [now rewrite length_fmap, length_list_ascii|].
  intros i Hi. rewrite list_lookup_fmap. unfold Wav.charCodeAt.
  rewrite get_list_ascii.
  destruct (list_ascii_of_string binaryString !! i) as [c|] eqn:Hc;
    [reflexivity|].
  apply lookup_ge_None in Hc. rewrite length_list_ascii in Hc. lia.
Qed.

(** X2. The loop of lines 69-73 fills the array with one byte per character of
    the decoded string, in order: the array has the length of the string,
    holds the character code at every index, and every entry is a byte. *)
Theorem binary_string_bytes (binaryString : string) :
  let bytes := Wav.Uint8Array_of_binary binaryString in
  length bytes = String.length binaryString /\
  (forall i, (i < String.length binaryString)%nat ->
             bytes !! i = Some (Wav.charCodeAt binaryString i)) /\
  Forall (fun b => 0 <= b < 256) bytes.
Proof.
  intros bytes. subst bytes.
  destruct (Uint8Array_of_binary_at binaryString) as [Hl Hat].
  split; [exact Hl|]. split; [exact Hat|].
  rewrite Uint8Array_of_binary_codes.
  apply Forall_fmap, Forall_forall. intros c _. cbn.
  pose proof (N_ascii_bounded c). lia.
Qed.

Lemma wav_blob_resolves (bytes : list Z) :
  exists blob, Wav.wav_blob bytes = Resolved blob /\
               Wav.blob_type blob = "audio/wav" /\
               length (Wav.blob_bytes blob) = (44 + length bytes)%nat /\
               drop 44 (Wav.blob_bytes blob) = bytes.
Proof.
  unfold Wav.wav_blob. rewrite wav_header_bytes.
  eexists. split; [reflexivity|]. cbn [Wav.blob_bytes Wav.blob_type].
  split; [reflexivity|]. split; [|reflexivity].
  rewrite length_app. reflexivity.
Qed.

(** X3. When the first part carries inline data, [generateAudio] throws in
    exactly two cases: a TypeError when the inline data has no [data]
    field, and what [atob] throws when the payload is not base64; the
    writing of the header never fails.  A call that throws has sent its
    request and created no object URL. *)
Theorem generateAudio_throws (text : string) (language : Language)
    (response : Response) (part : InlineData) (p : Platform) :
  has_key p -> first_part_inlineData response = Some part ->
  let r := run (generateAudio text language) (Resolved response) p in
  (forall e, fst r = Threw e <->
      (data part = None /\ e = type_error) \/
      (exists d, data part = Some d /\
                 Base64.atob (Base64.remove_whitespace d) = Threw e)) /\
  (is_threw (fst r) = true -> snd r = send (SpeechRequest text language) p).
Proof.
  intros Hkey Hpart r. subst r.
  unfold run, generateAudio, getAI. rewrite Hkey. cbn.
  unfold generateAudio_then. rewrite Hpart.
  unfold wrap_pcm, data_of, mbind, outcome_bind, Js.bind.
  destruct (data part) as [d|].
  - destruct (Base64.atob (Base64.remove_whitespace d)) as [binaryString|e0] eqn:Ea.
    + destruct (wav_blob_resolves (Wav.Uint8Array_of_binary binaryString))
        as (blob & -> & _).
      cbn. split; [|discriminate].
      intros e. split; [discriminate|].
      intros [[H _]|(d' & [= <-] & H)]; congruence.
    + cbn. split; [|reflexivity].
      intros e. split.
      * intros [= <-]. right. now exists d.
      * intros [[H _]|(d' & [= <-] & H)]; congruence.
  - cbn. split; [|reflexivity].
    intros e. split.
    + intros [= <-]. now left.
    + intros [[_ ->]|(d' & H & _)]; [reflexivity|discriminate].
Qed.

Lemma generateAudio_throws_witness :
  fst (run (generateAudio "Amazing!" English)
         (Resolved (mkResponse (Some [mkCandidate (Some (mkContent (Some
            [mkPart (Some (mkInlineData None))])))])))
         Sample.browser)
  = Threw type_error.
Proof.
  apply (proj2 (proj1 (generateAudio_throws "Amazing!" English
                         (mkResponse (Some [mkCandidate (Some (mkContent (Some
                            [mkPart (Some (mkInlineData None))])))]))
                         (mkInlineData None) Sample.browser eq_refl eq_refl)
                  type_error)).
  left. split; reflexivity.
Defined.

(** X4. When the payload of the first part decodes, [generateAudio] returns a
    fresh [blob:] URL, the only change to the object URLs; behind it is a
    blob of type audio/wav of 44 bytes followed by one byte per character
    of the decoded string. *)
Theorem generateAudio_container (text : string) (language : Language)
    (response : Response) (part : InlineData) (d binaryString : string)
    (p : Platform) :
  has_key p ->
  first_part_inlineData response = Some part -> data part = Some d ->
  Base64.atob (Base64.remove_whitespace d) = Resolved binaryString ->
  let url := "blob:" +:+ pretty (minted p) in
  exists blob p',
    run (generateAudio text language) (Resolved response) p
    = (Resolved (Some url), p') /\
    String.prefix "blob:" url = true /\
    objectURLs p' = <[url := blob]> (objectURLs p) /\
    minted p' = S (minted p) /\
    requests p' = SpeechRequest text language :: requests p /\
    Wav.blob_type blob = "audio/wav" /\
    length (Wav.blob_bytes blob) = (44 + String.length binaryString)%nat /\
    (forall i, (i < String.length binaryString)%nat ->
               Wav.blob_bytes blob !! (44 + i)%nat
               = Some (Wav.charCodeAt binaryString i)).
Proof.
  intros Hkey Hpart Hd Hatob url.
  destruct (wav_blob_resolves (Wav.Uint8Array_of_binary binaryString))
    as (blob & Hblob & Htype & Hlen & Hdrop).
  destruct (Uint8Array_of_binary_at binaryString) as (Hl & Hat).
  exists blob. eexists. split.
  - unfold run, generateAudio, getAI. rewrite Hkey.
    unfold started, settle, answer, generateAudio_then. rewrite Hpart.
    unfold wrap_pcm, data_of, mbind, outcome_bind, Js.bind.
    rewrite Hd, Hatob, Hblob. reflexivity.
  - cbn [objectURLs minted requests send].
    split; [subst url; cbn; now destruct (pretty (minted p))|].
    split; [reflexivity|]. split; [reflexivity|].
    split; [reflexivity|]. split; [exact Htype|].
    split; [now rewrite Hlen, Hl|].
    intros i Hi. rewrite <- (Hat i Hi), <- Hdrop at 1.
    now rewrite lookup_drop.
Qed.

Lemma generateAudio_container_witness :
  exists blob p',
    run (generateAudio "Amazing!. It works.. Buy now!" English)
      (Resolved (Sample.inline_response Sample.pcm48)) Sample.browser
    = (Resolved (Some "blob:0"), p') /\
    objectURLs p' !! "blob:0" = Some blob /\
    length (Wav.blob_bytes blob) = 92%nat.
Proof.
  destruct (generateAudio_container "Amazing!. It works.. Buy now!" English
              (Sample.inline_response Sample.pcm48)
              (mkInlineData (Some Sample.pcm48)) Sample.pcm48
              (string_of_list_ascii (replicate 48 "000"%char)) Sample.browser
              eq_refl eq_refl eq_refl)
    as (blob & p' & H1 & _ & H3 & _ & _ & _ & H7 & _);
    [vm_compute; reflexivity|].
  exists blob, p'. split; [exact H1|]. split.
  - rewrite H3. apply lookup_insert_eq.
  - exact H7.
Defined.

Lemma list_ascii_app (a b : string) :
  list_ascii_of_string (a +:+ b) = list_ascii_of_string a ++ list_ascii_of_string b.
Proof. induction a as [|c a IH]; simpl; [reflexivity|]. now rewrite IH. Qed.

Lemma filter_whitespace (w : string) :
  all_whitespace w = true ->
  List.filter (fun c => negb (Base64.is_whitespace c)) (list_ascii_of_string w) = [].
Proof.
  unfold all_whitespace. induction (list_ascii_of_string w) as [|c l IH]; cbn;
    [reflexivity|].
  intros H. apply andb_prop in H as [-> H]. cbn. now apply IH.
Qed.

(** X5. Whitespace inside the payload does not change what [generateAudio]
    makes of it (line 67): a run of characters [/\s/] matches, inserted
    anywhere, is dropped before the payload is decoded. *)
Theorem payload_whitespace_ignored (a w b : string) :
  all_whitespace w = true ->
  wrap_pcm (mkInlineData (Some (a +:+ w +:+ b)))
  = wrap_pcm (mkInlineData (Some (a +:+ b))).
Proof.
  intros Hw. unfold wrap_pcm, data_of. cbn [data mbind outcome_bind Js.bind].
  assert (E : Base64.remove_whitespace (a +:+ w +:+ b)
              = Base64.remove_whitespace (a +:+ b)).
  { unfold Base64.remove_whitespace. f_equal.
    rewrite !list_ascii_app, !List.filter_app, (filter_whitespace w Hw).
    reflexivity. }
  now rewrite E.
Qed.

Lemma payload_whitespace_ignored_witness :
  wrap_pcm (mkInlineData (Some ("AAAA" +:+ newline +:+ "AAAA")))
  = wrap_pcm (mkInlineData (Some "AAAAAAAA")).
Proof.
  apply (payload_whitespace_ignored "AAAA" newline "AAAA"). reflexivity.
Defined.

End Generators.

(** ** What every run keeps *)

(** An event that occurred: its control was shown and enabled. *)
Ltac enabled H :=
  match type of H with
  | (if ?c then _ else _) = Some _ =>
      let E := fresh "Hshown" in
      destruct c eqn:E; [|discriminate H]; injection H as <-
  end.

(** An answer that was delivered to the handler [r] waiting for it. *)
Ltac answered H r :=
  let E := fresh "E" in
  assert (E : Some r = Some _) by exact H;
  apply (inj Some) in E; subst; clear H.

Section Persistence.
Import Gemini App Run Kept.

Lemma value_eqb_eq : forall a b, value_eqb a b = true -> a = b.
Proof.
  fix IH 1. intros [|x|x|x|l|l] [|y|y|y|m|m]; cbn; try discriminate.
  - reflexivity.
  - intros H. apply Bool.eqb_prop in H. now subst.
  - intros H. apply String.eqb_eq in H. now subst.
  - intros H. apply String.eqb_eq in H. now subst.
  - intros H. f_equal. revert m H.
    induction l as [|x l IHl]; intros [|y m] H; try discriminate; [reflexivity|].
    apply andb_prop in H as [H1 H2]. f_equal; [now apply IH | now apply IHl].
  - intros H. f_equal. revert m H.
    induction l as [|[k x] l IHl]; intros [|[k' y] m] H; try discriminate;
      [reflexivity|].
    apply andb_prop in H as [H1 H2]. apply andb_prop in H1 as [H0 H1].
    apply String.eqb_eq in H0. subst k'.
    f_equal; [f_equal; now apply IH | now apply IHl].
Qed.

Lemma step_eqb_eq (a b : Step.t) : step_eqb a b = true -> a = b.
Proof. destruct a, b; cbn; congruence. Qed.

(** Cells that agree on the persisted dependencies have the same
    snapshot. *)
Lemma persisted_same (old new : State) :
  persisted_changed old new = false -> snapshot old = snapshot new.
Proof.
  unfold persisted_changed. intros H. apply negb_false_iff in H.
  apply andb_prop in H as [H Hsc]. apply andb_prop in H as [H Hpi].
  apply andb_prop in H as [Hq Hst].
  apply String.eqb_eq in Hq, Hpi. apply step_eqb_eq in Hst.
  unfold snapshot. rewrite Hq, Hpi, Hst. f_equal.
  destruct (script old) as [v|], (script new) as [v'|]; cbn in Hsc;
    try discriminate; [|reflexivity].
  now rewrite (value_eqb_eq v v' Hsc).
Qed.

Lemma item_revoke_if_blob (u : option string) (p : Platform) :
  isYoutubeConnected_item (revoke_if_blob u p) = isYoutubeConnected_item p /\
  youtube_success (revoke_if_blob u p) = youtube_success p /\
  requests (revoke_if_blob u p) = requests p.
Proof.
  destruct u as [u|]; cbn; [|auto].
  now destruct (String.prefix "blob:" u).
Qed.

Lemma item_commit (old new : State) (p : Platform) :
  isYoutubeConnected_item (commit old new p)
  = if connected_changed old new
    then Some (connected_text (isYoutubeConnected new))
    else isYoutubeConnected_item p.
Proof.
  unfold commit, cleanup_urls.
  destruct (urls_changed old new), (persisted_changed old new),
    (connected_changed old new); cbn; try reflexivity;
    now rewrite !(proj1 (item_revoke_if_blob _ _)).
Qed.

Lemma success_commit (old new : State) (p : Platform) :
  youtube_success (commit old new p) = youtube_success p.
Proof.
  unfold commit, cleanup_urls.
  destruct (urls_changed old new), (persisted_changed old new),
    (connected_changed old new); cbn; try reflexivity;
    now rewrite !(proj1 (proj2 (item_revoke_if_blob _ _))).
Qed.

Lemma requests_commit (old new : State) (p : Platform) :
  requests (commit old new p) = requests p.
Proof.
  unfold commit, cleanup_urls.
  destruct (urls_changed old new), (persisted_changed old new),
    (connected_changed old new); cbn; try reflexivity;
    now rewrite !(proj2 (proj2 (item_revoke_if_blob _ _))).
Qed.

(** A render brings the stored items up to date. *)
Lemma in_sync_commit (sys : System) (s' : State) (p' : Platform) (ts : list Task) :
  in_sync sys -> same_items (platform sys) p' ->
  in_sync (mkSystem s' (commit (cells sys) s' p') ts).
Proof.
  intros (H1 & H2 & H3) (E1 & E2 & E3). unfold in_sync. cbn [cells platform].
  rewrite stored_commit, item_commit, success_commit. split; [|split].
  - destruct (persisted_changed (cells sys) s') eqn:E; [reflexivity|].
    rewrite E1, H1. now rewrite (persisted_same _ _ E).
  - destruct (connected_changed (cells sys) s') eqn:E; [reflexivity|].
    rewrite E2, H2. unfold connected_changed in E.
    apply negb_false_iff, Bool.eqb_prop in E. now rewrite E.
  - now rewrite E3.
Qed.

Lemma same_items_refl (p : Platform) : same_items p p.
Proof. repeat split. Qed.

Lemma items_generateAudio_then (r : Response) (p : Platform) :
  same_items p (snd (generateAudio_then r p)).
Proof.
  unfold generateAudio_then.
  destruct (first_part_inlineData r); [|apply same_items_refl].
  destruct (wrap_pcm _); repeat split.
Qed.

Lemma items_generateVisual_then (r : Response) (p : Platform) :
  same_items p (snd (generateVisual_then r p)).
Proof.
  unfold generateVisual_then. destruct (first_inline _); apply same_items_refl.
Qed.

Lemma items_handleSearch (s : State) (p : Platform) :
  same_items p (snd (fst (handleSearch s p))).
Proof.
  unfold handleSearch.
  destruct (negb (truthy_str (Some (query s)))); [apply same_items_refl|].
  unfold searchProduct. destruct (getAI p); repeat split.
Qed.

Lemma items_handleSearch_lookup (lang : Language) (reply : Reply (option string))
    (s : State) (p : Platform) :
  same_items p (snd (fst (handleSearch_lookup lang reply s p))).
Proof.
  unfold handleSearch_lookup, answer, searchProduct_then.
  destruct reply as [[info|]|e]; cbn; try apply same_items_refl.
  destruct (String.eqb info ""); cbn; [apply same_items_refl|].
  unfold generateScript. destruct (getAI p); repeat split.
Qed.

Lemma items_handleSearch_script (reply : Reply JsonText) (s : State) (p : Platform) :
  same_items p (snd (fst (handleSearch_script reply s p))).
Proof.
  unfold handleSearch_script, answer, generateScript_then.
  destruct reply as [[|v]|e]; cbn; try apply same_items_refl.
  destruct (truthy v); apply same_items_refl.
Qed.

Lemma items_handleGenerateAssets (s : State) (p : Platform) :
  same_items p (snd (fst (handleGenerateAssets s p))).
Proof.
  unfold handleGenerateAssets.
  destruct (script s) as [sc|]; [|apply same_items_refl].
  destruct (truthy sc); [|apply same_items_refl]. cbn.
  unfold generateAudio, generateVisual, getAI. cbn.
  destruct (truthy_str (GEMINI_API_KEY p)) eqn:E; cbn; rewrite ?E; repeat split.
Qed.

Lemma items_handleGenerateAssets_audio (a v : Slot) (reply : Reply Response)
    (s : State) (p : Platform) :
  same_items p (snd (fst (handleGenerateAssets_audio a v reply s p))).
Proof.
  unfold handleGenerateAssets_audio, answer.
  destruct a; [|apply same_items_refl].
  destruct reply as [r|e]; [|apply same_items_refl].
  pose proof (items_generateAudio_then r p) as H.
  now destruct (generateAudio_then r p).
Qed.

Lemma items_handleGenerateAssets_visual (a v : Slot) (reply : Reply Response)
    (s : State) (p : Platform) :
  same_items p (snd (fst (handleGenerateAssets_visual a v reply s p))).
Proof.
  unfold handleGenerateAssets_visual, answer.
  destruct v; [|apply same_items_refl].
  destruct reply as [r|e]; [|apply same_items_refl].
  pose proof (items_generateVisual_then r p) as H.
  now destruct (generateVisual_then r p).
Qed.

Lemma in_sync_start (sys : System) (r : State * Platform * option Task) :
  in_sync sys -> same_items (platform sys) (snd (fst r)) -> in_sync (start sys r).
Proof.
  destruct r as [[s' p'] t]. intros H E. unfold start, rendered.
  now apply in_sync_commit.
Qed.

Lemma in_sync_resume (i : nat) (sys : System) (r : State * Platform * option Task) :
  in_sync sys -> same_items (platform sys) (snd (fst r)) -> in_sync (resume i sys r).
Proof.
  destruct r as [[s' p'] t]. intros H E. unfold resume, rendered.
  now apply in_sync_commit.
Qed.

Lemma same_items_unmount (s : State) (p : Platform) : same_items p (unmount s p).
Proof.
  unfold unmount, cleanup_urls, same_items. cbn.
  rewrite !stored_revoke_if_blob, !(proj1 (item_revoke_if_blob _ _)),
    !(proj1 (proj2 (item_revoke_if_blob _ _))).
  repeat split.
Qed.

(** A page that has just loaded, and whose two writes went through, is
    in sync, whatever was stored. *)
Lemma in_sync_boot (p : Platform) : in_sync (boot p).
Proof.
  unfold boot, mount, check_success_flag.
  destruct (youtube_success p) eqn:Hy; cbn -[commit initial restore];
    match goal with
    | |- in_sync (mkSystem ?s1 (commit ?s0 ?s1 ?p4) ?ts) =>
        apply (in_sync_commit (mkSystem s0 p4 []) s1 p4 ts);
          [|apply same_items_refl]
    end; repeat split. exact Hy.
Qed.

(** In [Run], where every write goes through, every event keeps the
    stored items in sync with the cells. *)
Lemma react_in_sync (ev : Event) (sys sys' : System) :
  in_sync sys -> react ev sys = Some sys' -> in_sync sys'.
Proof.
  intros Inv Hre. destruct ev; unfold react in Hre.
  - injection Hre as <-. apply in_sync_boot.
  - enabled Hre. now apply in_sync_commit, same_items_refl.
  - enabled Hre. now apply in_sync_commit, same_items_refl.
  - enabled Hre. now apply in_sync_start, items_handleSearch.
  - enabled Hre. now apply in_sync_start, items_handleSearch.
  - enabled Hre. now apply in_sync_start, items_handleGenerateAssets.
  - enabled Hre. unfold clearState.
    destruct Inv as (H1 & H2 & H3). unfold in_sync. cbn [cells platform].
    rewrite stored_commit, item_commit, success_commit. cbn.
    split; [|split; [|exact H3]].
    + unfold persisted_changed. cbn.
      apply orb_prop in Hshown as [H|H].
      * unfold shows_script in H. apply andb_prop in H as [H _].
        apply step_eqb_eq in H. rewrite H. cbn. now rewrite andb_false_r.
      * unfold shows_preview in H. apply step_eqb_eq in H. rewrite H. cbn.
        now rewrite andb_false_r.
    + unfold connected_changed. cbn. now rewrite Bool.eqb_reflx.
  - destruct (tasks sys !! i) as [[lang| |a v]|]; try discriminate.
    injection Hre as <-. apply in_sync_resume; [exact Inv|].
    apply (items_handleSearch_lookup lang reply (cells sys) (platform sys)).
  - destruct (tasks sys !! i) as [[lang| |a v]|]; try discriminate.
    injection Hre as <-. apply in_sync_resume; [exact Inv|].
    apply (items_handleSearch_script reply (cells sys) (platform sys)).
  - destruct (tasks sys !! i) as [[lang| |[|o] v]|]; try discriminate.
    injection Hre as <-. apply in_sync_resume; [exact Inv|].
    apply (items_handleGenerateAssets_audio Pending v reply (cells sys) (platform sys)).
  - destruct (tasks sys !! i) as [[lang| |a [|o]]|]; try discriminate.
    injection Hre as <-. apply in_sync_resume; [exact Inv|].
    apply (items_handleGenerateAssets_visual a Pending reply (cells sys) (platform sys)).
  - destruct (0 <? message_listeners (platform sys))%nat;
      injection Hre as <-; [|exact Inv].
    now apply in_sync_commit, same_items_refl.
Qed.

(** A property every event keeps holds along every run. *)
Lemma run_keeps (P : System -> Prop) :
  (forall ev sys sys', P sys -> react ev sys = Some sys' -> P sys') ->
  forall evs sys sys', P sys -> Run.run evs sys = Some sys' -> P sys'.
Proof.
  intros Hstep. induction evs as [|ev evs IH]; intros sys sys' H Hrun; cbn in Hrun.
  - now injection Hrun as <-.
  - destruct (react ev sys) as [sys1|] eqn:Hre; [|discriminate].
    apply (IH sys1); [|exact Hrun]. now apply (Hstep ev sys).
Qed.

Lemma run_in_sync (p0 : Platform) (evs : list Event) (sys : System) :
  Run.run evs (boot p0) = Some sys -> in_sync sys.
Proof. apply (run_keeps in_sync react_in_sync), in_sync_boot. Qed.

Lemma or_str_self (q : string) : or_str (Some q) "" = q.
Proof.
  cbn. destruct (String.eqb q "") eqn:E; [|reflexivity].
  now apply String.eqb_eq in E.
Qed.


(** What a page loaded over the items of a system in sync starts with. *)
Lemma boot_in_sync_cells (s : State) (p : Platform) :
  shorts_ai_state p = Some (Stored (snapshot s)) ->
  isYoutubeConnected_item p = Some (connected_text (isYoutubeConnected s)) ->
  youtube_success p = false ->
  cells (boot p)
  = mkState (query s) false (step s) English (productInfo s)
      (script_value <$> snap_script (snapshot s)) None None None
      (isYoutubeConnected s) /\
  tasks (boot p) = [] /\
  objectURLs (platform (boot p)) = objectURLs p.
Proof.
  intros H1 H2 H3.
  assert (Hc : fst (mount p)
               = mkState (query s) false (step s) English (productInfo s)
                   (script_value <$> snap_script (snapshot s)) None None None
                   (isYoutubeConnected s)).
  { unfold mount, check_success_flag, restore, initial. rewrite H1, H2, H3.
    cbn -[or_str]. rewrite !or_str_self. f_equal.
    destruct (isYoutubeConnected s); reflexivity. }
  unfold boot. destruct (mount p) as [s1 p1] eqn:E. cbn in Hc. subst s1.
  cbn [cells tasks platform]. split; [reflexivity|]. split; [reflexivity|].
  unfold mount, check_success_flag in E. rewrite H3 in E.
  injection E as _ <-. rewrite objectURLs_commit.
  now destruct (urls_changed _ _).
Qed.

End Persistence.



(** ** The credential and the loading flag along a run *)

Section Pipeline.
Import Gemini App Run Kept.

Lemma unmount_frame (s : State) (p : Platform) :
  GEMINI_API_KEY (unmount s p) = GEMINI_API_KEY p /\
  requests (unmount s p) = requests p /\
  minted (unmount s p) = minted p.
Proof.
  unfold unmount, cleanup_urls. cbn.
  rewrite !key_revoke_if_blob, !minted_revoke_if_blob,
    !(proj2 (proj2 (item_revoke_if_blob _ _))).
  repeat split.
Qed.

(** What a page that has just loaded starts with, beside the restored
    cells. *)
Lemma boot_frame (p : Platform) :
  GEMINI_API_KEY (platform (boot p)) = GEMINI_API_KEY p /\
  requests (platform (boot p)) = requests p /\
  minted (platform (boot p)) = minted p /\
  tasks (boot p) = [] /\
  loading (cells (boot p)) = false /\
  audioUrl (cells (boot p)) = None /\ imageUrl (cells (boot p)) = None.
Proof.
  unfold boot, mount, check_success_flag, restore.
  destruct (youtube_success p), (shorts_ai_state p) as [[|snap]|];
    cbn -[commit]; rewrite key_commit, requests_commit, minted_commit;
    repeat split.
Qed.

Lemma search_task_live (t : Task) : is_search_task t = true -> live t = true.
Proof. now destruct t. Qed.

Lemma count_tasks_resumed (f : Task -> bool) (l : list Task) (i : nat)
    (old : Task) (t : option Task) :
  l !! i = Some old -> from_option f false t = f old ->
  count_tasks f (match t with
                 | Some t => <[i := t]> l
                 | None => delete i l
                 end)
  = count_tasks f l.
Proof.
  intros Hi Hf. destruct t as [t|]; cbn in Hf.
  - pose proof (count_tasks_insert f l i old t Hi) as E. rewrite Hf in E. lia.
  - pose proof (count_tasks_delete f l i old Hi) as E. rewrite <- Hf in E.
    cbn in E. lia.
Qed.

Lemma loading_waits_start (sys : System) (r : State * Platform * option Task) :
  loading_waits sys ->
  (let '(s', p', t) := r in
   match t with
   | Some t => loading s' = true -> live t = true
   | None => s' = cells sys \/ loading s' = false
   end) ->
  loading_waits (start sys r).
Proof.
  intros K. destruct r as [[s' p'] t]. intros H.
  unfold loading_waits, start, rendered. cbn [cells tasks].
  rewrite count_tasks_app. intros Hl. destruct t as [t|]; cbn.
  - rewrite (H Hl). lia.
  - destruct H as [-> | H]; [|congruence].
    specialize (K Hl). lia.
Qed.

Lemma loading_waits_resume (sys : System) (i : nat) (old : Task)
    (r : State * Platform * option Task) :
  loading_waits sys -> tasks sys !! i = Some old ->
  resume_cases old (cells sys) (platform sys) r ->
  loading_waits (resume i sys r).
Proof.
  intros K Hi. destruct r as [[s' p'] t]. intros [_ Hcases].
  unfold loading_waits, resume, rendered. cbn [cells tasks].
  destruct Hcases as [(_ & _ & _ & _ & H5 & H6 & _)|(_ & _ & _ & H4 & _)].
  - rewrite (count_tasks_resumed live _ _ old t Hi H6), H5. exact K.
  - congruence.
Qed.

(** Every event keeps a handler waiting while [loading] is set. *)
Lemma react_loading_waits (ev : Event) (sys sys' : System) :
  loading_waits sys -> react ev sys = Some sys' -> loading_waits sys'.
Proof.
  intros K Hre. destruct ev; unfold react in Hre.
  - injection Hre as <-. intros Hl.
    destruct (boot_frame (unmount (cells sys) (platform sys)))
      as (_ & _ & _ & _ & E & _).
    congruence.
  - enabled Hre. exact K.
  - enabled Hre. exact K.
  - enabled Hre. apply loading_waits_start; [exact K|].
    pose proof (handleSearch_cases (cells sys) (platform sys)) as H.
    destruct (handleSearch (cells sys) (platform sys)) as [[s' p'] t].
    destruct H as (_ & _ & _ & _ & _ & H). destruct t as [t|]; [|exact H].
    intros _. now apply search_task_live.
  - enabled Hre. apply loading_waits_start; [exact K|].
    pose proof (handleSearch_cases (cells sys) (platform sys)) as H.
    destruct (handleSearch (cells sys) (platform sys)) as [[s' p'] t].
    destruct H as (_ & _ & _ & _ & _ & H). destruct t as [t|]; [|exact H].
    intros _. now apply search_task_live.
  - enabled Hre. apply loading_waits_start; [exact K|].
    pose proof (handleGenerateAssets_cases (cells sys) (platform sys)) as H.
    destruct (handleGenerateAssets (cells sys) (platform sys)) as [[s' p'] t].
    destruct H as (_ & _ & _ & _ & _ & H). destruct t as [t|]; [|exact H].
    destruct H as [_ H]. congruence.
  - enabled Hre. exact K.
  - destruct (tasks sys !! i) as [[lang| |a v]|] eqn:Hi; try discriminate.
    answered Hre (resume i sys (handleSearch_lookup lang reply
                                  (cells sys) (platform sys))).
    apply (loading_waits_resume sys i (LookupTask lang)); auto.
    apply handleSearch_lookup_resumes.
  - destruct (tasks sys !! i) as [[lang| |a v]|] eqn:Hi; try discriminate.
    answered Hre (resume i sys (handleSearch_script reply
                                  (cells sys) (platform sys))).
    apply (loading_waits_resume sys i ScriptTask); auto.
    apply handleSearch_script_resumes.
  - destruct (tasks sys !! i) as [[lang| |[|o] v]|] eqn:Hi; try discriminate.
    answered Hre (resume i sys (handleGenerateAssets_audio Pending v reply
                                  (cells sys) (platform sys))).
    apply (loading_waits_resume sys i (AssetsTask Pending v)); auto.
    apply handleGenerateAssets_audio_resumes.
  - destruct (tasks sys !! i) as [[lang| |a [|o]]|] eqn:Hi; try discriminate.
    answered Hre (resume i sys (handleGenerateAssets_visual a Pending reply
                                  (cells sys) (platform sys))).
    apply (loading_waits_resume sys i (AssetsTask a Pending)); auto.
    apply handleGenerateAssets_visual_resumes.
  - destruct (0 <? message_listeners (platform sys))%nat;
      injection Hre as <-; [|exact K].
    unfold loading_waits, update, handleMessage. cbn [cells tasks].
    now destruct (bool_decide (type = Some "YOUTUBE_AUTH_SUCCESS")).
Qed.

Lemma boot_loading_waits (p : Platform) : loading_waits (boot p).
Proof.
  intros Hl. destruct (boot_frame p) as (_ & _ & _ & _ & E & _). congruence.
Qed.

(** X9. The spinner is never stuck.  At every state of every run, whatever
    keys are pressed, a handler still waits for the backend while
    [loading] is set. *)
Theorem loading_means_waiting (p0 : Platform) (evs : list Event) (sys : System) :
  Run.run evs (boot p0) = Some sys ->
  loading (cells sys) = true ->
  exists i t, tasks sys !! i = Some t /\ live t = true.
Proof.
  intros Hrun Hl.
  assert (K : loading_waits sys)
    by (apply (run_keeps _ react_loading_waits evs (boot p0));
        [apply boot_loading_waits | exact Hrun]).
  specialize (K Hl). clear Hrun Hl.
  induction (tasks sys) as [|t l IH]; [now contradiction K|].
  cbn in K. destruct (live t) eqn:E.
  - exists 0%nat, t. now split.
  - destruct (IH K) as (i & t' & Hi & Ht). exists (S i), t'. now split.
Qed.

Lemma loading_means_waiting_witness :
  let evs := [TypeQuery "Test Widget"; PressEnter; PressEnter;
              LookupAnswer 1 (Threw Sample.network_error); PressEnter] in
  exists sys i t,
    Run.run evs (boot Sample.browser) = Some sys /\
    loading (cells sys) = true /\ tasks sys !! i = Some t /\ live t = true.
Proof.
  intros evs.
  destruct (Run.run evs (boot Sample.browser)) as [sys|] eqn:E;
    [|vm_compute in E; discriminate].
  assert (Hl : loading (cells sys) = true)
    by (vm_compute in E; injection E as <-; reflexivity).
  destruct (loading_means_waiting Sample.browser evs sys E Hl) as (i & t & Hi & Ht).
  exists sys, i, t. split; [reflexivity|]. split; [exact Hl|]. now split.
Defined.

End Pipeline.

(** ** What the page keeps as the browser runs it *)

Section Browser.
Import Gemini App Run Kept Page.

(** While the stored snapshot is the one of the cells, a render whose
    write goes through stores what [Run] stores. *)
Lemma commit_try_in_sync (rn : bool) (old new : State) (p : Platform) :
  shorts_ai_state p = Some (Stored (snapshot old)) ->
  commit_try true rn old new p = commit old new p.
Proof.
  intros Hp. unfold commit_try, commit, persist_try.
  destruct rn; [|reflexivity]. cbn [orb].
  destruct (persisted_changed old new) eqn:E; [reflexivity|].
  apply persisted_same in E.
  assert (Hq : forall q, shorts_ai_state q = Some (Stored (snapshot old)) ->
                         persist new q = q).
  { intros [k rq ou mt ss it ys ml] Hq. cbn in Hq. subst ss.
    unfold persist, setItem_state. cbn. now rewrite E. }
  rewrite Hq; [reflexivity|].
  destruct (urls_changed old new); [|exact Hp].
  unfold cleanup_urls. now rewrite !stored_revoke_if_blob.
Qed.

(** Every event of [Run] is an action of the page whose write goes
    through, called from the current render: the runs of [Run], whose
    store mirrors the cells throughout, are runs of [Page]. *)
Lemma react_is_act (ev : Event) (sys sys' : System) :
  in_sync sys -> react ev sys = Some sys' ->
  act true (action_of ev (cells sys)) sys = Some sys'.
Proof.
  intros (Hs & _).
  destruct ev; cbn [react action_of act]; try (intros H; exact H);
    try (intros H; enabled H; reflexivity).
  destruct (tasks sys !! i) as [[lang| |a v]|]; try (intros H; exact H).
  intros H. rewrite <- H. f_equal.
  unfold resume_try, resume, rendered_try, rendered.
  pose proof (handleSearch_script_cases reply (cells sys) (platform sys)) as Hc.
  destruct (handleSearch_script reply (cells sys) (platform sys)) as [[s' p'] t].
  destruct Hc as (_ & _ & _ & _ & H5 & _).
  rewrite commit_try_in_sync; [reflexivity|]. now rewrite H5.
Qed.

(** *** What a render stores and leaves alone *)

Lemma stored_commit_try (st rn : bool) (old new : State) (p : Platform) :
  shorts_ai_state (commit_try st rn old new p)
  = if (rn || persisted_changed old new) && st then Some (Stored (snapshot new))
    else shorts_ai_state p.
Proof.
  unfold commit_try, persist_try, cleanup_urls.
  destruct (urls_changed old new), rn, (persisted_changed old new), st,
    (connected_changed old new); cbn; now rewrite ?stored_revoke_if_blob.
Qed.

Lemma commit_try_frame (st rn : bool) (old new : State) (p : Platform) :
  GEMINI_API_KEY (commit_try st rn old new p) = GEMINI_API_KEY p /\
  requests (commit_try st rn old new p) = requests p /\
  objectURLs (commit_try st rn old new p) = objectURLs (commit old new p) /\
  isYoutubeConnected_item (commit_try st rn old new p)
  = isYoutubeConnected_item (commit old new p) /\
  youtube_success (commit_try st rn old new p) = youtube_success p.
Proof.
  rewrite <- (key_commit old new p), <- (requests_commit old new p),
    <- (success_commit old new p).
  unfold commit_try, commit, persist_try.
  destruct st, rn, (urls_changed old new), (persisted_changed old new),
    (connected_changed old new); cbn; repeat split.
Qed.

Lemma run_while_keeps (allowed : Action -> System -> bool) (P : System -> Prop) :
  (forall st a sys sys',
      P sys -> allowed a sys = true -> act st a sys = Some sys' -> P sys') ->
  forall evs sys sys', P sys -> run_while allowed evs sys = Some sys' -> P sys'.
Proof.
  intros Hstep. induction evs as [|[st a] evs IH]; intros sys sys' H Hrun;
    cbn in Hrun.
  - now injection Hrun as <-.
  - destruct (allowed a sys) eqn:Ha; [|discriminate].
    destruct (act st a sys) as [sys1|] eqn:Hact; [|discriminate].
    apply (IH sys1); [|exact Hrun]. now apply (Hstep st a sys).
Qed.

(** *** The cases of the handlers of any render *)

Lemma handleSearch_of_cases (c s : State) (p : Platform) :
  let '(s', p', t) := handleSearch_of c s p in
  step s' = step s /\ script s' = script s /\
  audioUrl s' = audioUrl s /\ imageUrl s' = imageUrl s /\
  shorts_ai_state p' = shorts_ai_state p /\
  match t with
  | Some t => is_search_task t = true /\ loading s' = true
  | None => s' = s \/ loading s' = false
  end.
Proof.
  unfold handleSearch_of.
  destruct (negb (truthy_str (Some (query c)))); [cbn; auto 10|].
  unfold searchProduct. destruct (getAI p); cbn; auto 10.
Qed.

Lemma handleGenerateAssets_of_cases (c s : State) (p : Platform) :
  let '(s', p', t) := handleGenerateAssets_of c s p in
  step s' = step s /\ script s' = script s /\
  audioUrl s' = audioUrl s /\ imageUrl s' = imageUrl s /\
  shorts_ai_state p' = shorts_ai_state p /\
  match t with
  | Some t => is_search_task t = false /\ loading s' = live t
  | None => s' = s \/ loading s' = false
  end.
Proof.
  unfold handleGenerateAssets_of.
  destruct (script c) as [sc|] eqn:Hsc; [|cbn; auto 10].
  destruct (truthy sc); [|cbn; auto 10]. cbn.
  unfold generateAudio, generateVisual, getAI. cbn.
  destruct (truthy_str (GEMINI_API_KEY p)) eqn:E; cbn; rewrite ?E; cbn; auto 10.
Qed.

(** *** The stage selects a view *)

Lemma selects_view_same (s s' : State) :
  step s' = step s -> script s' = script s -> selects_view s' = selects_view s.
Proof.
  intros H1 H2. unfold selects_view, shows_search, shows_script, shows_preview.
  now rewrite H1, H2.
Qed.

Lemma selects_view_preview (s : State) :
  step s = Step.preview -> selects_view s = true.
Proof.
  intros H. unfold selects_view, shows_search, shows_script, shows_preview.
  now rewrite H.
Qed.

Lemma selects_view_script (s : State) (v : JsValue) :
  step s = Step.script -> script s = Some v -> truthy v = true ->
  selects_view s = true.
Proof.
  intros H1 H2 H3. unfold selects_view, shows_search, shows_script.
  now rewrite H1, H2, H3.
Qed.

(** What [selects_view] says of the cells. *)
Lemma selects_view_cases (s : State) :
  selects_view s = true ->
  step s = Step.search \/ step s = Step.preview \/
  (step s = Step.script /\ exists v, script s = Some v /\ truthy v = true).
Proof.
  unfold selects_view, shows_search, shows_script, shows_preview.
  destruct (step s); cbn; auto; try discriminate.
  destruct (script s) as [v|]; [|discriminate].
  intros H. rewrite orb_false_r in H. right. right. eauto.
Qed.

Lemma handleSearch_script_selects (reply : Reply JsonText) (s : State)
    (p : Platform) :
  selects_view s = true ->
  selects_view (fst (fst (handleSearch_script reply s p))) = true.
Proof.
  intros H. unfold handleSearch_script, answer, generateScript_then.
  destruct reply as [[|v]|e]; cbn [JSON_parse fst snd];
    try (rewrite <- H; now apply selects_view_same).
  destruct (truthy v) eqn:Hv; cbn [negb fst];
    [|rewrite <- H; now apply selects_view_same].
  now apply (selects_view_script _ v).
Qed.

Lemma stored_selects_same (p q : Platform) :
  shorts_ai_state q = shorts_ai_state p -> stored_selects p -> stored_selects q.
Proof. unfold stored_selects. now intros ->. Qed.

(** A render stores a snapshot that selects a view, or leaves the stored
    one. *)
Lemma stored_selects_commit_try (st rn : bool) (old new : State) (p : Platform) :
  selects_view new = true -> stored_selects p ->
  stored_selects (commit_try st rn old new p).
Proof.
  intros Hn Hp snap. rewrite stored_commit_try.
  destruct ((rn || persisted_changed old new) && st); [|apply Hp].
  intros [= <-]. cbn.
  destruct (selects_view_cases _ Hn) as [E|[E|(E & v & Hv & Ht)]]; rewrite E;
    (split; [discriminate|]); try discriminate.
  intros _. now rewrite Hv, Ht.
Qed.

Lemma viewed_piece (st rn : bool) (sys : System) (s' : State) (p' : Platform)
    (ts : list Task) :
  viewed sys -> shorts_ai_state p' = shorts_ai_state (platform sys) ->
  selects_view s' = true ->
  viewed (mkSystem s' (commit_try st rn (cells sys) s' p') ts).
Proof.
  intros [_ Hp] E Hs. split; [exact Hs|]. cbn [platform].
  apply stored_selects_commit_try; [exact Hs|].
  now apply (stored_selects_same (platform sys)).
Qed.

Lemma load_viewed (first st : bool) (p : Platform) :
  stored_selects p -> viewed (load first st p).
Proof.
  intros Hp. unfold load, mount_try.
  assert (H : selects_view (restore (initial p) p) = true).
  { unfold restore. destruct (shorts_ai_state p) as [[|snap]|] eqn:E;
      try reflexivity.
    destruct (Hp snap E) as [Hup Hsc].
    destruct (snap_step snap) eqn:Es; try reflexivity; [|congruence].
    destruct (snap_script snap) as [t|] eqn:Et; [|now contradiction Hsc].
    apply (selects_view_script _ (script_value t)); reflexivity. }
  assert (Hfirst : forall q, shorts_ai_state q = shorts_ai_state p ->
            stored_selects (addEventListener_message
                              (persist_connected (initial p)
                                 (persist_try first (initial p) q)))).
  { intros q Hq snap. destruct first; cbn.
    - intros [= <-]. cbn. split; discriminate.
    - rewrite Hq. apply Hp. }
  unfold check_success_flag. destruct (youtube_success p); cbn [cells platform];
    (split; [rewrite <- H; now apply selects_view_same|]);
    (apply stored_selects_commit_try;
     [rewrite <- H; now apply selects_view_same | now apply Hfirst]).
Qed.

Lemma stored_unmount (s : State) (p : Platform) :
  shorts_ai_state (unmount s p) = shorts_ai_state p.
Proof.
  unfold unmount, cleanup_urls. cbn. now rewrite !stored_revoke_if_blob.
Qed.

(** Every action keeps a view selected, whatever render its handler comes
    from and whether or not the snapshot is written. *)
Lemma act_viewed (st : bool) (a : Action) (sys sys' : System) :
  viewed sys -> act st a sys = Some sys' -> viewed sys'.
Proof.
  intros Inv Hact. pose proof Inv as [Hs Hp].
  destruct a; unfold act in Hact.
  - (* Reloaded *)
    injection Hact as <-. apply load_viewed.
    apply (stored_selects_same (platform sys)); [apply stored_unmount|exact Hp].
  - (* Typed *)
    injection Hact as <-. apply viewed_piece; auto.
  - (* Chose *)
    injection Hact as <-. apply viewed_piece; auto.
  - (* Search *)
    injection Hact as <-. unfold start_try, rendered_try.
    pose proof (handleSearch_of_cases c (cells sys) (platform sys)) as H.
    destruct (handleSearch_of c (cells sys) (platform sys)) as [[s' p'] t].
    destruct H as (H1 & H2 & _ & _ & H5 & _).
    apply viewed_piece; auto. rewrite <- Hs. now apply selects_view_same.
  - (* Assets *)
    injection Hact as <-. unfold start_try, rendered_try.
    pose proof (handleGenerateAssets_of_cases c (cells sys) (platform sys)) as H.
    destruct (handleGenerateAssets_of c (cells sys) (platform sys)) as [[s' p'] t].
    destruct H as (H1 & H2 & _ & _ & H5 & _).
    apply viewed_piece; auto. rewrite <- Hs. now apply selects_view_same.
  - (* StartOver *)
    injection Hact as <-. split; [reflexivity|]. cbn [platform].
    apply stored_selects_commit_try; [reflexivity|].
    intros snap H. discriminate.
  - (* Lookup *)
    destruct (tasks sys !! i) as [[lang| |a v]|]; try discriminate.
    injection Hact as <-. unfold resume_try, rendered_try.
    pose proof (handleSearch_lookup_cases lang reply (cells sys) (platform sys)) as H.
    destruct (handleSearch_lookup lang reply (cells sys) (platform sys))
      as [[s' p'] t].
    destruct H as (H1 & H2 & _ & _ & H5 & _).
    apply viewed_piece; auto. rewrite <- Hs. now apply selects_view_same.
  - (* Scripted *)
    destruct (tasks sys !! i) as [[lang| |a v]|]; try discriminate.
    injection Hact as <-. unfold resume_try, rendered_try.
    pose proof (handleSearch_script_selects reply (cells sys) (platform sys) Hs) as H.
    pose proof (handleSearch_script_cases reply (cells sys) (platform sys)) as H'.
    destruct (handleSearch_script reply (cells sys) (platform sys))
      as [[s' p'] t].
    destruct H' as (_ & _ & _ & _ & H5 & _).
    now apply viewed_piece.
  - (* Speech *)
    destruct (tasks sys !! i) as [[lang| |[|o] v]|]; try discriminate.
    answered Hact (resume_try st false i sys (handleGenerateAssets_audio Pending v reply
                                          (cells sys) (platform sys))).
    unfold resume_try, rendered_try.
    pose proof (handleGenerateAssets_audio_resumes v reply (cells sys) (platform sys))
      as H. unfold resume_cases in H.
    destruct (handleGenerateAssets_audio Pending v reply (cells sys) (platform sys))
      as [[s' p'] t].
    destruct H as [H5 H]. apply viewed_piece; auto.
    destruct H as [(H1 & H2 & _)|(_ & _ & _ & _ & [(H1 & H2 & _)|[H1|(H0 & _)]])];
      try discriminate;
      [rewrite <- Hs; now apply selects_view_same
      |rewrite <- Hs; now apply selects_view_same
      |now apply selects_view_preview].
  - (* Image *)
    destruct (tasks sys !! i) as [[lang| |a [|o]]|]; try discriminate.
    answered Hact (resume_try st false i sys (handleGenerateAssets_visual a Pending reply
                                          (cells sys) (platform sys))).
    unfold resume_try, rendered_try.
    pose proof (handleGenerateAssets_visual_resumes a reply (cells sys) (platform sys))
      as H. unfold resume_cases in H.
    destruct (handleGenerateAssets_visual a Pending reply (cells sys) (platform sys))
      as [[s' p'] t].
    destruct H as [H5 H]. apply viewed_piece; auto.
    destruct H as [(H1 & H2 & _)|(_ & _ & _ & _ & [(H1 & H2 & _)|[H1|(H0 & _)]])];
      try discriminate;
      [rewrite <- Hs; now apply selects_view_same
      |rewrite <- Hs; now apply selects_view_same
      |now apply selects_view_preview].
  - (* Posted *)
    destruct (0 <? message_listeners (platform sys))%nat;
      injection Hact as <-; [|exact Inv].
    apply viewed_piece; auto. unfold handleMessage.
    destruct (bool_decide (type = Some "YOUTUBE_AUTH_SUCCESS")); [reflexivity|exact Hs].
  - (* Exported *)
    injection Hact as <-. split; [exact Hs|exact Hp].
Qed.

(** X7. The stage always selects a view.  At every state of every run of
    the page (whatever view a handler is called from, transitions
    overlapping or not, the writes of the snapshot failing or not), over a
    store that holds no snapshot or one that selects a view, the stage is
    never upload, for which the render has no view, and at stage script a
    truthy script is held: the condition of one of the three views of
    lines 283, 358 and 412 holds. *)
Theorem stage_selects_view (p0 : Platform) (first st0 : bool)
    (evs : list (bool * Action)) (sys : System) :
  stored_selects p0 -> Page.run evs (load first st0 p0) = Some sys ->
  selects_view (cells sys) = true /\
  step (cells sys) <> Step.upload /\
  (step (cells sys) = Step.script ->
   exists v, script (cells sys) = Some v /\ truthy v = true).
Proof.
  intros Hp Hrun.
  assert (H : viewed sys).
  { apply (run_while_keeps unrestricted viewed
             (fun st a sys sys' H _ => act_viewed st a sys sys' H)
             evs (load first st0 p0)); [|exact Hrun].
    now apply load_viewed. }
  destruct H as [H _]. split; [exact H|].
  destruct (selects_view_cases _ H) as [E|[E|(E & v & Hv & Ht)]]; rewrite E;
    (split; [discriminate|]); try discriminate.
  intros _. eauto.
Qed.

(** Two searches overlap, the second one started from a view that has
    been left and answered with a script that is a string; the last write
    fails and the page is reloaded. *)
Lemma stage_selects_view_witness :
  let typed := setQuery "Test Widget" (initial Sample.browser) in
  let evs := [(true, Typed "Test Widget"); (true, Search typed);
              (true, Search typed);
              (true, Lookup 0 (Resolved (Some "Widget is great")));
              (true, Scripted 0 (Resolved (JSON Sample.widget_script)));
              (true, StartOver); (true, Search typed);
              (true, Lookup 0 (Resolved (Some "Widget is great")));
              (false, Scripted 0 (Resolved (JSON (JString "a script"))));
              (true, Reloaded true)] in
  exists sys,
    Page.run evs (load true true Sample.browser) = Some sys /\
    step (cells sys) = Step.search /\ selects_view (cells sys) = true.
Proof.
  intros typed evs.
  destruct (Page.run evs (load true true Sample.browser)) as [sys|] eqn:E;
    [|vm_compute in E; discriminate].
  destruct (stage_selects_view Sample.browser true true evs sys) as (H & _);
    [intros snap Hsnap; discriminate | exact E |].
  exists sys. split; [reflexivity|]. split; [|exact H].
  vm_compute in E. injection E as <-. reflexivity.
Defined.

(** *** Without a credential *)

Lemma load_frame (first st : bool) (p : Platform) :
  GEMINI_API_KEY (platform (load first st p)) = GEMINI_API_KEY p /\
  requests (platform (load first st p)) = requests p /\
  tasks (load first st p) = [] /\
  loading (cells (load first st p)) = false /\
  audioUrl (cells (load first st p)) = None /\
  imageUrl (cells (load first st p)) = None.
Proof.
  unfold load, mount_try, check_success_flag, restore.
  destruct (youtube_success p), (shorts_ai_state p) as [[|snap]|];
    cbn -[commit_try];
    match goal with
    | |- context [commit_try ?st ?rn ?old ?new ?q] =>
        destruct (commit_try_frame st rn old new q) as (-> & -> & _)
    end; destruct first; repeat split.
Qed.

Lemma handleSearch_of_without_key (c s : State) (p : Platform) :
  lacks_key p ->
  handleSearch_of c s p
  = (if negb (truthy_str (Some (query c))) then s
     else handleSearch_catch missing_key (setError None (setLoading true s)),
     p, None).
Proof.
  intros Hkey. unfold handleSearch_of, searchProduct, getAI. rewrite Hkey.
  now destruct (negb (truthy_str (Some (query c)))).
Qed.

Lemma handleGenerateAssets_of_without_key (c s : State) (p : Platform) :
  lacks_key p ->
  exists s', handleGenerateAssets_of c s p = (s', p, None) /\
             audioUrl s' = audioUrl s /\ imageUrl s' = imageUrl s /\
             (loading s = false -> loading s' = false).
Proof.
  intros Hkey. unfold handleGenerateAssets_of.
  destruct (script c) as [sc|]; [|eexists; repeat split; auto].
  destruct (truthy sc); [|eexists; repeat split; auto]. cbn.
  unfold generateAudio, generateVisual, getAI. rewrite Hkey. cbn.
  rewrite Hkey. cbn. eexists. repeat split.
Qed.

Lemma idle_piece (rq : list Request) (st rn : bool) (sys : System) (s' : State) :
  idle_without_key rq sys ->
  loading s' = false -> audioUrl s' = None -> imageUrl s' = None ->
  idle_without_key rq
    (mkSystem s' (commit_try st rn (cells sys) s' (platform sys)) (tasks sys)).
Proof.
  intros (Hkey & Hrq & Hts & _) Hl Ha Hi.
  unfold idle_without_key, lacks_key in *. cbn [cells platform tasks].
  destruct (commit_try_frame st rn (cells sys) s' (platform sys)) as (-> & -> & _).
  auto 10.
Qed.

(** Without a credential every action leaves the page idle. *)
Lemma act_idle_without_key (rq : list Request) (st : bool) (a : Action)
    (sys sys' : System) :
  idle_without_key rq sys -> act st a sys = Some sys' ->
  idle_without_key rq sys'.
Proof.
  intros Inv Hact. pose proof Inv as (Hkey & Hrq & Hts & Hl & Ha & Hi).
  destruct a; unfold act in Hact.
  - injection Hact as <-.
    destruct (load_frame first st (unmount (cells sys) (platform sys)))
      as (E1 & E2 & E3 & E4 & E5 & E6).
    destruct (unmount_frame (cells sys) (platform sys)) as (F1 & F2 & _).
    unfold idle_without_key, lacks_key in *. rewrite E1, E2, F1, F2. auto 10.
  - injection Hact as <-. now apply idle_piece.
  - injection Hact as <-. now apply idle_piece.
  - injection Hact as <-. rewrite (handleSearch_of_without_key _ _ _ Hkey).
    unfold start_try, rendered_try. rewrite app_nil_r.
    apply idle_piece; auto;
      now destruct (negb (truthy_str (Some (query c)))).
  - injection Hact as <-.
    destruct (handleGenerateAssets_of_without_key c (cells sys) (platform sys) Hkey)
      as (s' & -> & E1 & E2 & E3).
    unfold start_try, rendered_try. rewrite app_nil_r.
    apply idle_piece; auto; congruence.
  - injection Hact as <-.
    unfold idle_without_key, lacks_key in *. cbn [cells platform tasks].
    match goal with
    | |- context [commit_try ?st ?rn ?old ?new ?q] =>
        destruct (commit_try_frame st rn old new q) as (-> & -> & _)
    end. cbn. auto 10.
  - rewrite Hts in Hact. discriminate.
  - rewrite Hts in Hact. discriminate.
  - rewrite Hts in Hact. discriminate.
  - rewrite Hts in Hact. discriminate.
  - destruct (0 <? message_listeners (platform sys))%nat;
      injection Hact as <-; [|exact Inv].
    apply idle_piece; auto; unfold handleMessage;
      now destruct (bool_decide (type = Some "YOUTUBE_AUTH_SUCCESS")).
  - injection Hact as <-. unfold idle_without_key, lacks_key in *. cbn. auto 10.
Qed.

(** X8. Without a credential the page never reaches the backend.  At every
    state of every run of a page whose process has no credential
    (whatever view a handler is called from), no request has been sent to
    the backend since the page loaded, no handler waits, nothing is
    loading and no artifact is held; and a search for a non-empty query
    ends at once with the configuration error. *)
Theorem no_request_without_key (p0 : Platform) (first st0 : bool)
    (evs : list (bool * Action)) (sys : System) :
  lacks_key p0 -> Page.run evs (load first st0 p0) = Some sys ->
  requests (platform sys) = requests p0 /\
  tasks sys = [] /\ loading (cells sys) = false /\
  audioUrl (cells sys) = None /\ imageUrl (cells sys) = None /\
  (forall c st sys', query c <> "" -> act st (Search c) sys = Some sys' ->
     error (cells sys') = Some (message missing_key) /\
     loading (cells sys') = false /\ tasks sys' = [] /\
     requests (platform sys') = requests p0).
Proof.
  intros Hkey Hrun.
  assert (H : idle_without_key (requests p0) sys).
  { apply (run_while_keeps unrestricted _
             (fun st a sys sys' H _ =>
                act_idle_without_key (requests p0) st a sys sys' H)
             evs (load first st0 p0)); [|exact Hrun].
    destruct (load_frame first st0 p0) as (E1 & E2 & E3 & E4 & E5 & E6).
    unfold idle_without_key, lacks_key. rewrite E1. auto 10. }
  pose proof H as (H1 & H2 & H3 & H4 & H5 & H6).
  do 5 (split; [assumption|]).
  intros c st sys' Hq Hact.
  destruct (act_idle_without_key _ st (Search c) sys sys' H Hact)
    as (_ & Hrq & Hts & Hl & _).
  split; [|auto].
  unfold act in Hact. injection Hact as <-.
  rewrite (handleSearch_of_without_key _ _ _ H1).
  apply String.eqb_neq in Hq. cbn. now rewrite Hq.
Qed.

Lemma no_request_without_key_witness :
  let typed := setQuery "Test Widget" (initial (fresh None)) in
  let evs := [(true, Typed "Test Widget"); (true, Search typed);
              (true, Posted (Some "YOUTUBE_AUTH_SUCCESS"));
              (false, Search typed); (true, Assets Sample.at_script);
              (true, Exported (Wav.mkBlob [80; 75] "application/zip"))] in
  exists sys,
    Page.run evs (load true true (fresh None)) = Some sys /\
    requests (platform sys) = [] /\ tasks sys = [] /\
    step (cells sys) = Step.preview /\
    error (cells sys) = Some (message missing_key).
Proof.
  intros typed evs.
  destruct (Page.run evs (load true true (fresh None))) as [sys|] eqn:E;
    [|vm_compute in E; discriminate].
  destruct (no_request_without_key (fresh None) true true evs sys eq_refl E)
    as (H1 & H2 & _).
  exists sys. split; [reflexivity|]. split; [exact H1|]. split; [exact H2|].
  vm_compute in E. injection E as <-. split; reflexivity.
Defined.

(** *** One handler at a time *)

Lemma paced_piece (st rn : bool) (sys : System) (s' : State) (p' : Platform) :
  paced sys -> loading s' = loading (cells sys) ->
  paced (mkSystem s' (commit_try st rn (cells sys) s' p') (tasks sys)).
Proof. unfold paced. cbn [cells tasks]. now intros H ->. Qed.

(** A handler started while [loading] is unset. *)
Lemma paced_start (st : bool) (sys : System) (r : State * Platform * option Task) :
  paced sys -> loading (cells sys) = false ->
  (let '(s', p', t) := r in
   match t with
   | Some t => loading s' = live t
   | None => s' = cells sys \/ loading s' = false
   end) ->
  paced (start_try st sys r).
Proof.
  unfold paced. intros H Hl. rewrite Hl in H.
  destruct r as [[s' p'] t]. intros Ht.
  unfold start_try, rendered_try. cbn [cells tasks].
  rewrite count_tasks_app, H. destruct t as [t|]; cbn.
  - rewrite Ht. now destruct (live t).
  - destruct Ht as [-> | ->]; [now rewrite Hl|reflexivity].
Qed.

(** A handler resumed by an answer of the backend. *)
Lemma paced_resume (st rn : bool) (sys : System) (i : nat) (old : Task)
    (r : State * Platform * option Task) :
  paced sys -> tasks sys !! i = Some old ->
  resume_cases old (cells sys) (platform sys) r ->
  paced (resume_try st rn i sys r).
Proof.
  unfold paced. intros H Hi. destruct r as [[s' p'] t]. intros [_ Hcases].
  unfold resume_try, rendered_try. cbn [cells tasks].
  destruct Hcases as [(_ & _ & _ & _ & H5 & H6 & _)|(H1 & H2 & _ & H4 & _)].
  - now rewrite (count_tasks_resumed live _ _ old t Hi H6), H5.
  - rewrite H4.
    pose proof (count_tasks_at live _ _ _ Hi H1) as Hpos.
    assert (Hone : count_tasks live (tasks sys) = 1%nat)
      by (destruct (loading (cells sys)); [exact H|congruence]).
    destruct t as [t|]; cbn in H2.
    + pose proof (count_tasks_insert live _ i old t Hi) as E.
      rewrite H1, H2 in E. lia.
    + pose proof (count_tasks_delete live _ i old Hi) as E.
      rewrite H1 in E. lia.
Qed.

(** Every action that starts no handler while [loading] is set keeps the
    pace. *)
Lemma act_paced (st : bool) (a : Action) (sys sys' : System) :
  paced sys -> unhurried a sys = true -> act st a sys = Some sys' -> paced sys'.
Proof.
  intros Inv Hun Hact. destruct a; unfold act in Hact; unfold unhurried in Hun.
  - injection Hact as <-.
    destruct (load_frame first st (unmount (cells sys) (platform sys)))
      as (_ & _ & E3 & E4 & _).
    unfold paced. now rewrite E3, E4.
  - injection Hact as <-. now apply paced_piece.
  - injection Hact as <-. now apply paced_piece.
  - injection Hact as <-. apply negb_true_iff in Hun.
    apply paced_start; [exact Inv|exact Hun|].
    pose proof (handleSearch_of_cases c (cells sys) (platform sys)) as H.
    destruct (handleSearch_of c (cells sys) (platform sys)) as [[s' p'] t].
    destruct H as (_ & _ & _ & _ & _ & H). destruct t as [t|]; [|exact H].
    destruct H as [H1 H2]. now rewrite H2, (search_task_live t H1).
  - injection Hact as <-. apply negb_true_iff in Hun.
    apply paced_start; [exact Inv|exact Hun|].
    pose proof (handleGenerateAssets_of_cases c (cells sys) (platform sys)) as H.
    destruct (handleGenerateAssets_of c (cells sys) (platform sys)) as [[s' p'] t].
    destruct H as (_ & _ & _ & _ & _ & H). destruct t as [t|]; [|exact H].
    now destruct H.
  - injection Hact as <-. now apply paced_piece.
  - destruct (tasks sys !! i) as [[lang| |a v]|] eqn:Hi; try discriminate.
    answered Hact (resume_try st false i sys (handleSearch_lookup lang reply
                                          (cells sys) (platform sys))).
    apply (paced_resume st false sys i (LookupTask lang)); auto.
    apply handleSearch_lookup_resumes.
  - destruct (tasks sys !! i) as [[lang| |a v]|] eqn:Hi; try discriminate.
    answered Hact (resume_try st (renews reply) i sys (handleSearch_script reply
                                          (cells sys) (platform sys))).
    apply (paced_resume st (renews reply) sys i ScriptTask); auto.
    apply handleSearch_script_resumes.
  - destruct (tasks sys !! i) as [[lang| |[|o] v]|] eqn:Hi; try discriminate.
    answered Hact (resume_try st false i sys (handleGenerateAssets_audio Pending v reply
                                          (cells sys) (platform sys))).
    apply (paced_resume st false sys i (AssetsTask Pending v)); auto.
    apply handleGenerateAssets_audio_resumes.
  - destruct (tasks sys !! i) as [[lang| |a [|o]]|] eqn:Hi; try discriminate.
    answered Hact (resume_try st false i sys (handleGenerateAssets_visual a Pending reply
                                          (cells sys) (platform sys))).
    apply (paced_resume st false sys i (AssetsTask a Pending)); auto.
    apply handleGenerateAssets_visual_resumes.
  - destruct (0 <? message_listeners (platform sys))%nat;
      injection Hact as <-; [|exact Inv].
    apply paced_piece; [exact Inv|]. unfold handleMessage.
    now destruct (bool_decide (type = Some "YOUTUBE_AUTH_SUCCESS")).
  - injection Hact as <-. exact Inv.
Qed.

(** X10. One transition at a time.  In a run of the page in which no
    handler is started while [loading] is set (from whatever view it is
    called), exactly one handler waits to continue while [loading] is set
    and none while it is unset. *)
Theorem one_transition_at_a_time (p0 : Platform) (first st0 : bool)
    (evs : list (bool * Action)) (sys : System) :
  run_while unhurried evs (load first st0 p0) = Some sys ->
  count_tasks live (tasks sys) = (if loading (cells sys) then 1 else 0)%nat.
Proof.
  intros Hrun.
  apply (run_while_keeps unhurried paced act_paced evs (load first st0 p0));
    [|exact Hrun].
  destruct (load_frame first st0 p0) as (_ & _ & E3 & E4 & _).
  unfold paced. now rewrite E3, E4.
Qed.

Lemma one_transition_at_a_time_witness :
  let typed := setQuery "Test Widget" (initial Sample.browser) in
  let evs := [(true, Typed "Test Widget"); (true, Search typed);
              (true, Lookup 0 (Resolved (Some "Widget is great")));
              (true, Scripted 0 (Resolved (JSON Sample.widget_script)));
              (true, StartOver); (false, Assets Sample.at_script);
              (true, Image 0 (Resolved (Sample.inline_response "iVBORw0KGgo=")))] in
  exists sys,
    run_while unhurried evs (load true true Sample.browser) = Some sys /\
    step (cells sys) = Step.search /\
    loading (cells sys) = true /\ count_tasks live (tasks sys) = 1%nat.
Proof.
  intros typed evs.
  destruct (run_while unhurried evs (load true true Sample.browser))
    as [sys|] eqn:E; [|vm_compute in E; discriminate].
  pose proof (one_transition_at_a_time Sample.browser true true evs sys E) as H.
  assert (Hl : step (cells sys) = Step.search /\ loading (cells sys) = true)
    by (vm_compute in E; injection E as <-; split; reflexivity).
  destruct Hl as [Hs Hl]. rewrite Hl in H. exists sys. auto.
Defined.

(** *** The stage invariant *)

Lemma stored_ok_commit_try (st rn : bool) (old new : State) (p : Platform) :
  (step new = Step.search -> script new = None) ->
  stored_ok p -> stored_ok (commit_try st rn old new p).
Proof.
  intros Hnew Hp snap. rewrite stored_commit_try.
  destruct ((rn || persisted_changed old new) && st); [|apply Hp].
  intros [= <-]. now apply snapshot_ok.
Qed.

(** Cells changed by the user or by a message, the tasks as they were. *)
Lemma invariant_update_try (st rn : bool) (sys : System) (s' : State)
    (p' : Platform) :
  run_invariant sys ->
  loading s' = loading (cells sys) ->
  (step s' = Step.search -> script s' = None) ->
  (step s' = Step.search \/ step s' = Step.script ->
   audioUrl s' = None /\ imageUrl s' = None) ->
  (audioUrl (cells sys) = None -> audioUrl s' = None) ->
  (imageUrl (cells sys) = None -> imageUrl s' = None) ->
  stored_ok p' ->
  run_invariant (mkSystem s' (commit_try st rn (cells sys) s' p') (tasks sys)).
Proof.
  intros (J1 & J2 & J3 & J4 & J5 & J6) Hl H1 H2 Ha Hi Hp.
  unfold run_invariant. cbn [cells tasks platform]. rewrite Hl.
  split; [exact H1|]. split; [exact H2|]. split; [exact J3|].
  split; [exact J4|]. split.
  - intros H. destruct (J5 H) as [Ea Ei]. auto.
  - now apply stored_ok_commit_try.
Qed.

(** A handler started while [loading] is unset, a search only while no
    artifact is held. *)
Lemma invariant_start_try (st : bool) (sys : System)
    (r : State * Platform * option Task) :
  run_invariant sys ->
  loading (cells sys) = false ->
  (let '(s', p', t) := r in
   step s' = step (cells sys) /\ script s' = script (cells sys) /\
   audioUrl s' = audioUrl (cells sys) /\ imageUrl s' = imageUrl (cells sys) /\
   shorts_ai_state p' = shorts_ai_state (platform sys) /\
   match t with
   | Some t => loading s' = live t /\
               (is_search_task t = true ->
                audioUrl (cells sys) = None /\ imageUrl (cells sys) = None)
   | None => s' = cells sys \/ loading s' = false
   end) ->
  run_invariant (start_try st sys r).
Proof.
  intros (J1 & J2 & J3 & J4 & J5 & J6) Hl.
  destruct r as [[s' p'] t]. intros (H1 & H2 & H3 & H4 & H5 & H6).
  pose proof (J3 Hl) as J3'.
  assert (Hst : stored_ok (commit_try st false (cells sys) s' p')).
  { apply stored_ok_commit_try; [rewrite H1, H2; exact J1|].
    now apply (stored_ok_same (platform sys)). }
  unfold run_invariant, start_try, rendered_try. cbn [cells tasks platform].
  rewrite !count_tasks_app, J3', H1, H2, H3, H4.
  split; [exact J1|]. split; [exact J2|].
  destruct t as [t|]; simpl.
  - destruct H6 as [H6 H7]. rewrite H6.
    split; [intros ->; reflexivity|].
    split; [destruct (live t); lia|].
    split; [|exact Hst].
    intros E. destruct (is_search_task t) eqn:Es.
    + now apply H7.
    + apply J5. lia.
  - split; [intros _; reflexivity|].
    split; [lia|]. split; [|exact Hst].
    intros E. apply J5. lia.
Qed.

(** A task resumed by an answer of the backend. *)
Lemma invariant_resume_try (st rn : bool) (sys : System) (i : nat) (old : Task)
    (r : State * Platform * option Task) :
  run_invariant sys ->
  tasks sys !! i = Some old ->
  resume_cases old (cells sys) (platform sys) r ->
  run_invariant (resume_try st rn i sys r).
Proof.
  intros (J1 & J2 & J3 & J4 & J5 & J6) Hi.
  destruct r as [[s' p'] t]. intros [Hp Hcases].
  assert (Clive : (count_tasks live
                     (match t with
                      | Some t => <[i := t]> (tasks sys)
                      | None => delete i (tasks sys)
                      end)
                   + (if live old then 1 else 0)
                   = count_tasks live (tasks sys)
                     + (if from_option live false t then 1 else 0))%nat).
  { destruct t as [t|]; cbn.
    - now apply count_tasks_insert.
    - rewrite (count_tasks_delete live _ _ _ Hi). lia. }
  assert (Csearch : (count_tasks is_search_task
                     (match t with
                      | Some t => <[i := t]> (tasks sys)
                      | None => delete i (tasks sys)
                      end)
                   + (if is_search_task old then 1 else 0)
                   = count_tasks is_search_task (tasks sys)
                     + (if from_option is_search_task false t then 1 else 0))%nat).
  { destruct t as [t|]; cbn.
    - now apply count_tasks_insert.
    - rewrite (count_tasks_delete is_search_task _ _ _ Hi). lia. }
  pose proof (search_tasks_live
                (match t with
                 | Some t => <[i := t]> (tasks sys)
                 | None => delete i (tasks sys)
                 end)) as Hle.
  unfold run_invariant, resume_try, rendered_try. cbn.
  set (ts := match t with
             | Some t => <[i := t]> (tasks sys)
             | None => delete i (tasks sys)
             end) in *.
  destruct Hcases as [(H1 & H2 & H3 & H4 & H5 & H6 & H7)
                     |(H1 & H2 & H3 & H4 & Hend)].
  - rewrite H6 in Clive. rewrite H7 in Csearch.
    rewrite H1, H2, H3, H4, H5.
    assert (El : count_tasks live ts = count_tasks live (tasks sys)) by lia.
    assert (Es : count_tasks is_search_task ts
                 = count_tasks is_search_task (tasks sys)) by lia.
    rewrite El, Es.
    split; [exact J1|]. split; [exact J2|]. split; [exact J3|].
    split; [exact J4|]. split; [exact J5|].
    apply stored_ok_commit_try; [rewrite H1, H2; exact J1|].
    now apply (stored_ok_same (platform sys)).
  - rewrite H1, H2 in Clive.
    assert (El : count_tasks live ts = 0%nat) by lia.
    assert (Es : count_tasks is_search_task ts = 0%nat) by lia.
    rewrite El, Es.
    assert (Hvac : (0%nat <> 0%nat ->
                    audioUrl s' = None /\ imageUrl s' = None))
      by (intros E; now contradiction E).
    destruct Hend as [(E1 & E2 & E3 & E4)|[E1|(E0 & E1 & E3 & E4)]].
    + split; [rewrite E1, E2; exact J1|].
      split; [rewrite E1, E3, E4; exact J2|].
      split; [reflexivity|]. split; [lia|]. split; [exact Hvac|].
      apply stored_ok_commit_try; [rewrite E1, E2; exact J1|].
      now apply (stored_ok_same (platform sys)).
    + split; [rewrite E1; discriminate|].
      split; [rewrite E1; intros [?|?]; discriminate|].
      split; [reflexivity|]. split; [lia|]. split; [exact Hvac|].
      apply stored_ok_commit_try; [rewrite E1; discriminate|].
      now apply (stored_ok_same (platform sys)).
    + pose proof (J5 (count_tasks_at is_search_task _ _ _ Hi E0)) as [Ha Hb].
      split; [rewrite E1; discriminate|].
      split; [rewrite E3, E4; auto|].
      split; [reflexivity|]. split; [lia|]. split; [exact Hvac|].
      apply stored_ok_commit_try; [rewrite E1; discriminate|].
      now apply (stored_ok_same (platform sys)).
Qed.

(** A page that has just loaded satisfies the invariant if the stored
    snapshot does. *)
Lemma load_invariant (first st : bool) (p : Platform) :
  stored_ok p -> run_invariant (load first st p).
Proof.
  intros Hp. unfold load, mount_try.
  assert (Hrestore : step (restore (initial p) p) = Step.search ->
                     script (restore (initial p) p) = None).
  { unfold restore. destruct (shorts_ai_state p) as [[|snap]|] eqn:E; cbn; auto.
    intros Hs. now rewrite (Hp snap E Hs). }
  assert (Hurls : audioUrl (restore (initial p) p) = None /\
                  imageUrl (restore (initial p) p) = None).
  { unfold restore. destruct (shorts_ai_state p) as [[|snap]|]; cbn; auto. }
  assert (Hload : loading (restore (initial p) p) = false).
  { unfold restore. destruct (shorts_ai_state p) as [[|snap]|]; cbn; auto. }
  assert (Hfirst : forall q, shorts_ai_state q = shorts_ai_state p ->
            stored_ok (addEventListener_message
                         (persist_connected (initial p)
                            (persist_try first (initial p) q)))).
  { intros q Hq snap. destruct first; cbn.
    - intros [= <-]. reflexivity.
    - rewrite Hq. apply Hp. }
  unfold check_success_flag.
  destruct (youtube_success p); cbn [cells platform tasks];
    (unfold run_invariant; cbn [cells platform tasks count_tasks];
     repeat split;
     [exact Hrestore | apply Hurls | apply Hurls | lia | apply Hurls | apply Hurls
     | apply stored_ok_commit_try; [exact Hrestore | now apply Hfirst] ]).
Qed.

(** Every calm action preserves the invariant. *)
Lemma act_invariant (st : bool) (a : Action) (sys sys' : System) :
  run_invariant sys -> calm a sys = true -> act st a sys = Some sys' ->
  run_invariant sys'.
Proof.
  intros Inv Hcalm Hact. pose proof Inv as (J1 & J2 & J3 & J4 & J5 & J6).
  destruct a; unfold act in Hact; unfold calm in Hcalm.
  - (* Reloaded *)
    injection Hact as <-. apply load_invariant.
    apply (stored_ok_same (platform sys)); [apply stored_unmount|exact J6].
  - (* Typed *)
    injection Hact as <-. apply invariant_update_try; auto.
  - (* Chose *)
    injection Hact as <-. apply invariant_update_try; auto.
  - (* Search *)
    injection Hact as <-.
    apply andb_prop in Hcalm as [Hcalm Hi]. apply andb_prop in Hcalm as [Hl Ha].
    apply negb_true_iff in Hl. apply bool_decide_eq_true in Ha, Hi.
    apply invariant_start_try; [exact Inv|exact Hl|].
    pose proof (handleSearch_of_cases c (cells sys) (platform sys)) as H.
    destruct (handleSearch_of c (cells sys) (platform sys)) as [[s' p'] t].
    destruct H as (H1 & H2 & H3 & H4 & H5 & H6).
    do 5 (split; [assumption|]).
    destruct t as [t|]; [|exact H6].
    destruct H6 as [H6 H7]. split; [|auto].
    now rewrite H7, (search_task_live t H6).
  - (* Assets *)
    injection Hact as <-. apply negb_true_iff in Hcalm.
    apply invariant_start_try; [exact Inv|exact Hcalm|].
    pose proof (handleGenerateAssets_of_cases c (cells sys) (platform sys)) as H.
    destruct (handleGenerateAssets_of c (cells sys) (platform sys)) as [[s' p'] t].
    destruct H as (H1 & H2 & H3 & H4 & H5 & H6).
    do 5 (split; [assumption|]).
    destruct t as [t|]; [|exact H6].
    destruct H6 as [H6 H7]. split; [exact H7|]. intros E. congruence.
  - (* StartOver *)
    injection Hact as <-. unfold clearState.
    apply invariant_update_try; cbn; auto.
    intros snap H. discriminate.
  - (* Lookup *)
    destruct (tasks sys !! i) as [[lang| |a v]|] eqn:Hi; try discriminate.
    answered Hact (resume_try st false i sys (handleSearch_lookup lang reply
                                          (cells sys) (platform sys))).
    apply (invariant_resume_try st false sys i (LookupTask lang)); auto.
    apply handleSearch_lookup_resumes.
  - (* Scripted *)
    destruct (tasks sys !! i) as [[lang| |a v]|] eqn:Hi; try discriminate.
    answered Hact (resume_try st (renews reply) i sys (handleSearch_script reply
                                          (cells sys) (platform sys))).
    apply (invariant_resume_try st (renews reply) sys i ScriptTask); auto.
    apply handleSearch_script_resumes.
  - (* Speech *)
    destruct (tasks sys !! i) as [[lang| |[|o] v]|] eqn:Hi; try discriminate.
    answered Hact (resume_try st false i sys (handleGenerateAssets_audio Pending v reply
                                          (cells sys) (platform sys))).
    apply (invariant_resume_try st false sys i (AssetsTask Pending v)); auto.
    apply handleGenerateAssets_audio_resumes.
  - (* Image *)
    destruct (tasks sys !! i) as [[lang| |a [|o]]|] eqn:Hi; try discriminate.
    answered Hact (resume_try st false i sys (handleGenerateAssets_visual a Pending reply
                                          (cells sys) (platform sys))).
    apply (invariant_resume_try st false sys i (AssetsTask a Pending)); auto.
    apply handleGenerateAssets_visual_resumes.
  - (* Posted *)
    destruct (0 <? message_listeners (platform sys))%nat;
      injection Hact as <-; [|exact Inv].
    unfold update_try, handleMessage.
    destruct (bool_decide (type = Some "YOUTUBE_AUTH_SUCCESS")).
    + apply invariant_update_try; cbn; auto; try discriminate.
      intros [?|?]; discriminate.
    + apply invariant_update_try; auto.
  - (* Exported *)
    injection Hact as <-. exact Inv.
Qed.

(** X11. The stage invariant in calm runs.  In a run of the page in which
    no handler is started while [loading] is set and no search while an
    artifact is held (from whatever view the handler is called, the writes
    of the snapshot failing or not), over a store whose snapshot respects
    the invariant, every state satisfies the stage invariant, and more: at
    stages search and script neither artifact is held, so the two
    artifacts appear together with the stage preview. *)
Theorem calm_runs_keep_stages (p0 : Platform) (first st0 : bool)
    (evs : list (bool * Action)) (sys : System) :
  stored_ok p0 -> run_while calm evs (load first st0 p0) = Some sys ->
  stage_invariant (cells sys) /\
  (step (cells sys) = Step.search \/ step (cells sys) = Step.script ->
   audioUrl (cells sys) = None /\ imageUrl (cells sys) = None).
Proof.
  intros Hp Hrun.
  destruct (run_while_keeps calm run_invariant act_invariant evs
              (load first st0 p0) sys (load_invariant first st0 p0 Hp) Hrun)
    as (J1 & J2 & _).
  split; [|exact J2]. split; [exact J1|]. intros Ha Hi.
  destruct (step (cells sys)) eqn:E; auto;
    destruct J2 as [Ha' _]; auto; contradiction.
Qed.

(** The generation goes on after Start Over and leads from stage search to
    preview with both artifacts; they are discarded before the next
    search, which is started from the view that is leaving. *)
Lemma calm_runs_keep_stages_witness :
  let typed := setQuery "Test Widget" (initial Sample.browser) in
  let evs := [(true, Typed "Test Widget"); (true, Search typed);
              (true, Lookup 0 (Resolved (Some "Widget is great")));
              (true, Scripted 0 (Resolved (JSON Sample.widget_script)));
              (true, Assets Sample.at_script); (true, StartOver);
              (true, Speech 0 (Resolved (Sample.inline_response Sample.pcm48)));
              (false, Image 0 (Resolved (Sample.inline_response "iVBORw0KGgo=")));
              (true, StartOver); (true, Search typed);
              (true, Lookup 0 (Resolved (Some "Widget is great")));
              (true, Scripted 0 (Resolved (JSON Sample.widget_script)))] in
  exists sys,
    run_while calm evs (load true true Sample.browser) = Some sys /\
    step (cells sys) = Step.script /\ stage_invariant (cells sys) /\
    audioUrl (cells sys) = None.
Proof.
  intros typed evs.
  destruct (run_while calm evs (load true true Sample.browser)) as [sys|] eqn:E;
    [|vm_compute in E; discriminate].
  destruct (calm_runs_keep_stages Sample.browser true true evs sys
              (fresh_stored_ok _) E) as [H1 H2].
  assert (Hs : step (cells sys) = Step.script)
    by (vm_compute in E; injection E as <-; reflexivity).
  exists sys. split; [reflexivity|]. split; [exact Hs|]. split; [exact H1|].
  apply H2. now right.
Defined.

(** Neither condition of a calm run can be dropped: a search started
    while an artifact is held, though [loading] is unset, ends at stage
    script with both artifacts.  The generation goes on after Start Over
    and sets the stage to preview; the search view is leaving then, and
    Enter in its box starts the search. *)
Lemma stage_invariant_broken_from_leaving_view :
  let typed := setQuery "Test Widget" (initial Sample.browser) in
  let evs := [(true, Typed "Test Widget"); (true, Search typed);
              (true, Lookup 0 (Resolved (Some "Widget is great")));
              (true, Scripted 0 (Resolved (JSON Sample.widget_script)));
              (true, Assets Sample.at_script); (true, StartOver);
              (true, Typed "Test Widget");
              (true, Speech 0 (Resolved (Sample.inline_response Sample.pcm48)));
              (true, Image 0 (Resolved (Sample.inline_response "iVBORw0KGgo=")));
              (true, Search typed);
              (true, Lookup 0 (Resolved (Some "Widget is great")));
              (true, Scripted 0 (Resolved (JSON Sample.widget_script)))] in
  exists sys,
    run_while unhurried evs (load true true Sample.browser) = Some sys /\
    run_while calm evs (load true true Sample.browser) = None /\
    step (cells sys) = Step.script /\
    audioUrl (cells sys) = Some "blob:0" /\
    imageUrl (cells sys) = Some "data:image/png;base64,iVBORw0KGgo=" /\
    ~ stage_invariant (cells sys).
Proof.
  intros typed evs. eexists. split; [vm_compute; reflexivity|].
  split; [vm_compute; reflexivity|]. cbn.
  repeat split. intros [_ H].
  destruct H as [H|H]; discriminate.
Qed.

(** *** Reloading *)




End Browser.


(** ** What the transitions send and leave behind *)

Section Requests.
Import Gemini App.

Lemma urls_unchanged (old new : State) :
  audioUrl new = audioUrl old -> imageUrl new = imageUrl old ->
  urls_changed old new = false.
Proof.
  intros H1 H2. unfold urls_changed. rewrite H1, H2.
  destruct (audioUrl old), (imageUrl old); cbn; now rewrite ?String.eqb_refl.
Qed.

Lemma objectURLs_commit_same (old new : State) (p : Platform) :
  audioUrl new = audioUrl old -> imageUrl new = imageUrl old ->
  objectURLs (commit old new p) = objectURLs p.
Proof.
  intros H1 H2. now rewrite objectURLs_commit, (urls_unchanged old new H1 H2).
Qed.

(** X12. The requests of a search.  With a credential and a non-empty query,
    the search-to-script transition sends the lookup, and then the script
    request only if the lookup returned a usable text: that text, with
    the language selected when the search was started.  Nothing else is
    sent, whatever the backend answers. *)
Theorem search_requests (lookup : Reply (option string)) (scripted : Reply JsonText)
    (s : State) (p : Platform) :
  has_key p -> query s <> "" ->
  requests (snd (search_transition lookup scripted s p))
  = match usable_info lookup with
    | Some info => [ScriptRequest info (language s); LookupRequest (query s)]
    | None => [LookupRequest (query s)]
    end ++ requests p.
Proof.
  intros Hkey Hq. unfold has_key in Hkey. apply String.eqb_neq in Hq.
  unfold search_transition, rendered, handleSearch.
  cbn [truthy_str]. rewrite Hq. cbn [negb].
  unfold searchProduct, getAI. rewrite Hkey. cbn.
  unfold handleSearch_lookup. cbn.
  destruct lookup as [[info|]|e]; cbn; rewrite ?requests_commit; cbn;
    try reflexivity.
  destruct (String.eqb info "") eqn:Hinfo; cbn; rewrite ?requests_commit; cbn;
    [reflexivity|].
  unfold generateScript, getAI. rewrite key_commit. cbn. rewrite Hkey. cbn.
  unfold handleSearch_script. cbn.
  destruct scripted as [[|v]|e]; cbn; try destruct (truthy v); cbn;
    repeat first [rewrite requests_commit | progress cbn [requests send]];
    reflexivity.
Qed.

Lemma search_requests_witness :
  requests (snd (search_transition (Resolved (Some "Widget is great"))
                   (Threw Sample.network_error)
                   (setLanguage Hindi (setQuery "Test Widget" (initial Sample.browser)))
                   Sample.browser))
  = [ScriptRequest "Widget is great" Hindi; LookupRequest "Test Widget"].
Proof.
  rewrite (search_requests (Resolved (Some "Widget is great"))
             (Threw Sample.network_error)
             (setLanguage Hindi (setQuery "Test Widget" (initial Sample.browser)))
             Sample.browser eq_refl);
    [reflexivity | discriminate].
Defined.

Lemma requests_generateAudio_then (r : Response) (p : Platform) :
  requests (snd (generateAudio_then r p)) = requests p.
Proof.
  unfold generateAudio_then.
  destruct (first_part_inlineData r); [|reflexivity].
  now destruct (wrap_pcm _).
Qed.

Lemma requests_generateVisual_then (r : Response) (p : Platform) :
  requests (snd (generateVisual_then r p)) = requests p.
Proof. unfold generateVisual_then. now destruct (first_inline _). Qed.

(** The answers to the two requests of an asset generation send
    nothing. *)
Lemma requests_handleGenerateAssets_audio (a v : Slot) (reply : Reply Response)
    (s : State) (p : Platform) :
  requests (snd (fst (handleGenerateAssets_audio a v reply s p))) = requests p.
Proof.
  unfold handleGenerateAssets_audio, answer.
  destruct a; [|reflexivity]. destruct reply as [r|e]; [|reflexivity].
  pose proof (requests_generateAudio_then r p) as H.
  now destruct (generateAudio_then r p).
Qed.

Lemma requests_handleGenerateAssets_visual (a v : Slot) (reply : Reply Response)
    (s : State) (p : Platform) :
  requests (snd (fst (handleGenerateAssets_visual a v reply s p))) = requests p.
Proof.
  unfold handleGenerateAssets_visual, answer.
  destruct v; [|reflexivity]. destruct reply as [r|e]; [|reflexivity].
  pose proof (requests_generateVisual_then r p) as H.
  now destruct (generateVisual_then r p).
Qed.

Lemma requests_rendered (old : State) (r : State * Platform * option Task) :
  requests (snd (fst (rendered old r))) = requests (snd (fst r)).
Proof. destruct r as [[s p] t]. cbn. apply requests_commit. Qed.

(** X13. The requests of an asset generation.  With a credential and a script,
    the click sends the speech request for the utterance
    [hook. body. cta] in the selected language and the image request for
    the query, both before either is answered; the answers, in either
    order and whatever they are, send nothing more. *)
Theorem assets_requests (speech image : Reply Response) (s : State)
    (p : Platform) (sc : JsValue) :
  has_key p -> script s = Some sc -> truthy sc = true ->
  let sent := [ImageRequest (query s);
               SpeechRequest (fullText sc) (language s)] ++ requests p in
  requests (snd (fst (handleGenerateAssets s p))) = sent /\
  snd (handleGenerateAssets s p) = Some (AssetsTask Pending Pending) /\
  requests (snd (assets_transition speech image s p)) = sent /\
  requests (snd (assets_transition' speech image s p)) = sent.
Proof.
  intros Hkey Hsc Htruthy sent. unfold has_key in Hkey.
  assert (H : handleGenerateAssets s p
              = (setLoading true s,
                 send (ImageRequest (query s))
                   (send (SpeechRequest (fullText sc) (language s)) p),
                 Some (AssetsTask Pending Pending))).
  { unfold handleGenerateAssets, generateAudio, generateVisual, getAI.
    rewrite Hsc, Htruthy, Hkey. cbn. now rewrite Hkey. }
  split; [now rewrite H|]. split; [now rewrite H|].
  unfold assets_transition, assets_transition'. rewrite H.
  cbn [rendered].
  split.
  - pose proof (requests_handleGenerateAssets_audio Pending Pending speech
                  (setLoading true s)
                  (commit s (setLoading true s)
                     (send (ImageRequest (query s))
                        (send (SpeechRequest (fullText sc) (language s)) p))))
      as Ha.
    destruct (handleGenerateAssets_audio _ _ _ _ _) as [[s2 p2] t2].
    cbn [fst snd] in Ha. rewrite requests_commit in Ha. cbn [rendered].
    destruct t2 as [[| |a v]|]; cbn [snd]; rewrite ?requests_commit;
      try exact Ha.
    pose proof (requests_handleGenerateAssets_visual a v image s2
                  (commit (setLoading true s) s2 p2)) as Hv.
    destruct (handleGenerateAssets_visual _ _ _ _ _) as [[s3 p3] t3].
    cbn [fst snd] in Hv. cbn [rendered snd]. rewrite requests_commit in Hv.
    rewrite requests_commit. now rewrite Hv.
  - pose proof (requests_handleGenerateAssets_visual Pending Pending image
                  (setLoading true s)
                  (commit s (setLoading true s)
                     (send (ImageRequest (query s))
                        (send (SpeechRequest (fullText sc) (language s)) p))))
      as Hv.
    destruct (handleGenerateAssets_visual _ _ _ _ _) as [[s2 p2] t2].
    cbn [fst snd] in Hv. rewrite requests_commit in Hv. cbn [rendered].
    destruct t2 as [[| |a v]|]; cbn [snd]; rewrite ?requests_commit;
      try exact Hv.
    pose proof (requests_handleGenerateAssets_audio a v speech s2
                  (commit (setLoading true s) s2 p2)) as Ha.
    destruct (handleGenerateAssets_audio _ _ _ _ _) as [[s3 p3] t3].
    cbn [fst snd] in Ha. cbn [rendered snd]. rewrite requests_commit in Ha.
    rewrite requests_commit. now rewrite Ha.
Qed.

Lemma assets_requests_witness :
  requests (snd (assets_transition (Threw Sample.network_error)
                   (Threw Sample.network_error) Sample.at_script Sample.browser))
  = [ImageRequest "Test Widget";
     SpeechRequest "Amazing!. It works.. Buy now!" English].
Proof.
  apply (proj1 (proj2 (proj2
           (assets_requests (Threw Sample.network_error)
              (Threw Sample.network_error) Sample.at_script Sample.browser
              Sample.widget_script eq_refl eq_refl eq_refl)))).
Defined.

(** X14. An aborted asset generation leaves the audio allocated.  When the
    speech answer yields a container and the image request fails, in
    either order, the transition is aborted with the cells as they were,
    yet the object URL [generateAudio] created stays live: no cell holds
    it, so that no cleanup will revoke it before the page is left. *)
Theorem aborted_audio_stays_allocated (speech : Response) (e : JsError)
    (s : State) (p : Platform) (sc : JsValue) (url : string) :
  has_key p -> script s = Some sc -> truthy sc = true ->
  fst (run (generateAudio (fullText sc) (language s)) (Resolved speech) p)
  = Resolved (Some url) ->
  forall r,
    r = assets_transition (Resolved speech) (Threw e) s p \/
    r = assets_transition' (Resolved speech) (Threw e) s p ->
    step (fst r) = step s /\
    audioUrl (fst r) = audioUrl s /\ imageUrl (fst r) = imageUrl s /\
    is_Some (objectURLs (snd r) !! url) /\
    minted (snd r) = S (minted p).
Proof.
  intros Hkey Hsc Htruthy Hurl r Hr. unfold has_key in Hkey.
  revert Hurl. unfold run, generateAudio, getAI. rewrite Hkey. cbn.
  unfold generateAudio_then.
  destruct (first_part_inlineData speech) as [part|] eqn:Hpart; [|discriminate].
  destruct (wrap_pcm part) as [blob|e'] eqn:Hwrap; [|discriminate].
  cbn. intros [= <-].
  assert (H : fst r = setLoading false (setLoading true s) /\
              objectURLs (snd r)
              = <["blob:" +:+ pretty (minted p) := blob]> (objectURLs p) /\
              minted (snd r) = S (minted p)).
  { destruct Hr as [-> | ->];
      unfold assets_transition, assets_transition', rendered,
        handleGenerateAssets, generateAudio, generateVisual, getAI;
      rewrite Hsc, Htruthy, Hkey; cbn; rewrite Hkey; cbn;
      unfold handleGenerateAssets_audio, handleGenerateAssets_visual,
        answer, generateAudio_then, createObjectURL;
      rewrite Hpart, Hwrap; cbn;
      rewrite ?minted_commit; cbn;
      repeat first [rewrite objectURLs_commit_same by reflexivity
                   | rewrite minted_commit
                   | progress cbn [objectURLs minted send]];
      repeat split. }
  destruct H as (-> & Hobj & Hm).
  repeat split; [|exact Hm].
  rewrite Hobj, lookup_insert_eq. eauto.
Qed.

Lemma aborted_audio_stays_allocated_witness :
  let r := assets_transition' (Resolved (Sample.inline_response Sample.pcm48))
             (Threw Sample.network_error) Sample.at_script Sample.browser in
  step (fst r) = Step.script /\ audioUrl (fst r) = None /\
  is_Some (objectURLs (snd r) !! "blob:0").
Proof.
  intros r.
  destruct (aborted_audio_stays_allocated
              (Sample.inline_response Sample.pcm48) Sample.network_error
              Sample.at_script Sample.browser Sample.widget_script "blob:0"
              eq_refl eq_refl eq_refl) with (r := r)
    as (H1 & H2 & _ & H4 & _);
    [vm_compute; reflexivity | right; reflexivity |].
  split; [exact H1|]. split; [exact H2|exact H4].
Defined.

End Requests.



(** ** A reset while the assets are generated *)

Section Cancellation.
Import Gemini App Run Kept.

Lemma generateAudio_then_minted (r : Response) (p q : Platform) :
  minted p = minted q ->
  fst (generateAudio_then r p) = fst (generateAudio_then r q).
Proof. intros H. now rewrite !generateAudio_then_outcome, H. Qed.

Lemma generateVisual_then_outcome (r : Response) (p q : Platform) :
  fst (generateVisual_then r p) = fst (generateVisual_then r q) /\
  is_resolved (fst (generateVisual_then r p)) = true.
Proof. unfold generateVisual_then. now destruct (first_inline _). Qed.

Lemma delete_inserted {A} (l : list A) (i : nat) (x : A) :
  delete i (<[i := x]> l) = delete i l.
Proof.
  revert i. induction l as [|y l IH]; intros [|i]; cbn; try reflexivity.
  f_equal. apply IH.
Qed.

(** X15. A reset does not cancel a generation in flight.  "Start Over" is shown
    at stage script also while the assets are generated; the handler that
    waits is left waiting, and when both answers have arrived it binds the
    artifacts and sets the stage to preview over the cells the reset
    cleared: no query, no product information, no script. *)
Theorem reset_does_not_cancel_generation (sys : System) (i : nat)
    (speech image : Response) :
  tasks sys !! i = Some (AssetsTask Pending Pending) ->
  shows_script (cells sys) = true ->
  is_resolved (fst (generateAudio_then speech (platform sys))) = true ->
  exists sys',
    Run.run [ClickStartOver; SpeechAnswer i (Resolved speech);
             ImageAnswer i (Resolved image)] sys = Some sys' /\
    step (cells sys') = Step.preview /\
    query (cells sys') = "" /\ productInfo (cells sys') = "" /\
    script (cells sys') = None /\
    Resolved (audioUrl (cells sys')) = fst (generateAudio_then speech (platform sys)) /\
    Resolved (imageUrl (cells sys')) = fst (generateVisual_then image (platform sys)) /\
    loading (cells sys') = false /\ tasks sys' = delete i (tasks sys).
Proof.
  intros Hi Hshown Ha.
  pose proof (lookup_lt_Some _ _ _ Hi) as Hlt.
  cbn [Run.run]. unfold react at 1. rewrite Hshown. cbn [orb].
  unfold clearState.
  set (s1 := setImageUrl None (setAudioUrl None (setScript None
               (setProductInfo "" (setStep Step.search (setQuery "" (cells sys))))))).
  set (p1 := commit (cells sys) s1 (removeItem_state (platform sys))).
  assert (Hm1 : minted p1 = minted (platform sys))
    by (unfold p1; now rewrite minted_commit).
  unfold react at 1. cbn [tasks cells platform]. rewrite Hi.
  unfold resume at 1. unfold handleGenerateAssets_audio, answer.
  rewrite <- (generateAudio_then_minted speech p1 (platform sys) Hm1) in Ha |- *.
  destruct (generateAudio_then speech p1) as [[a|e] p1'] eqn:Hg;
    [|discriminate Ha].
  cbn [rendered cells platform tasks assets_progress Promise_all assets_task
         is_pending orb fst].
  unfold react. cbn [tasks cells platform].
  rewrite list_lookup_insert_eq by exact Hlt.
  unfold resume, handleGenerateAssets_visual, answer.
  destruct (generateVisual_then_outcome image (commit s1 s1 p1') (platform sys))
    as [<- Hv].
  destruct (generateVisual_then image (commit s1 s1 p1')) as [[x|e] p2];
    [|discriminate Hv].
  cbn. eexists. split; [reflexivity|]. repeat split.
  apply delete_inserted.
Qed.

Lemma reset_does_not_cancel_generation_witness :
  let evs := [TypeQuery "Test Widget"; ClickGenerate;
              LookupAnswer 0 (Resolved (Some "Widget is great"));
              ScriptAnswer 0 (Resolved (JSON Sample.widget_script));
              ClickGenerateAssets] in
  exists sys sys',
    run_orderly evs (boot Sample.browser) = Some sys /\
    run_orderly [ClickStartOver;
                 SpeechAnswer 0 (Resolved (Sample.inline_response Sample.pcm48));
                 ImageAnswer 0 (Resolved (Sample.inline_response "iVBORw0KGgo="))]
      sys = Some sys' /\
    step (cells sys') = Step.preview /\ query (cells sys') = "" /\
    script (cells sys') = None /\ audioUrl (cells sys') = Some "blob:0".
Proof.
  intros evs.
  destruct (run_orderly evs (boot Sample.browser)) as [sys|] eqn:E;
    [|vm_compute in E; discriminate].
  assert (H : tasks sys !! 0%nat = Some (AssetsTask Pending Pending) /\
              shows_script (cells sys) = true /\
              fst (generateAudio_then (Sample.inline_response Sample.pcm48)
                     (platform sys)) = Resolved (Some "blob:0"))
    by (vm_compute in E; injection E as <-; vm_compute; repeat split).
  destruct H as (H1 & H2 & H3).
  destruct (reset_does_not_cancel_generation sys 0
              (Sample.inline_response Sample.pcm48)
              (Sample.inline_response "iVBORw0KGgo=") H1 H2)
    as (sys' & R & R1 & R2 & _ & R4 & R5 & _); [now rewrite H3|].
  exists sys, sys'. split; [reflexivity|].
  rewrite H3 in R5. injection R5 as R5.
  split; [|now repeat split].
  cbn [run_orderly orderly]. cbn [Run.run] in R.
  destruct (react ClickStartOver sys) as [sys1|]; [|discriminate R].
  destruct (react (SpeechAnswer 0 _) sys1) as [sys2|]; [|discriminate R].
  destruct (react (ImageAnswer 0 _) sys2) as [sys3|]; [|discriminate R].
  exact R.
Defined.

End Cancellation.

(** ** The bundle export when a fetch fails *)

Section BundleFailure.
Import Gemini App.

(** X16. The export is all or nothing.  When the fetch of an artifact that is
    held fails, the image being fetched first, [handleDownloadAll] is
    rejected with that failure and offers no download; the audio is not
    fetched once the image has failed. *)
Theorem bundle_fails_with_fetch (fetch : string -> Outcome Wav.Blob) (now : Z)
    (s : State) (e : JsError) :
  (truthy_str (imageUrl s) = true /\
   fetch (default "" (imageUrl s)) = Threw e)
  \/
  ((truthy_str (imageUrl s) = true ->
    is_resolved (fetch (default "" (imageUrl s))) = true) /\
   truthy_str (audioUrl s) = true /\
   fetch (default "" (audioUrl s)) = Threw e) ->
  handleDownloadAll fetch now s = Threw e.
Proof.
  unfold handleDownloadAll. intros [[Hi He]|(Hi & Ha & He)].
  - rewrite Hi, He. reflexivity.
  - rewrite Ha, He.
    destruct (truthy_str (imageUrl s)); [|reflexivity].
    specialize (Hi eq_refl).
    now destruct (fetch (default "" (imageUrl s))).
Qed.

Lemma bundle_fails_with_fetch_witness :
  let s := setAudioUrl (Some "blob:0") Sample.at_script in
  handleDownloadAll (fun _ => Threw Sample.network_error) 1700000000000 s
  = Threw Sample.network_error.
Proof.
  intros s.
  apply (bundle_fails_with_fetch (fun _ => Threw Sample.network_error)
           1700000000000 s Sample.network_error).
  right. split; [discriminate|]. split; reflexivity.
Defined.

End BundleFailure.

(** ** The object URLs along a run *)

Section Artifacts.
Import Gemini App Run Kept.

Lemma blob_name_inj (n m : nat) :
  "blob:" +:+ pretty n = "blob:" +:+ pretty m -> n = m.
Proof. cbn. intros [= H]. now apply (inj pretty). Qed.

Lemma allocated_fresh (p : Platform) (u : string) :
  allocated p u -> u <> "blob:" +:+ pretty (minted p).
Proof.
  intros [(n & -> & Hn) _] E. apply blob_name_inj in E. lia.
Qed.

Lemma prefix_append (a x : string) : String.prefix a (a +:+ x) = true.
Proof.
  induction a as [|c a IH]; simpl; [now destruct x|].
  destruct (ascii_dec c c); [exact IH|congruence].
Qed.

Lemma prefix_cons (a b : ascii) (s1 s2 : string) :
  String.prefix (String a s1) (String b s2)
  = if ascii_dec a b then String.prefix s1 s2 else false.
Proof. reflexivity. Qed.

Lemma data_url_not_blob (x : option string) (u : string) :
  data_url x -> x = Some u -> String.prefix "blob:" u = false.
Proof.
  intros H E. specialize (H u E). destruct u as [|c u]; [discriminate|].
  rewrite prefix_cons in H.
  destruct (ascii_dec "d" c) as [<-|]; [|discriminate].
  rewrite prefix_cons. now destruct (ascii_dec "b" "d").
Qed.

Lemma grown_allocated (p p' : Platform) (fr : list string) (l : list string) :
  grown p p' fr -> NoDup l -> Forall (allocated p) l ->
  NoDup (fr ++ l) /\ Forall (allocated p') (fr ++ l).
Proof.
  intros [(Ho & Hm & ->)|(blob & Ho & Hm & ->)] Hnd Hall.
  - split; [exact Hnd|]. cbn. eapply Forall_impl; [exact Hall|].
    intros u [(n & -> & Hn) Hu]. split; [exists n; split; [reflexivity|lia]|].
    now rewrite Ho.
  - split.
    + cbn. apply NoDup_cons. split; [|exact Hnd].
      intros Hin. rewrite Forall_forall in Hall.
      now apply (allocated_fresh p _ (Hall _ Hin)).
    + cbn. apply Forall_cons. split.
      * split; [exists (minted p); split; [reflexivity|lia]|].
        rewrite Ho, lookup_insert_eq. eauto.
      * eapply Forall_impl; [exact Hall|].
        intros u [(n & -> & Hn) Hu]. split; [exists n; split; [reflexivity|lia]|].
        rewrite Ho. rewrite lookup_insert_is_Some. 
        destruct (decide ("blob:" +:+ pretty (minted p) = "blob:" +:+ pretty n)); auto.
Qed.

Lemma submseteq_NoDup (l k : list string) : l ⊆+ k -> NoDup k -> NoDup l.
Proof.
  intros H. apply submseteq_Permutation in H as [k' ->].
  rewrite NoDup_app. tauto.
Qed.

Lemma revoke_keeps (x : option string) (w : string) (p : Platform) :
  x <> Some w -> is_Some (objectURLs p !! w) ->
  is_Some (objectURLs (revoke_if_blob x p) !! w).
Proof.
  intros Hx H. destruct x as [v|]; cbn; [|exact H].
  destruct (String.prefix "blob:" v); cbn; [|exact H].
  rewrite lookup_delete_ne; [exact H | congruence].
Qed.

Lemma allocated_commit (s s' : State) (p : Platform) (w : string) :
  (urls_changed s s' = true -> audioUrl s <> Some w /\ imageUrl s <> Some w) ->
  allocated p w -> allocated (commit s s' p) w.
Proof.
  intros H [(n & -> & Hn) Hw]. split.
  - exists n. rewrite minted_commit. auto.
  - rewrite objectURLs_commit. destruct (urls_changed s s'); [|exact Hw].
    destruct (H eq_refl). unfold cleanup_urls.
    now apply revoke_keeps, revoke_keeps.
Qed.

(** The object URLs referred to after a piece of a handler and its
    render: [A] and [B] are held by the other handlers, [O] and [O'] by
    this one before and after. *)
Lemma urls_sound_core (s s' : State) (p p' : Platform) (A B O O' fr : list string) :
  NoDup (option_list (audioUrl s) ++ A ++ O ++ B) ->
  Forall (allocated p) (option_list (audioUrl s) ++ A ++ O ++ B) ->
  data_url (imageUrl s) ->
  grown p p' fr ->
  (audioUrl s' = audioUrl s /\ imageUrl s' = imageUrl s /\ O' ⊆+ fr ++ O
   \/ option_list (audioUrl s') ++ O' ⊆+ fr ++ O) ->
  NoDup (option_list (audioUrl s') ++ A ++ O' ++ B) /\
  Forall (allocated (commit s s' p')) (option_list (audioUrl s') ++ A ++ O' ++ B).
Proof.
  intros Hnd Hall Himg Hg Hcase.
  destruct (grown_allocated p p' fr _ Hg Hnd Hall) as [Hnd' Hall'].
  set (C := option_list (audioUrl s)) in *.
  set (C' := option_list (audioUrl s')) in *.
  assert (Hsub : C' ++ A ++ O' ++ B ⊆+ fr ++ C ++ A ++ O ++ B).
  { destruct Hcase as [(E1 & _ & H)|H].
    - subst C'. rewrite E1. fold C.
      transitivity (O' ++ (C ++ A ++ B)); [solve_submseteq|].
      transitivity ((fr ++ O) ++ (C ++ A ++ B));
        [now apply submseteq_skips_r | solve_submseteq].
    - transitivity ((C' ++ O') ++ (A ++ B)); [solve_submseteq|].
      transitivity ((fr ++ O) ++ (A ++ B));
        [now apply submseteq_skips_r | solve_submseteq]. }
  split; [now apply (submseteq_NoDup _ _ Hsub)|].
  apply Forall_forall. intros w Hw.
  pose proof (elem_of_submseteq _ _ _ Hw Hsub) as Hw'.
  rewrite Forall_forall in Hall'. specialize (Hall' w Hw').
  apply allocated_commit; [|exact Hall'].
  intros Hch. split.
  - intros Ea. destruct Hcase as [(E1 & E2 & _)|H].
    + rewrite (urls_unchanged s s' E1 E2) in Hch. discriminate.
    + assert (Hsub2 : w :: (C' ++ A ++ O' ++ B) ⊆+ fr ++ C ++ A ++ O ++ B).
      { unfold C. rewrite Ea. cbn [option_list].
        transitivity (w :: ((C' ++ O') ++ (A ++ B))); [solve_submseteq|].
        transitivity (w :: ((fr ++ O) ++ (A ++ B)));
          [apply submseteq_skip; now apply submseteq_skips_r
          |solve_submseteq]. }
      apply submseteq_NoDup in Hsub2; [|exact Hnd'].
      apply NoDup_cons in Hsub2 as [Hnot _]. contradiction.
  - intros Ei. destruct Hall' as [(n & -> & _) _].
    pose proof (data_url_not_blob _ _ Himg Ei) as Hb.
    rewrite prefix_append in Hb. discriminate.
Qed.

Lemma omap_resumed {X Y} (f : X -> option Y) (l : list X) (i : nat) (old : X)
    (t : option X) :
  l !! i = Some old ->
  omap f l = omap f (take i l) ++ option_list (f old) ++ omap f (drop (S i) l) /\
  omap f (match t with
          | Some t => <[i := t]> l
          | None => delete i l
          end)
  = omap f (take i l) ++ from_option (fun t => option_list (f t)) [] t
    ++ omap f (drop (S i) l).
Proof.
  intros Hi. pose proof (lookup_lt_Some _ _ _ Hi) as Hlt. split.
  - rewrite <- (take_drop_middle l i old Hi) at 1. rewrite omap_app. cbn.
    now destruct (f old).
  - destruct t as [t|]; cbn.
    + rewrite insert_take_drop by exact Hlt. rewrite omap_app. cbn.
      now destruct (f t).
    + now rewrite delete_take_drop, omap_app.
Qed.

Lemma urls_sound_resume (sys : System) (i : nat) (old : Task)
    (r : State * Platform * option Task) :
  urls_sound sys -> tasks sys !! i = Some old ->
  url_step (Some old) (cells sys) (platform sys) r ->
  urls_sound (resume i sys r).
Proof.
  intros (Hnd & Hall & Himg & Hts) Hi. destruct r as [[s' p'] t].
  intros (fr & Hg & Hcase & Hslot).
  unfold held in Hnd, Hall.
  destruct (omap_resumed slot_url (tasks sys) i old t Hi) as [E1 E2].
  rewrite E1 in Hnd, Hall.
  assert (Hold : data_url (image_slot old)).
  { rewrite Forall_forall in Hts. apply Hts.
    now apply (list_elem_of_lookup_2 _ i). }
  destruct (urls_sound_core (cells sys) s' (platform sys) p' _ _
              (slot_urls (Some old)) (slot_urls t) fr Hnd Hall Himg Hg)
    as [N F].
  { destruct Hcase as [H|[H _]]; [left; exact H | right; exact H]. }
  unfold urls_sound, held, resume, rendered. cbn [cells platform tasks].
  rewrite E2. split; [exact N|]. split; [exact F|]. split.
  - destruct Hcase as [(_ & -> & _)|[_ H]]; [exact Himg | now apply H].
  - destruct t as [t|]; [|now apply Forall_delete].
    apply Forall_insert; [exact Hts | now apply Hslot].
Qed.

Lemma urls_sound_start (sys : System) (r : State * Platform * option Task) :
  urls_sound sys -> url_step None (cells sys) (platform sys) r ->
  urls_sound (start sys r).
Proof.
  intros (Hnd & Hall & Himg & Hts). destruct r as [[s' p'] t].
  intros (fr & Hg & Hcase & Hslot).
  unfold held in Hnd, Hall.
  assert (E : omap slot_url (tasks sys ++ option_list t)
              = omap slot_url (tasks sys) ++ slot_urls t ++ []).
  { rewrite omap_app, app_nil_r. f_equal. now destruct t. }
  assert (E0 : omap slot_url (tasks sys)
               = omap slot_url (tasks sys) ++ slot_urls None ++ [])
    by (cbn; now rewrite app_nil_r).
  rewrite E0 in Hnd, Hall.
  destruct (urls_sound_core (cells sys) s' (platform sys) p' _ _
              (slot_urls None) (slot_urls t) fr Hnd Hall Himg Hg)
    as [N F].
  { destruct Hcase as [H|[H _]]; [left; exact H | right; exact H]. }
  assert (Hnone : data_url (from_option image_slot None None))
    by (intros u; discriminate).
  unfold urls_sound, held, start, rendered. cbn [cells platform tasks].
  rewrite E. split; [exact N|]. split; [exact F|]. split.
  - destruct Hcase as [(_ & -> & _)|[_ H]]; [exact Himg | now apply H].
  - apply Forall_app. split; [exact Hts|].
    destruct t as [t|]; [|constructor].
    repeat constructor. now apply Hslot.
Qed.

(** Cells replaced without a handler: the artifact cells are as before or
    both cleared. *)
Lemma urls_sound_update (sys : System) (s' : State) (p' : Platform) :
  urls_sound sys ->
  objectURLs p' = objectURLs (platform sys) -> minted p' = minted (platform sys) ->
  (audioUrl s' = audioUrl (cells sys) /\ imageUrl s' = imageUrl (cells sys)
   \/ audioUrl s' = None /\ imageUrl s' = None) ->
  urls_sound (mkSystem s' (commit (cells sys) s' p') (tasks sys)).
Proof.
  intros Hs Ho Hm Hcase.
  pose proof (urls_sound_start sys (s', p', None) Hs) as H.
  unfold start, rendered in H. cbn [option_list] in H. rewrite app_nil_r in H.
  apply H.
  exists []. split; [left; auto|]. split; [|auto].
  destruct Hcase as [[E1 E2]|[E1 E2]].
  - left. split; [exact E1|]. split; [exact E2|]. reflexivity.
  - right. rewrite E1, E2. split; [reflexivity|]. intros _ u. discriminate.
Qed.

Lemma grown_same (p p' : Platform) :
  objectURLs p' = objectURLs p -> minted p' = minted p -> grown p p' [].
Proof. left; auto. Qed.

Lemma data_url_built (d : string) (u : string) :
  Some ("data:image/png;base64," +:+ d) = Some u ->
  String.prefix "data:image/png;base64," u = true.
Proof. intros [= <-]. apply prefix_append. Qed.

(** A piece of a handler that touches no artifact cell and holds no
    object URL afterwards. *)
Ltac quiet :=
  exists []; split; [apply grown_same; reflexivity|];
  split; [left; split; [reflexivity|]; split; [reflexivity|];
          apply submseteq_nil_l
         |intros _ u; discriminate].

Lemma url_step_handleSearch (s : State) (p : Platform) :
  url_step None s p (handleSearch s p).
Proof.
  unfold handleSearch.
  destruct (negb (truthy_str (Some (query s)))); [quiet|].
  unfold searchProduct. destruct (getAI p); cbn; quiet.
Qed.

Lemma url_step_handleGenerateAssets (s : State) (p : Platform) :
  url_step None s p (handleGenerateAssets s p).
Proof.
  unfold handleGenerateAssets.
  destruct (script s) as [sc|]; [|quiet].
  destruct (truthy sc); [|quiet]. cbn.
  unfold generateAudio, generateVisual, getAI. cbn.
  destruct (truthy_str (GEMINI_API_KEY p)) eqn:E; cbn; rewrite ?E; cbn; quiet.
Qed.

Lemma url_step_handleSearch_lookup (lang : Language) (reply : Reply (option string))
    (s : State) (p : Platform) :
  url_step (Some (LookupTask lang)) s p (handleSearch_lookup lang reply s p).
Proof.
  unfold handleSearch_lookup, answer, searchProduct_then.
  destruct reply as [[info|]|e]; cbn; try quiet.
  destruct (String.eqb info ""); cbn; [quiet|].
  unfold generateScript. destruct (getAI p); cbn; quiet.
Qed.

Lemma url_step_handleSearch_script (reply : Reply JsonText) (s : State)
    (p : Platform) :
  url_step (Some ScriptTask) s p (handleSearch_script reply s p).
Proof.
  unfold handleSearch_script, answer, generateScript_then.
  destruct reply as [[|v]|e]; cbn; try quiet.
  destruct (truthy v); cbn; quiet.
Qed.

Lemma url_step_audio (v : Slot) (reply : Reply Response) (s : State) (p : Platform) :
  url_step (Some (AssetsTask Pending v)) s p
    (handleGenerateAssets_audio Pending v reply s p).
Proof.
  unfold handleGenerateAssets_audio, answer.
  destruct reply as [r|e].
  - unfold generateAudio_then.
    destruct (first_part_inlineData r) as [part|].
    + destruct (wrap_pcm part) as [blob|e].
      * cbn [createObjectURL].
        exists ["blob:" +:+ pretty (minted p)].
        split; [right; exists blob; repeat split|].
        destruct v as [|[x|e']]; cbn.
        -- split; [left; repeat split; reflexivity | intros _ u; discriminate].
        -- split; [right; split; [reflexivity | intros H; exact H]
                  |intros _ u; discriminate].
        -- split; [left; repeat split; apply submseteq_nil_l
                  |intros _ u; discriminate].
      * destruct v as [|[x|e']]; cbn; quiet.
    + destruct v as [|[x|e']]; cbn; try quiet.
      exists []. split; [apply grown_same; reflexivity|].
      split; [right; split; [reflexivity | intros H; exact H]
             |intros _ u; discriminate].
  - destruct v as [|[x|e']]; cbn; quiet.
Qed.

Lemma url_step_visual (a : Slot) (reply : Reply Response) (s : State) (p : Platform) :
  url_step (Some (AssetsTask a Pending)) s p
    (handleGenerateAssets_visual a Pending reply s p).
Proof.
  unfold handleGenerateAssets_visual, answer.
  destruct reply as [r|e].
  - unfold generateVisual_then.
    destruct (first_inline (default [] (first_parts r))) as [d|].
    + destruct a as [|[y|e']]; cbn.
      * exists []. split; [apply grown_same; reflexivity|].
        split; [left; repeat split; apply submseteq_nil_l
               |intros _ u; apply data_url_built].
      * exists []. split; [apply grown_same; reflexivity|].
        split; [right; split; [now destruct y | intros _ u; apply data_url_built]
               |intros _ u; discriminate].
      * quiet.
    + destruct a as [|[y|e']]; cbn; try quiet.
      exists []. split; [apply grown_same; reflexivity|].
      split; [right; split; [now destruct y | intros _ u; discriminate]
             |intros _ u; discriminate].
  - destruct a as [|[y|e']]; cbn; quiet.
Qed.

Lemma boot_urls_sound (p : Platform) : urls_sound (boot p).
Proof.
  destruct (boot_frame p) as (_ & _ & _ & Ht & _ & Ha & Hi).
  unfold urls_sound, held. rewrite Ht, Ha, Hi. cbn.
  split; [constructor|]. split; [constructor|].
  split; [intros u; discriminate|constructor].
Qed.

(** Every event keeps the object URLs sound. *)
Lemma react_urls_sound (ev : Event) (sys sys' : System) :
  urls_sound sys -> react ev sys = Some sys' -> urls_sound sys'.
Proof.
  intros Inv Hre. destruct ev; unfold react in Hre.
  - injection Hre as <-. apply boot_urls_sound.
  - enabled Hre. apply urls_sound_update; auto.
  - enabled Hre. apply urls_sound_update; auto.
  - enabled Hre. apply urls_sound_start; [exact Inv|apply url_step_handleSearch].
  - enabled Hre. apply urls_sound_start; [exact Inv|apply url_step_handleSearch].
  - enabled Hre.
    apply urls_sound_start; [exact Inv|apply url_step_handleGenerateAssets].
  - enabled Hre. unfold clearState. apply urls_sound_update; auto.
  - destruct (tasks sys !! i) as [[lang| |a v]|] eqn:Hi; try discriminate.
    answered Hre (resume i sys (handleSearch_lookup lang reply
                                  (cells sys) (platform sys))).
    apply (urls_sound_resume sys i (LookupTask lang)); auto.
    apply url_step_handleSearch_lookup.
  - destruct (tasks sys !! i) as [[lang| |a v]|] eqn:Hi; try discriminate.
    answered Hre (resume i sys (handleSearch_script reply
                                  (cells sys) (platform sys))).
    apply (urls_sound_resume sys i ScriptTask); auto.
    apply url_step_handleSearch_script.
  - destruct (tasks sys !! i) as [[lang| |[|o] v]|] eqn:Hi; try discriminate.
    answered Hre (resume i sys (handleGenerateAssets_audio Pending v reply
                                  (cells sys) (platform sys))).
    apply (urls_sound_resume sys i (AssetsTask Pending v)); auto.
    apply url_step_audio.
  - destruct (tasks sys !! i) as [[lang| |a [|o]]|] eqn:Hi; try discriminate.
    answered Hre (resume i sys (handleGenerateAssets_visual a Pending reply
                                  (cells sys) (platform sys))).
    apply (urls_sound_resume sys i (AssetsTask a Pending)); auto.
    apply url_step_visual.
  - destruct (0 <? message_listeners (platform sys))%nat;
      injection Hre as <-; [|exact Inv].
    unfold update, handleMessage.
    destruct (bool_decide (type = Some "YOUTUBE_AUTH_SUCCESS"));
      apply urls_sound_update; auto.
Qed.

(** X17. The artifacts of the page stay allocated.  At every state of
    every run, also one in which transitions overlap, the audio cell holds
    nothing or an object URL that has been created and not revoked, and
    the image cell holds nothing or a data URL; an object URL a waiting
    asset generation has received is allocated too, and is not the one of
    the audio cell. *)
Theorem artifacts_stay_allocated (p0 : Platform) (evs : list Event) (sys : System) :
  Run.run evs (boot p0) = Some sys ->
  (forall u, audioUrl (cells sys) = Some u ->
     String.prefix "blob:" u = true /\
     is_Some (objectURLs (platform sys) !! u)) /\
  (forall u, imageUrl (cells sys) = Some u ->
     String.prefix "data:image/png;base64," u = true) /\
  (forall i u,
     tasks sys !! i = Some (AssetsTask (Settled (Resolved (Some u))) Pending) ->
     is_Some (objectURLs (platform sys) !! u) /\ audioUrl (cells sys) <> Some u).
Proof.
  intros Hrun.
  assert (H : urls_sound sys)
    by (apply (run_keeps _ react_urls_sound evs (boot p0));
        [apply boot_urls_sound | exact Hrun]).
  destruct H as (Hnd & Hall & Himg & _). unfold held in Hnd, Hall.
  rewrite Forall_forall in Hall. split; [|split; [exact Himg|]].
  - intros u Hu. rewrite Hu in Hall.
    destruct (Hall u) as [(n & -> & _) Hlive]; [left|].
    split; [apply prefix_append | exact Hlive].
  - intros i u Hi.
    assert (Hin : u ∈ omap slot_url (tasks sys)).
    { apply list_elem_of_omap.
      exists (AssetsTask (Settled (Resolved (Some u))) Pending).
      split; [|reflexivity]. now apply (list_elem_of_lookup_2 _ i). }
    split.
    + apply Hall. apply elem_of_app. now right.
    + intros Hu. rewrite Hu in Hnd. cbn in Hnd.
      apply NoDup_cons in Hnd as [Hnot _]. contradiction.
Qed.

Lemma artifacts_stay_allocated_witness :
  let evs := [TypeQuery "Test Widget"; PressEnter; PressEnter;
              LookupAnswer 0 (Resolved (Some "Widget is great"));
              ScriptAnswer 0 (Resolved (JSON Sample.widget_script));
              ClickGenerateAssets;
              SpeechAnswer 1 (Resolved (Sample.inline_response Sample.pcm48));
              ImageAnswer 1 (Resolved (Sample.inline_response "iVBORw0KGgo="));
              LookupAnswer 0 (Resolved (Some "Widget is great"));
              ScriptAnswer 0 (Resolved (JSON Sample.widget_script));
              ClickGenerateAssets;
              SpeechAnswer 0 (Resolved (Sample.inline_response Sample.pcm48))] in
  exists sys,
    Run.run evs (boot Sample.browser) = Some sys /\
    audioUrl (cells sys) = Some "blob:0" /\
    is_Some (objectURLs (platform sys) !! "blob:0") /\
    is_Some (objectURLs (platform sys) !! "blob:1").
Proof.
  intros evs.
  destruct (Run.run evs (boot Sample.browser)) as [sys|] eqn:E;
    [|vm_compute in E; discriminate].
  destruct (artifacts_stay_allocated Sample.browser evs sys E) as (H1 & _ & H3).
  assert (H : audioUrl (cells sys) = Some "blob:0" /\
              tasks sys !! 0%nat
              = Some (AssetsTask (Settled (Resolved (Some "blob:1"))) Pending))
    by (vm_compute in E; injection E as <-; split; reflexivity).
  destruct H as [Ha Ht].
  exists sys. split; [reflexivity|]. split; [exact Ha|].
  split; [apply (H1 _ Ha) | apply (H3 _ _ Ht)].
Defined.

End Artifacts.

(** ** The connection flag *)

Section Connection.
Import Gemini App Run Kept.

Lemma cells_start (sys : System) (r : State * Platform * option Task) :
  cells (start sys r) = fst (fst r).
Proof. now destruct r as [[s p] t]. Qed.

Lemma cells_resume (i : nat) (sys : System) (r : State * Platform * option Task) :
  cells (resume i sys r) = fst (fst r).
Proof. now destruct r as [[s p] t]. Qed.

(** No handler writes the connection flag. *)
Lemma connected_handleSearch (s : State) (p : Platform) :
  isYoutubeConnected (fst (fst (handleSearch s p))) = isYoutubeConnected s.
Proof.
  unfold handleSearch.
  destruct (negb (truthy_str (Some (query s)))); [reflexivity|].
  unfold searchProduct. now destruct (getAI p).
Qed.

Lemma connected_handleSearch_lookup (lang : Language) (reply : Reply (option string))
    (s : State) (p : Platform) :
  isYoutubeConnected (fst (fst (handleSearch_lookup lang reply s p)))
  = isYoutubeConnected s.
Proof.
  unfold handleSearch_lookup, answer, searchProduct_then.
  destruct reply as [[info|]|e]; cbn; try reflexivity.
  destruct (String.eqb info ""); cbn; [reflexivity|].
  unfold generateScript. now destruct (getAI p).
Qed.

Lemma connected_handleSearch_script (reply : Reply JsonText) (s : State)
    (p : Platform) :
  isYoutubeConnected (fst (fst (handleSearch_script reply s p)))
  = isYoutubeConnected s.
Proof.
  unfold handleSearch_script, answer, generateScript_then.
  destruct reply as [[|v]|e]; cbn; try reflexivity.
  now destruct (truthy v).
Qed.

Lemma connected_settled (r : Outcome (option string * option string)) (s : State) :
  isYoutubeConnected (handleGenerateAssets_settled r s) = isYoutubeConnected s.
Proof. now destruct r as [[a v]|e]. Qed.

Lemma connected_progress (before : option (Outcome (option string * option string)))
    (a v : Slot) (s : State) :
  isYoutubeConnected (assets_progress before a v s) = isYoutubeConnected s.
Proof.
  unfold assets_progress. destruct before; [reflexivity|].
  destruct (Promise_all a v); [apply connected_settled|reflexivity].
Qed.

Lemma connected_handleGenerateAssets (s : State) (p : Platform) :
  isYoutubeConnected (fst (fst (handleGenerateAssets s p))) = isYoutubeConnected s.
Proof.
  unfold handleGenerateAssets.
  destruct (script s) as [sc|]; [|reflexivity].
  destruct (truthy sc); [|reflexivity]. cbn [fst].
  destruct (Promise_all _ _); [|reflexivity].
  etransitivity; [apply connected_settled|reflexivity].
Qed.

Lemma connected_handleGenerateAssets_audio (a v : Slot) (reply : Reply Response)
    (s : State) (p : Platform) :
  isYoutubeConnected (fst (fst (handleGenerateAssets_audio a v reply s p)))
  = isYoutubeConnected s.
Proof.
  unfold handleGenerateAssets_audio. destruct a; [|reflexivity].
  destruct (answer generateAudio_then reply p) as [o p']. cbn [fst].
  apply connected_progress.
Qed.

Lemma connected_handleGenerateAssets_visual (a v : Slot) (reply : Reply Response)
    (s : State) (p : Platform) :
  isYoutubeConnected (fst (fst (handleGenerateAssets_visual a v reply s p)))
  = isYoutubeConnected s.
Proof.
  unfold handleGenerateAssets_visual. destruct v; [|reflexivity].
  destruct (answer generateVisual_then reply p) as [o p']. cbn [fst].
  apply connected_progress.
Qed.

(** Once set, the connection flag stays set, also across a reload. *)
Lemma react_connected (ev : Event) (sys sys' : System) :
  in_sync sys /\ isYoutubeConnected (cells sys) = true ->
  react ev sys = Some sys' ->
  in_sync sys' /\ isYoutubeConnected (cells sys') = true.
Proof.
  intros [Inv Hc] Hre. split; [now apply (react_in_sync ev sys)|].
  destruct ev; unfold react in Hre.
  - injection Hre as <-. destruct Inv as (H1 & H2 & H3).
    destruct (same_items_unmount (cells sys) (platform sys)) as (E1 & E2 & E3).
    rewrite <- E1 in H1. rewrite <- E2 in H2. rewrite <- E3 in H3.
    destruct (boot_in_sync_cells (cells sys) _ H1 H2 H3) as (-> & _).
    exact Hc.
  - enabled Hre. exact Hc.
  - enabled Hre. exact Hc.
  - enabled Hre. now rewrite cells_start, connected_handleSearch.
  - enabled Hre. now rewrite cells_start, connected_handleSearch.
  - enabled Hre. now rewrite cells_start, connected_handleGenerateAssets.
  - enabled Hre. exact Hc.
  - destruct (tasks sys !! i) as [[lang| |a v]|]; try discriminate.
    answered Hre (resume i sys (handleSearch_lookup lang reply
                                  (cells sys) (platform sys))).
    now rewrite cells_resume, connected_handleSearch_lookup.
  - destruct (tasks sys !! i) as [[lang| |a v]|]; try discriminate.
    answered Hre (resume i sys (handleSearch_script reply
                                  (cells sys) (platform sys))).
    now rewrite cells_resume, connected_handleSearch_script.
  - destruct (tasks sys !! i) as [[lang| |[|o] v]|]; try discriminate.
    answered Hre (resume i sys (handleGenerateAssets_audio Pending v reply
                                  (cells sys) (platform sys))).
    now rewrite cells_resume, connected_handleGenerateAssets_audio.
  - destruct (tasks sys !! i) as [[lang| |a [|o]]|]; try discriminate.
    answered Hre (resume i sys (handleGenerateAssets_visual a Pending reply
                                  (cells sys) (platform sys))).
    now rewrite cells_resume, connected_handleGenerateAssets_visual.
  - destruct (0 <? message_listeners (platform sys))%nat;
      injection Hre as <-; [|exact Hc].
    cbn. unfold handleMessage.
    now destruct (bool_decide (type = Some "YOUTUBE_AUTH_SUCCESS")).
Qed.

(** X18. The connection is never dropped.  Once the connection flag is set in
    a run, it is set at every later state, across resets and reloads, and
    the stored item says so: the page has no way to disconnect. *)
Theorem connection_is_kept (p0 : Platform) (evs1 evs2 : list Event)
    (sys1 sys2 : System) :
  Run.run evs1 (boot p0) = Some sys1 ->
  isYoutubeConnected (cells sys1) = true ->
  Run.run evs2 sys1 = Some sys2 ->
  isYoutubeConnected (cells sys2) = true /\
  isYoutubeConnected_item (platform sys2) = Some "true".
Proof.
  intros H1 Hc H2.
  destruct (run_keeps _ react_connected evs2 sys1 sys2) as [(_ & Hitem & _) Hc2];
    [split; [now apply (run_in_sync p0 evs1)|exact Hc] | exact H2 |].
  split; [exact Hc2|]. now rewrite Hitem, Hc2.
Qed.

Lemma connection_is_kept_witness :
  let evs1 := [Message (Some "YOUTUBE_AUTH_SUCCESS")] in
  let evs2 := [ClickStartOver; TypeQuery "Test Widget"; Reload; PressEnter] in
  exists sys1 sys2,
    Run.run evs1 (boot Sample.browser) = Some sys1 /\
    Run.run evs2 sys1 = Some sys2 /\
    isYoutubeConnected (cells (boot Sample.browser)) = false /\
    isYoutubeConnected (cells sys2) = true.
Proof.
  intros evs1 evs2.
  destruct (Run.run evs1 (boot Sample.browser)) as [sys1|] eqn:E1;
    [|vm_compute in E1; discriminate].
  destruct (Run.run evs2 sys1) as [sys2|] eqn:E2;
    [|vm_compute in E1; injection E1 as <-; vm_compute in E2; discriminate].
  destruct (connection_is_kept Sample.browser evs1 evs2 sys1 sys2 E1) as [H _];
    [vm_compute in E1; injection E1 as <-; reflexivity | exact E2 |].
  exists sys1, sys2. split; [reflexivity|]. split; [exact E2|].
  split; [reflexivity|exact H].
Defined.

(** X19. The fallback of the authorization.  A page loaded with
    [?youtube_success=true] in its address starts connected, stores the
    flag and removes the parameter from the address; the cells it restores
    are those it would restore without the parameter. *)
Theorem success_flag_connects (p : Platform) :
  youtube_success p = true ->
  isYoutubeConnected (cells (boot p)) = true /\
  isYoutubeConnected_item (platform (boot p)) = Some "true" /\
  youtube_success (platform (boot p)) = false /\
  cells (boot p) = setIsYoutubeConnected true (cells (boot (scrub_address p))).
Proof.
  intros Hy. destruct (in_sync_boot p) as (_ & H2 & H3).
  assert (Hc : cells (boot p)
               = setIsYoutubeConnected true (cells (boot (scrub_address p)))).
  { unfold boot, mount, check_success_flag. rewrite Hy. cbn.
    unfold restore. cbn.
    now destruct (shorts_ai_state p) as [[|snap]|]. }
  assert (Hc1 : isYoutubeConnected (cells (boot p)) = true) by now rewrite Hc.
  split; [exact Hc1|]. split; [now rewrite H2, Hc1|]. split; [exact H3|exact Hc].
Qed.

Lemma success_flag_connects_witness :
  let p := mkPlatform (Some "key") [] ∅ 0 None None true 0 in
  isYoutubeConnected (cells (boot p)) = true /\
  isYoutubeConnected_item (platform (boot p)) = Some "true" /\
  youtube_success (platform (boot p)) = false.
Proof.
  intros p.
  destruct (success_flag_connects p eq_refl) as (H1 & H2 & H3 & _).
  split; [exact H1|]. split; [exact H2|exact H3].
Defined.

End Connection.

(** ** The authorization URL of the server *)

Section AuthUrl.
Import Server.

Lemma string_app_assoc (a b c : string) : (a +:+ b) +:+ c = a +:+ (b +:+ c).
Proof.
  induction a as [|x a IH]; [reflexivity|].
  change (String x ((a +:+ b) +:+ c) = String x (a +:+ (b +:+ c))).
  now rewrite IH.
Qed.

Lemma urlencode_app (a b : string) :
  urlencode (a +:+ b) = urlencode a +:+ urlencode b.
Proof.
  induction a as [|c a IH]; simpl; [reflexivity|]. rewrite IH.
  destruct (unreserved c); [reflexivity|].
  now destruct (N_of_ascii c =? 32)%N.
Qed.

Lemma hex_digit_safe (n : N) : (n < 16)%N -> is_delimiter (hex_digit n) = false.
Proof.
  intros H. unfold hex_digit, is_delimiter. cbv zeta.
  destruct (n <? 10)%N eqn:E;
    [apply N.ltb_lt in E | apply N.ltb_ge in E];
    rewrite N_ascii_embedding by lia;
    repeat (rewrite (proj2 (N.eqb_neq _ _)) by lia); reflexivity.
Qed.

Lemma unreserved_safe (c : ascii) : unreserved c = true -> is_delimiter c = false.
Proof.
  unfold unreserved, is_delimiter. cbv zeta.
  destruct (N_of_ascii c =? 38)%N eqn:E1; [apply N.eqb_eq in E1; now rewrite E1|].
  destruct (N_of_ascii c =? 61)%N eqn:E2; [apply N.eqb_eq in E2; now rewrite E2|].
  destruct (N_of_ascii c =? 35)%N eqn:E3; [apply N.eqb_eq in E3; now rewrite E3|].
  destruct (N_of_ascii c =? 63)%N eqn:E4; [apply N.eqb_eq in E4; now rewrite E4|].
  destruct (N_of_ascii c =? 59)%N eqn:E5; [apply N.eqb_eq in E5; now rewrite E5|].
  reflexivity.
Qed.

(** An encoded name or value contains no delimiter of a query string. *)
Lemma urlencode_safe (s : string) :
  Forall (fun c => is_delimiter c = false) (list_ascii_of_string (urlencode s)).
Proof.
  induction s as [|c s IH]; simpl; [constructor|].
  destruct (unreserved c) eqn:Eu.
  - simpl. constructor; [now apply unreserved_safe | exact IH].
  - destruct (N_of_ascii c =? 32)%N.
    + simpl. constructor; [reflexivity | exact IH].
    + simpl. constructor; [reflexivity|].
      pose proof (N_ascii_bounded c) as Hb.
      constructor; [apply hex_digit_safe, N.Div0.div_lt_upper_bound; lia|].
      constructor; [apply hex_digit_safe, N.mod_upper_bound; lia | exact IH].
Qed.

(** X20. The authorization URL, for every environment: the endpoint followed
    by the six parameters in the order of the source, the scope and the
    path of the callback percent-encoded; the client id and the
    application URL are encoded so that they contain no [&], [=], [#],
    [?] or [;], and hence cannot add or change a parameter.  An unset
    variable is sent as the text undefined. *)
Theorem authUrl_parameters (env : Env) :
  let id := urlencode (text_of (YOUTUBE_CLIENT_ID env)) in
  let app := urlencode (text_of (APP_URL env)) in
  authUrl env
  = "https://accounts.google.com/o/oauth2/v2/auth?client_id=" +:+ id +:+
    "&redirect_uri=" +:+ app +:+ "%2Fauth%2Fyoutube%2Fcallback" +:+
    "&response_type=code" +:+
    "&scope=https%3A%2F%2Fwww.googleapis.com%2Fauth%2Fyoutube.upload+https%3A%2F%2Fwww.googleapis.com%2Fauth%2Fyoutube.readonly" +:+
    "&access_type=offline&prompt=consent" /\
  Forall (fun c => is_delimiter c = false) (list_ascii_of_string id) /\
  Forall (fun c => is_delimiter c = false) (list_ascii_of_string app) /\
  (YOUTUBE_CLIENT_ID env = None -> id = "undefined").
Proof.
  intros id app. split; [|split; [apply urlencode_safe|split;
                                  [apply urlencode_safe|]]].
  - unfold authUrl, auth_params, serialize. rewrite urlencode_app.
    fold id app.
    change (urlencode "client_id") with "client_id".
    change (urlencode "redirect_uri") with "redirect_uri".
    change (urlencode "/auth/youtube/callback") with "%2Fauth%2Fyoutube%2Fcallback".
    change (urlencode "response_type") with "response_type".
    change (urlencode "code") with "code".
    change (urlencode "scope") with "scope".
    change (urlencode "access_type") with "access_type".
    change (urlencode "offline") with "offline".
    change (urlencode "prompt") with "prompt".
    change (urlencode "consent") with "consent".
    change (urlencode
              "https://www.googleapis.com/auth/youtube.upload https://www.googleapis.com/auth/youtube.readonly")
      with "https%3A%2F%2Fwww.googleapis.com%2Fauth%2Fyoutube.upload+https%3A%2F%2Fwww.googleapis.com%2Fauth%2Fyoutube.readonly".
    rewrite !string_app_assoc. reflexivity.
  - intros H. subst id. now rewrite H.
Qed.

End AuthUrl.

(** ** The transitions when the backend answers *)

Section Completion.
Import Gemini App.

(** X21. A search that completes.  With a credential and a non-empty
    query, when the lookup returns a non-empty text and the script
    generation a JSON value that is truthy, the transition ends at stage
    script with that value as the script and the looked-up text as the
    product information, the error of an earlier search cleared and
    [loading] unset; the query, the language, the artifacts and the
    connection flag are untouched. *)
Theorem search_completes (info : string) (v : JsValue) (s : State) (p : Platform) :
  has_key p -> query s <> "" -> info <> "" -> truthy v = true ->
  fst (search_transition (Resolved (Some info)) (Resolved (JSON v)) s p)
  = setLoading false
      (setStep Step.script
         (setScript (Some v) (setProductInfo info (setError None s)))).
Proof.
  intros Hkey Hq Hinfo Hv. unfold has_key in Hkey.
  apply String.eqb_neq in Hq, Hinfo.
  unfold search_transition, rendered, handleSearch.
  cbn [truthy_str]. rewrite Hq. cbn [negb].
  unfold searchProduct, getAI. rewrite Hkey. cbn.
  unfold handleSearch_lookup. cbn. rewrite Hinfo. cbn.
  unfold generateScript, getAI. rewrite key_commit. cbn. rewrite Hkey. cbn.
  unfold handleSearch_script. cbn. rewrite Hv. reflexivity.
Qed.

Lemma search_completes_witness :
  let s := setError (Some "Failed to generate script.")
             (setQuery "Test Widget" (initial Sample.browser)) in
  let s' := fst (search_transition (Resolved (Some "Widget is great"))
                   (Resolved (JSON Sample.widget_script)) s Sample.browser) in
  step s' = Step.script /\ script s' = Some Sample.widget_script /\
  productInfo s' = "Widget is great" /\ error s' = None /\ loading s' = false.
Proof.
  intros s s'. subst s'.
  rewrite (search_completes "Widget is great" Sample.widget_script s Sample.browser
             eq_refl);
    [repeat split | discriminate | discriminate | reflexivity].
Defined.

(** X22. An asset generation that completes.  With a credential and a
    script, when both generators resolve, in either order of the answers,
    the transition ends at stage preview with the audio and the image
    cells holding what the generators resolved to (either may be null)
    and [loading] unset; no other cell changes. *)
Theorem assets_complete (speech image : Reply Response) (s : State)
    (p : Platform) (sc : JsValue) (a v : option string) :
  has_key p -> script s = Some sc -> truthy sc = true ->
  fst (run (generateAudio (fullText sc) (language s)) speech p) = Resolved a ->
  fst (run (generateVisual (query s)) image p) = Resolved v ->
  forall s',
    s' = fst (assets_transition speech image s p) \/
    s' = fst (assets_transition' speech image s p) ->
    s' = setLoading false
           (setStep Step.preview (setImageUrl v (setAudioUrl a s))).
Proof.
  intros Hkey Hsc Htruthy Ha Hv s' Hs'.
  destruct (assets_transition_cells speech image s p sc Hkey Hsc Htruthy)
    as [E1 E2].
  rewrite Ha, Hv in E1, E2.
  destruct Hs' as [-> | ->]; [rewrite E1 | rewrite E2]; reflexivity.
Qed.

Lemma assets_complete_witness :
  let s' := fst (assets_transition' (Resolved (Sample.inline_response Sample.pcm48))
                   (Resolved Sample.empty_response)
                   Sample.at_script Sample.browser) in
  step s' = Step.preview /\ audioUrl s' = Some "blob:0" /\ imageUrl s' = None.
Proof.
  intros s'.
  rewrite (assets_complete (Resolved (Sample.inline_response Sample.pcm48))
             (Resolved Sample.empty_response) Sample.at_script Sample.browser
             Sample.widget_script (Some "blob:0") None
             eq_refl eq_refl eq_refl) with (s' := s');
    [repeat split | vm_compute; reflexivity | reflexivity | right; reflexivity].
Defined.

(** X23. A failed asset generation is silent.  With a credential and a
    script, when at least one generator throws, in either order of the
    answers, the only change to the cells is that [loading] is unset: the
    [catch] logs to the console and records no error, unlike the one of
    the search. *)
Theorem assets_failure_is_silent (speech image : Reply Response) (s : State)
    (p : Platform) (sc : JsValue) :
  has_key p -> script s = Some sc -> truthy sc = true ->
  is_threw (fst (run (generateAudio (fullText sc) (language s)) speech p))
  || is_threw (fst (run (generateVisual (query s)) image p)) = true ->
  forall s',
    s' = fst (assets_transition speech image s p) \/
    s' = fst (assets_transition' speech image s p) ->
    s' = setLoading false s /\ error s' = error s.
Proof.
  intros Hkey Hsc Htruthy Hthrew s' Hs'.
  destruct (assets_transition_cells speech image s p sc Hkey Hsc Htruthy)
    as [E1 E2].
  assert (E : s' = setLoading false s).
  { destruct Hs' as [-> | ->]; [rewrite E1 | rewrite E2];
      destruct (fst (run (generateAudio _ _) speech p)),
        (fst (run (generateVisual _) image p));
      cbn in Hthrew; try discriminate; reflexivity. }
  split; [exact E | now rewrite E].
Qed.

Lemma assets_failure_is_silent_witness :
  let s' := fst (assets_transition (Resolved (Sample.inline_response "not base64!"))
                   (Threw Sample.network_error) Sample.at_script Sample.browser) in
  s' = Sample.at_script /\ error s' = None.
Proof.
  intros s'.
  destruct (assets_failure_is_silent (Resolved (Sample.inline_response "not base64!"))
              (Threw Sample.network_error) Sample.at_script Sample.browser
              Sample.widget_script eq_refl eq_refl eq_refl) with (s' := s')
    as [H1 H2]; [vm_compute; reflexivity | left; reflexivity |].
  split; [rewrite H1; reflexivity | rewrite H2; reflexivity].
Defined.

End Completion.

(** ** The language of a search under way *)

Section Closure.
Import Gemini App Run.

(** X24. The language of a search is the one selected when it started.
    The language buttons stay enabled while a search waits for the
    lookup; a language chosen then changes the cell, but the script is
    requested in the language the handler was started with. *)
Theorem language_fixed_at_start (sys : System) (l' : Language) (info : string) :
  shows_search (cells sys) = true -> has_key (platform sys) ->
  query (cells sys) <> "" -> info <> "" ->
  exists sys',
    Run.run [PressEnter; ChooseLanguage l';
             LookupAnswer (length (tasks sys)) (Resolved (Some info))] sys
    = Some sys' /\
    language (cells sys') = l' /\
    requests (platform sys')
    = ScriptRequest info (language (cells sys))
      :: LookupRequest (query (cells sys)) :: requests (platform sys) /\
    tasks sys' = tasks sys ++ [ScriptTask].
Proof.
  intros Hshown Hkey Hq Hinfo. unfold has_key in Hkey.
  apply String.eqb_neq in Hq, Hinfo.
  assert (Hstep : step (cells sys) = Step.search)
    by (unfold shows_search in Hshown; destruct (step (cells sys)); now try discriminate).
  cbn [Run.run]. unfold react at 1. rewrite Hshown.
  unfold handleSearch. cbn [truthy_str]. rewrite Hq. cbn [negb].
  unfold searchProduct, getAI. rewrite Hkey.
  unfold start, rendered. cbn [started option_list].
  unfold react at 1. unfold shows_search. cbn [cells step setError setLoading].
  rewrite Hstep. cbn [step_eqb].
  unfold update. cbn [cells platform tasks].
  unfold react. cbn [cells platform tasks].
  rewrite lookup_app_r, Nat.sub_diag by lia. cbn [lookup list_lookup].
  unfold handleSearch_lookup, answer, searchProduct_then. cbn [truthy_str].
  rewrite Hinfo. cbn [negb default].
  unfold generateScript, getAI. rewrite !key_commit. cbn [GEMINI_API_KEY send].
  rewrite Hkey. unfold resume, rendered. cbn [started].
  eexists. split; [reflexivity|]. cbn [cells platform tasks].
  split; [reflexivity|]. split.
  - rewrite requests_commit. cbn [requests send]. rewrite !requests_commit.
    reflexivity.
  - rewrite insert_app_r_alt, Nat.sub_diag by lia. reflexivity.
Qed.

Lemma language_fixed_at_start_witness :
  let sys := update (boot Sample.browser)
               (setQuery "Test Widget" (cells (boot Sample.browser))) in
  exists sys',
    Run.run [PressEnter; ChooseLanguage Hindi;
             LookupAnswer 0 (Resolved (Some "Widget is great"))] sys
    = Some sys' /\
    language (cells sys') = Hindi /\
    requests (platform sys')
    = [ScriptRequest "Widget is great" English; LookupRequest "Test Widget"].
Proof.
  intros sys.
  destruct (language_fixed_at_start sys Hindi "Widget is great")
    as (sys' & H1 & H2 & H3 & _);
    [reflexivity | reflexivity | discriminate | discriminate |].
  exists sys'. split; [exact H1|]. split; [exact H2|exact H3].
Defined.

End Closure.

(** ** The size of the decoded audio *)

Section Payload.
Import Gemini App.

Lemma is_base64_plain (c : ascii) :
  is_base64 c = true ->
  Base64.is_whitespace c = false /\ Base64.is_ascii_whitespace c = false /\
  Base64.is_pad c = false.
Proof.
  destruct c as [[] [] [] [] [] [] [] []]; vm_compute; intros H;
    try discriminate H; auto.
Qed.

Lemma filter_filter_base64 (keep : ascii -> bool) (l : list ascii) :
  (forall c, is_base64 c = true -> keep c = true) ->
  List.filter is_base64 (List.filter keep l) = List.filter is_base64 l.
Proof.
  intros H. induction l as [|c l IH]; cbn; [reflexivity|].
  destruct (keep c) eqn:Ek; cbn; rewrite IH; [reflexivity|].
  destruct (is_base64 c) eqn:Eb; [|reflexivity].
  rewrite (H c Eb) in Ek. discriminate.
Qed.

Lemma filter_base64_strip (l : list ascii) :
  List.filter is_base64 (reverse (Base64.strip_padding_rev (reverse l)))
  = List.filter is_base64 l.
Proof.
  assert (Hpad : forall c, Base64.is_pad c = true -> is_base64 c = false).
  { intros c Hc. destruct (is_base64 c) eqn:E; [|reflexivity].
    destruct (is_base64_plain c E) as (_ & _ & H). congruence. }
  rewrite <- (reverse_involutive l) at 2.
  destruct (reverse l) as [|c1 [|c2 r]]; cbn [Base64.strip_padding_rev];
    try reflexivity.
  destruct (Base64.is_pad c1) eqn:E1; [|reflexivity].
  destruct (Base64.is_pad c2) eqn:E2.
  - rewrite !reverse_cons, !List.filter_app. cbn.
    rewrite (Hpad c1 E1), (Hpad c2 E2). now rewrite !app_nil_r.
  - rewrite (reverse_cons (c2 :: r) c1), List.filter_app. cbn.
    rewrite (Hpad c1 E1). now rewrite app_nil_r.
Qed.

Lemma mapM_sextet (cs : list ascii) (l : list Z) :
  mapM Base64.sextet cs = Some l ->
  length l = length cs /\ List.filter is_base64 cs = cs.
Proof.
  intros H. split; [symmetry; now apply (length_mapM Base64.sextet)|].
  apply mapM_Some in H. induction H as [|c y cs l Hc _ IH]; cbn; [reflexivity|].
  unfold is_base64 at 1. rewrite Hc. now rewrite IH.
Qed.

Lemma length_octets (l : list Z) :
  (length l mod 4 <> 1)%nat -> length (Base64.octets l) = decoded_length (length l).
Proof.
  assert (H : forall n l, (length l <= n)%nat -> (length l mod 4 <> 1)%nat ->
                          length (Base64.octets l) = decoded_length (length l)).
  { clear l. induction n as [|n IH]; intros l Hn Hm.
    - destruct l; [reflexivity|cbn in Hn; lia].
    - destruct l as [|a [|b [|c [|d l]]]]; try reflexivity.
      cbn [Base64.octets length].
        change (S (S (S (S (length l))))) with (4 + length l)%nat in *.
        assert (E1 : ((4 + length l) / 4 = 1 + length l / 4)%nat).
        { replace (4 + length l)%nat with (length l + 1 * 4)%nat by lia.
          rewrite Nat.div_add by lia. lia. }
        assert (E2 : ((4 + length l) mod 4 = length l mod 4)%nat).
        { replace (4 + length l)%nat with (length l + 1 * 4)%nat by lia.
          now rewrite Nat.Div0.mod_add. }
        rewrite IH; [|cbn in Hn; lia|now rewrite <- E2].
        unfold decoded_length. rewrite E1, E2. lia. }
  intros Hm. now apply (H (length l)).
Qed.

Lemma length_string_of_list (l : list ascii) :
  String.length (string_of_list_ascii l) = length l.
Proof. induction l; cbn; auto. Qed.

(** What [atob] returns has the length the base64 characters of its
    argument stand for. *)
Lemma atob_length (d s : string) :
  Base64.atob d = Resolved s ->
  (base64_length d mod 4 <> 1)%nat /\
  String.length s = decoded_length (base64_length d).
Proof.
  unfold Base64.atob, base64_length.
  set (cs0 := List.filter (fun c => negb (Base64.is_ascii_whitespace c))
                (list_ascii_of_string d)).
  assert (E0 : List.filter is_base64 cs0
               = List.filter is_base64 (list_ascii_of_string d)).
  { apply filter_filter_base64. intros c Hc.
    destruct (is_base64_plain c Hc) as (_ & -> & _). reflexivity. }
  rewrite <- E0.
  set (cs := if (length cs0 mod 4 =? 0)%nat
             then reverse (Base64.strip_padding_rev (reverse cs0)) else cs0).
  assert (E1 : List.filter is_base64 cs = List.filter is_base64 cs0).
  { unfold cs. destruct (length cs0 mod 4 =? 0)%nat; [|reflexivity].
    apply filter_base64_strip. }
  rewrite <- E1.
  destruct (length cs mod 4 =? 1)%nat eqn:Em; [discriminate|].
  apply Nat.eqb_neq in Em.
  destruct (mapM Base64.sextet cs) as [l|] eqn:El; [|discriminate].
  intros [= <-]. destruct (mapM_sextet cs l El) as [Hlen ->].
  split; [exact Em|].
  rewrite length_string_of_list, length_fmap, length_octets;
    now rewrite Hlen.
Qed.

Lemma base64_length_remove_whitespace (d : string) :
  base64_length (Base64.remove_whitespace d) = base64_length d.
Proof.
  unfold base64_length, Base64.remove_whitespace.
  rewrite list_ascii_of_string_of_list_ascii. f_equal.
  apply filter_filter_base64. intros c Hc.
  destruct (is_base64_plain c Hc) as (-> & _). reflexivity.
Qed.

(** X25. The size of the audio.  When [generateAudio] wraps a payload, the
    payload has [n] characters of the base64 alphabet with [n mod 4] not
    1, whitespace and padding aside, and the blob has 44 bytes of header
    and three bytes of audio for every four of those characters, plus one
    or two for a rest of two or three. *)
Theorem audio_size (part : InlineData) (d : string) (blob : Wav.Blob) :
  data part = Some d -> wrap_pcm part = Resolved blob ->
  let n := base64_length d in
  (n mod 4 <> 1)%nat /\
  length (Wav.blob_bytes blob) = (44 + (n / 4 * 3 + (n mod 4 - 1)))%nat.
Proof.
  intros Hd Hwrap n. revert Hwrap.
  unfold wrap_pcm, data_of, mbind, outcome_bind, Js.bind. rewrite Hd.
  destruct (Base64.atob (Base64.remove_whitespace d)) as [s|e] eqn:Ea;
    [|discriminate].
  destruct (atob_length _ _ Ea) as [Hm Hs].
  rewrite base64_length_remove_whitespace in Hm, Hs. fold n in Hm, Hs.
  destruct (wav_blob_resolves (Wav.Uint8Array_of_binary s))
    as (blob' & -> & _ & Hlen & _).
  intros [= <-]. split; [exact Hm|].
  rewrite Hlen, (proj1 (Uint8Array_of_binary_at s)), Hs. reflexivity.
Qed.

Lemma audio_size_witness :
  exists blob,
    wrap_pcm (mkInlineData (Some ("AAEC AwQF" +:+ newline +:+ "Bgc="))) = Resolved blob /\
    length (Wav.blob_bytes blob) = 52%nat.
Proof.
  destruct (wrap_pcm (mkInlineData (Some ("AAEC AwQF" +:+ newline +:+ "Bgc=")))) as [blob|e] eqn:E; [|vm_compute in E; discriminate].
  exists blob. split; [reflexivity|].
  now destruct (audio_size (mkInlineData (Some ("AAEC AwQF" +:+ newline +:+ "Bgc="))) _ blob eq_refl E) as [_ ->].
Defined.

End Payload.
